(** * Coreference pipeline components ([spacy/pipeline/coref.py])

    A shallow embedding of the two trainable pipes of [coref.py],
    [CoreferenceResolver] and [SpanPredictor], and the properties of their
    [predict], [set_annotations], [update], [get_loss] and [score] methods.

    Conventions of the embedding.
    - A Python exception is a [Raise e] result; everything that can raise
      lives in the [Result] monad.
    - A float is a real number ([R]): rounding and overflow of IEEE
      arithmetic are not represented.  The one place where the source
      produces an infinity on purpose, [log(0.0) = -inf], is represented
      by the type [ext].  The reals have no NaN: a computation whose float
      result would be NaN ends in [Raise NotANumber], which is not a Python
      exception.
    - An array of shape [M, n] is the list of its [M] rows; a [Floats3d] of
      shape [M, n, 2] is a list of rows of pairs.  For [M = 0] the column
      count is not represented: [x.shape[1]] reads as [0], and an operation
      along the rows sees no row, as numpy does on a shape [(0, n)] with
      [n > 0].  The shape [(0, 0)], on which a maximum along axis 1 raises
      [ValueError], has no representation of its own.
    - A Python [dict] is an association list in insertion order. *)

From Stdlib Require Import String Ascii DecimalString DecimalNat.
From Stdlib Require Import Reals Lra Lia ZArith Bool List.
Import ListNotations.

Set Implicit Arguments.

(** ** Exceptions and the result monad *)

Inductive exn : Type :=
| ValueError
| IndexError
| KeyError
| AssertionError
| UnboundLocalError
| NotANumber.

Inductive Result (A : Type) : Type :=
| Ok (a : A)
| Raise (e : exn).

Arguments Ok {A} a.
Arguments Raise {A} e.

Definition bind {A B : Type} (c : Result A) (k : A -> Result B) : Result B :=
  match c with
  | Ok a => k a
  | Raise e => Raise e
  end.

Declare Scope result_scope.
Delimit Scope result_scope with result.
Notation "x <- c ;; k" := (bind c (fun x => k))
  (at level 61, c at next level, right associativity) : result_scope.
Notation "' pat <- c ;; k" := (bind c (fun x => match x with pat => k end))
  (at level 61, pat pattern, c at next level, right associativity) : result_scope.
Open Scope result_scope.

Fixpoint mapM {A B : Type} (f : A -> Result B) (l : list A) : Result (list B) :=
  match l with
  | [] => Ok []
  | x :: t => y <- f x ;; ys <- mapM f t ;; Ok (y :: ys)
  end.

(** ** Arrays (the part of numpy and thinc the pipes use) *)

Module Np.

Open Scope R_scope.

(** [log(0.0)] is [-inf] in numpy; scores are finite. *)
Inductive ext : Type :=
| Fin (r : R)
| NegInf.

Definition b2f (b : bool) : R := if b then 1 else 0.

(** [xp.log] on an array holding only [0.0] and [1.0]. *)
Definition log01 (b : bool) : ext := if b then Fin 0 else NegInf.

(** [x + y] for a finite [x]. *)
Definition add_ext (x : R) (y : ext) : ext :=
  match y with
  | Fin r => Fin (x + r)
  | NegInf => NegInf
  end.

Definition exp_ext (x : ext) : R :=
  match x with
  | Fin r => exp r
  | NegInf => 0
  end.

Definition sum (l : list R) : R := fold_right Rplus 0 l.

Definition sum2 (m : list (list R)) : R := sum (map sum m).

Definition sqr (x : R) : R := x * x.

(** Broadcasting of one axis: equal lengths pair up, a length of 1 is
    repeated, anything else is numpy's "operands could not be broadcast". *)
Fixpoint zipM {A B C : Type} (f : A -> B -> Result C)
  (l1 : list A) (l2 : list B) : Result (list C) :=
  match l1, l2 with
  | [], [] => Ok []
  | a :: t1, b :: t2 => c <- f a b ;; cs <- zipM f t1 t2 ;; Ok (c :: cs)
  | _, _ => Raise ValueError
  end.

Definition broadcast {A B C : Type} (f : A -> B -> Result C)
  (l1 : list A) (l2 : list B) : Result (list C) :=
  if Nat.eqb (length l1) (length l2) then zipM f l1 l2
  else match l1, l2 with
       | [a], _ => mapM (f a) l2
       | _, [b] => mapM (fun a => f a b) l1
       | _, _ => Raise ValueError
       end.

(** Elementwise binary operation on two 2-d arrays. *)
Definition elementwise {A B C : Type} (op : A -> B -> C)
  (m1 : list (list A)) (m2 : list (list B)) : Result (list (list C)) :=
  broadcast (broadcast (fun a b => Ok (op a b))) m1 m2.

(** Maximum along a row; [None] for a row of [-inf] only. *)
Fixpoint max_ext (l : list ext) : option R :=
  match l with
  | [] => None
  | Fin r :: t =>
      match max_ext t with
      | Some m => Some (Rmax r m)
      | None => Some r
      end
  | NegInf :: t => max_ext t
  end.

Definition shift_exp (m : R) (x : ext) : R :=
  match x with
  | Fin r => exp (r - m)
  | NegInf => 0
  end.

(** [Ops.softmax] along one row: subtract the row maximum, exponentiate,
    divide by the sum.  A zero-length row has no maximum ([ValueError]).
    A row of [-inf] only makes [-inf - -inf]: the row is not a number. *)
Definition softmax_row (l : list ext) : Result (list R) :=
  match l with
  | [] => Raise ValueError
  | _ =>
      match max_ext l with
      | None => Raise NotANumber
      | Some m =>
          let new_x := map (shift_exp m) l in
          Ok (map (fun e => e / sum new_x) new_x)
      end
  end.

(** [x.argmax()] along one row: the first index of the maximum. *)
Fixpoint argmax_from (besti : nat) (best : R) (i : nat) (l : list R) : nat :=
  match l with
  | [] => besti
  | x :: t =>
      if Rlt_dec best x then argmax_from i x (S i) t
      else argmax_from besti best (S i) t
  end.

Definition argmax (l : list R) : Result nat :=
  match l with
  | [] => Raise ValueError
  | x :: t => Ok (argmax_from 0%nat x 1%nat t)
  end.

(** [a[i]] for a Python or numpy integer: negative indices count from the
    end, anything outside [-len, len) is an [IndexError]. *)
Definition getitem {A : Type} (l : list A) (i : Z) : Result A :=
  let n := Z.of_nat (length l) in
  let j := if (i <? 0)%Z then (i + n)%Z else i in
  if ((0 <=? j)%Z && (j <? n)%Z)%bool then
    match nth_error l (Z.to_nat j) with
    | Some a => Ok a
    | None => Raise IndexError
    end
  else Raise IndexError.

(** [xp.take_along_axis(arr, indices, axis=1)]: row [i] of the result is
    [arr[i][indices[i][k]]] for each [k]; the row axis broadcasts, and
    rows that cannot be paired are an [IndexError] of the indexing. *)
Definition take_along_axis {A : Type}
  (arr : list (list A)) (indices : list (list Z)) : Result (list (list A)) :=
  match broadcast (fun row idx => mapM (getitem row) idx) arr indices with
  | Ok r => Ok r
  | Raise _ => Raise IndexError
  end.

(** [to_categorical(Y, n_classes)]: the rows [Y] of the identity matrix of
    size [n_classes].  An empty [Y] is a float array and cannot index. *)
Definition one_hot (n_classes : nat) (y : nat) : list R :=
  map (fun j => b2f (Nat.eqb j y)) (seq 0 n_classes).

Definition to_categorical (Y : list nat) (n_classes : nat) : Result (list (list R)) :=
  match Y with
  | [] => Raise IndexError
  | _ =>
      if Nat.eqb n_classes 0 then Raise ValueError
      else mapM (fun y => if Nat.ltb y n_classes then Ok (one_hot n_classes y)
                          else Raise IndexError) Y
  end.

End Np.

(** ** Python dictionaries *)

Module PyDict.

Definition dict (V : Type) : Type := list (string * V).

Fixpoint get {V : Type} (k : string) (d : dict V) : option V :=
  match d with
  | [] => None
  | (k', v) :: t => if String.eqb k' k then Some v else get k t
  end.

(** [k in d] *)
Definition contains {V : Type} (k : string) (d : dict V) : bool :=
  match get k d with
  | Some _ => true
  | None => false
  end.

(** [d[k] = v]: an existing key keeps its position, a new one goes last. *)
Fixpoint setitem {V : Type} (k : string) (v : V) (d : dict V) : dict V :=
  match d with
  | [] => [(k, v)]
  | (k', v') :: t =>
      if String.eqb k' k then (k', v) :: t else (k', v') :: setitem k v t
  end.

(** [d.setdefault(k, v)] *)
Definition setdefault {V : Type} (k : string) (v : V) (d : dict V) : dict V :=
  if contains k d then d else setitem k v d.

(** [d.items()] *)
Definition items {V : Type} (d : dict V) : list (string * V) := d.

End PyDict.

Import PyDict.

(** ** Documents, spans and examples *)

(** A [Span] is known by its token boundaries; [end] is a keyword here. *)
Record Span : Type := mkSpan { start : nat; end_ : nat }.

(** A [Doc] is its number of tokens ([len(doc)]) and its [doc.spans]. *)
Record Doc : Type := mkDoc { n_tokens : nat; spans : dict (list Span) }.

Record Example : Type := mkExample { predicted : Doc; reference : Doc }.

(** A mention is a [(start, end)] tuple; [MentionClusters] in the source. *)
Definition Mention : Type := (Z * Z)%type.
Definition MentionClusters : Type := list (list Mention).

Definition set_spans (doc : Doc) (s : dict (list Span)) : Doc :=
  mkDoc (n_tokens doc) s.

(** [str(ii)] for a non-negative integer. *)
Definition str (ii : nat) : string := NilEmpty.string_of_uint (Nat.to_uint ii).

(** [prefix + "_" + str(ii)], also written [f"{prefix}_{ii}"]. *)
Definition cluster_key (prefix : string) (ii : nat) : string :=
  (prefix ++ "_" ++ str ii)%string.

(** A thinc model as the pipes use it.  [Model] is the state of
    [self.model]; [begin_update] returns the prediction and the
    backpropagation callback, which accumulates into the state. *)
Record ModelOps (Model Optimizer Y dY : Type) : Type := mkModelOps {
  model_predict : Model -> list Doc -> Y;
  model_begin_update : Model -> list Doc -> Y * (dY -> Model -> Model);
  set_dropout_rate : Model -> R -> Model;
  finish_update : Model -> Optimizer -> Model
}.

(** [statistics.mean] *)
Definition mean (l : list R) : Result R :=
  match l with
  | [] => Raise ValueError
  | _ => Ok (Np.sum l / INR (length l))%R
  end.

(** [any(len(d) if d else 0 for d in docs)]; a [Doc] is falsy exactly when
    it has no tokens. *)
Definition any_tokens (docs : list Doc) : bool :=
  existsb (fun d => negb (Nat.eqb (if negb (Nat.eqb (n_tokens d) 0)
                                   then n_tokens d else 0) 0)) docs.

(** [(grad ** 2).sum()] over a 2-d array. *)
Definition sum_squares (grad : list (list R)) : R :=
  Np.sum2 (map (map Np.sqr) grad).

(** [xp.stack((a, b), axis=2)] for two arrays of one shape. *)
Definition stack2 (a b : list (list R)) : Result (list (list (R * R))) :=
  Np.zipM (Np.zipM (fun x y => Ok (x, y))) a b.

(** [(grads ** 2).sum()] over a stacked array. *)
Definition sum_squares3 (grads : list (list (R * R))) : R :=
  Np.sum2 (map (map (fun p => (Np.sqr (fst p) + Np.sqr (snd p))%R)) grads).

(** [ops.softmax(x, axis=1)]; on an array without rows there is no row to
    reduce and the result is the array without rows (shape [(0, n)],
    [n > 0]). *)
Definition softmax (x : list (list Np.ext)) : Result (list (list R)) :=
  mapM Np.softmax_row x.

(** [d[k]] *)
Definition lookup {V : Type} (k : string) (d : dict V) : Result V :=
  match get k d with
  | Some v => Ok v
  | None => Raise KeyError
  end.

(** [x.shape[1]] of a 2-d array. *)
Definition shape1 {A : Type} (x : list (list A)) : nat :=
  match x with
  | [] => 0
  | row :: _ => length row
  end.

(** [x.size] of a [Floats3d] whose last axis has length 2. *)
Definition size3 {A : Type} (x : list (list A)) : nat :=
  2 * length (concat x).

(** ** The evaluator of [spacy/coref_scorer.py] *)

Module CorefScorer.

Open Scope R_scope.

(** Modelled from the spec: the file [coref_scorer.py] (class [Evaluator]
    and the metrics [b_cubed], [muc], [ceafe]) is missing.  The
    per-document result of a metric is its four numbers: precision
    numerator and denominator, recall numerator and denominator. *)
Record Totals : Type := mkTotals {
  p_num : R; p_den : R; r_num : R; r_den : R
}.

(** Modelled from the spec: the missing accumulation step adds the four
    numbers of a document to the four running totals. *)
Definition add_totals (a b : Totals) : Totals :=
  mkTotals (p_num a + p_num b) (p_den a + p_den b)
           (r_num a + r_num b) (r_den a + r_den b).

(** Modelled from the spec: the running totals of a missing [Evaluator]
    that has seen no document. *)
Definition zero_totals : Totals := mkTotals 0 0 0 0.

(** Modelled from the spec: the missing [Evaluator] holds the chosen metric
    and four running totals. *)
Record Evaluator (ClusterInfo : Type) : Type := mkEvaluator {
  metric : ClusterInfo -> Totals;
  totals : Totals
}.

(** Modelled from the spec: the missing constructor [Evaluator(metric)]. *)
Definition new {ClusterInfo : Type} (m : ClusterInfo -> Totals) : Evaluator ClusterInfo :=
  mkEvaluator m zero_totals.

(** Modelled from the spec: the missing [Evaluator.update] "accumulates four
    running totals". *)
Definition update {ClusterInfo : Type} (ev : Evaluator ClusterInfo)
  (cluster_info : ClusterInfo) : Evaluator ClusterInfo :=
  mkEvaluator (metric ev) (add_totals (totals ev) (metric ev cluster_info)).

(** Modelled from the spec: the guarded division of the missing getters,
    "return 0 if a denominator is 0, not a division error". *)
Definition ratio (num den : R) : R :=
  if Req_dec_T den 0 then 0 else num / den.

(** Modelled from the spec: the missing [get_precision], [get_recall] and
    [get_f1] "divide accumulated totals"; F1 is the harmonic mean of
    precision and recall. *)
Definition precision_of (t : Totals) : R := ratio (p_num t) (p_den t).
Definition recall_of (t : Totals) : R := ratio (r_num t) (r_den t).
Definition f1_of (t : Totals) : R :=
  ratio (2 * precision_of t * recall_of t) (precision_of t + recall_of t).

Definition get_precision {C : Type} (ev : Evaluator C) : R := precision_of (totals ev).
Definition get_recall {C : Type} (ev : Evaluator C) : R := recall_of (totals ev).
Definition get_f1 {C : Type} (ev : Evaluator C) : R := f1_of (totals ev).

End CorefScorer.

(** ** [CoreferenceResolver] *)

Module CoreferenceResolver.

Section Pipe.

(** The attributes [self.name] and [self.span_cluster_prefix]. *)
Variable name : string.
Variable span_cluster_prefix : string.

(** [doc[a:b]], from the missing [Doc] class. *)
Variable doc_slice : Doc -> Z -> Z -> Span.

(** The helpers of the missing [ml/models/coref_util.py]. *)
Variable GoldClusters SpanIdxs : Type.
Variable get_clusters_from_doc : Doc -> GoldClusters.
Variable create_head_span_idxs : nat -> SpanIdxs.
Variable create_gold_scores : SpanIdxs -> GoldClusters -> list (list bool).
Variable doc2clusters : Doc -> string -> MentionClusters.

(** [doc.spans[key].append(span)] *)
Definition append_span (key : string) (sp : Span) (doc : Doc) : Result Doc :=
  group <- lookup key (spans doc) ;;
  Ok (set_spans doc (setitem key (group ++ [sp]) (spans doc))).

Fixpoint append_mentions (key : string) (cluster : list Mention) (doc : Doc)
  : Doc * option exn :=
  match cluster with
  | [] => (doc, None)
  | mention :: rest =>
      match append_span key (doc_slice doc (fst mention) (snd mention)) doc with
      | Ok doc' => append_mentions key rest doc'
      | Raise e => (doc, Some e)
      end
  end.

(** The loop [for ii, cluster in enumerate(clusters)] of [set_annotations];
    the document is mutated in place, so the state reached when an
    exception is raised is part of the result. *)
Fixpoint annotate_clusters (ii : nat) (clusters : MentionClusters) (doc : Doc)
  : Doc * option exn :=
  match clusters with
  | [] => (doc, None)
  | cluster :: rest =>
      let key := cluster_key span_cluster_prefix ii in
      if contains key (spans doc) then (doc, Some ValueError)
      else
        let doc := set_spans doc (setitem key [] (spans doc)) in
        match append_mentions key cluster doc with
        | (doc, None) => annotate_clusters (S ii) rest doc
        | (doc, Some e) => (doc, Some e)
        end
  end.

(** The loop [for doc, clusters in zip(docs, clusters_by_doc)]. *)
Fixpoint annotate_docs (docs : list Doc) (clusters_by_doc : list MentionClusters)
  : list Doc * option exn :=
  match docs, clusters_by_doc with
  | doc :: docs', clusters :: rest =>
      match annotate_clusters 0 clusters doc with
      | (doc', None) =>
          let (docs'', e) := annotate_docs docs' rest in (doc' :: docs'', e)
      | (doc', Some e) => (doc' :: docs', Some e)
      end
  | _, _ => (docs, None)
  end.

(** [set_annotations]: the documents after the call and the exception that
    ended it, if any.  The documents of a batch are distinct objects. *)
Definition set_annotations (docs : list Doc) (clusters_by_doc : list MentionClusters)
  : list Doc * option exn :=
  if negb (Nat.eqb (length docs) (length clusters_by_doc))
  then (docs, Some ValueError)
  else annotate_docs docs clusters_by_doc.

(** Lines 305-307 of [get_loss]: [ops.asarray2f(gscores)] and then
    [xp.take_along_axis(gscores, mention_idx, axis=1)].  An array of [0.0]
    and [1.0] is kept as booleans.  The array that [asarray2f] makes from
    an empty list of rows (a document without tokens) is 1-d and has no
    axis 1: numpy's [AxisError], which is an [IndexError] (and a
    [ValueError]). *)
Definition gather_gold (gscores : list (list bool)) (mention_idx : list (list Z))
  : Result (list (list bool)) :=
  match gscores with
  | [] => Raise IndexError
  | _ :: _ => Np.take_along_axis gscores mention_idx
  end.

(** Lines 305-314 of [get_loss]: gather the gold scores of the candidate
    antecedents and put the placeholder column in front. *)
Definition gold_agreement (gscores : list (list bool)) (mention_idx : list (list Z))
  : Result (list (list bool)) :=
  top_gscores <- gather_gold gscores mention_idx ;;
  let gold_placeholder := map (fun row => negb (existsb (fun b => b) row)) top_gscores in
  let gold_placeholder := map (fun p => [p]) gold_placeholder in
  Np.zipM (fun p row => Ok (p ++ row)) gold_placeholder top_gscores.

(** Lines 316-322 of [get_loss]. *)
Definition marginal_loss (cscores : list (list R)) (top_gscores : list (list bool))
  : Result (R * list (list R)) :=
  x <- Np.elementwise Np.add_ext cscores (map (map Np.log01) top_gscores) ;;
  log_marg <- softmax x ;;
  log_norm <- softmax (map (map Np.Fin) cscores) ;;
  grad <- Np.elementwise Rminus log_norm log_marg ;;
  let loss := sum_squares grad in
  Ok (loss, grad).

Definition get_loss (examples : list Example) (score_matrix : list (list R))
  (mention_idx : list (list Z)) : Result (R * list (list R)) :=
  example <- Np.getitem examples 0 ;;
  let cscores := score_matrix in
  let clusters := get_clusters_from_doc (reference example) in
  let span_idxs := create_head_span_idxs (n_tokens (predicted example)) in
  let gscores := create_gold_scores span_idxs clusters in
  top_gscores <- gold_agreement gscores mention_idx ;;
  marginal_loss cscores top_gscores.

Section Training.

Variables Model Optimizer : Type.

Definition Preds : Type := (list (list R) * list (list Z))%type.

Variable ops : ModelOps Model Optimizer Preds Preds.

(** The loop [for eg in examples] of [update]. *)
Fixpoint update_loop (examples : list Example) (total_loss : R) (model : Model)
  : Result (R * Model) :=
  match examples with
  | [] => Ok (total_loss, model)
  | eg :: rest =>
      let '(preds, backprop) := model_begin_update ops model [predicted eg] in
      let '(score_matrix, mention_idx) := preds in
      '(loss, d_scores) <- get_loss [eg] score_matrix mention_idx ;;
      let total_loss := (total_loss + loss)%R in
      let model := backprop (d_scores, mention_idx) model in
      update_loop rest total_loss model
  end.

(** [update]; [validate_examples] accepts every list of [Example]. *)
Definition update (examples : list Example) (drop : R) (sgd : option Optimizer)
  (losses : option (dict R)) (model : Model) : Result (dict R * Model) :=
  let losses := match losses with None => [] | Some l => l end in
  let losses := setdefault name 0%R losses in
  if negb (any_tokens (map predicted examples)) then Ok (losses, model)
  else
    let model := set_dropout_rate ops model drop in
    '(total_loss, model) <- update_loop examples 0%R model ;;
    let model := match sgd with
                 | Some o => finish_update ops model o
                 | None => model
                 end in
    old <- lookup name losses ;;
    Ok (setitem name (old + total_loss)%R losses, model).

End Training.

Section Scoring.

Variable ClusterInfo : Type.
Variable get_cluster_info : MentionClusters -> MentionClusters -> ClusterInfo.
Variables b_cubed muc ceafe : ClusterInfo -> CorefScorer.Totals.

(** The body of [for metric in (b_cubed, muc, ceafe)]. *)
Definition score_metric (examples : list Example)
  (metric : ClusterInfo -> CorefScorer.Totals) : dict R :=
  let evaluator :=
    fold_left (fun evaluator ex =>
      let p_clusters := doc2clusters (predicted ex) span_cluster_prefix in
      let g_clusters := doc2clusters (reference ex) span_cluster_prefix in
      let cluster_info := get_cluster_info p_clusters g_clusters in
      CorefScorer.update evaluator cluster_info)
      examples (CorefScorer.new metric) in
  [ ("coref_f"%string, CorefScorer.get_f1 evaluator);
    ("coref_p"%string, CorefScorer.get_precision evaluator);
    ("coref_r"%string, CorefScorer.get_recall evaluator) ].

(** The loop [for field in ("f", "p", "r")]. *)
Fixpoint average_fields (fields : list string) (scores : list (dict R))
  (out : dict R) : Result (dict R) :=
  match fields with
  | [] => Ok out
  | field :: rest =>
      let fname := ("coref_" ++ field)%string in
      vals <- mapM (lookup fname) scores ;;
      m <- mean vals ;;
      average_fields rest scores (setitem fname m out)
  end.

Definition score (examples : list Example) : Result (dict R) :=
  let scores := map (score_metric examples) [b_cubed; muc; ceafe] in
  average_fields ["f"; "p"; "r"]%string scores [].

End Scoring.

Section Lifecycle.

Variables Model Optimizer : Type.
Variable ops : ModelOps Model Optimizer Preds Preds.

(** [get_predicted_clusters] of the missing [coref_util.py]; what it raises
    is not known here, so it returns a [Result]. *)
Variable get_predicted_clusters :
  list Z -> list Z -> list (list Z) -> list (list R) -> Result MentionClusters.

(** [xp.arange(0, n)] *)
Definition arange (n : nat) : list Z := map Z.of_nat (seq 0 n).

(** The body of [for doc in docs] of [predict]. *)
Definition predict_doc (model : Model) (doc : Doc) : Result MentionClusters :=
  let '(scores, idxs) := model_predict ops model [doc] in
  let ant_idxs := idxs in
  let starts := arange (n_tokens doc) in
  let ends := map (fun i => (i + 1)%Z) (arange (n_tokens doc)) in
  get_predicted_clusters starts ends ant_idxs scores.

Definition predict (model : Model) (docs : list Doc) : Result (list MentionClusters) :=
  mapM (predict_doc model) docs.

(** The attribute [self._rehearsal_model], [None] after [__init__]; the
    subtraction [scores - target] and the sum [(gradient**2).sum()] on the
    model output are operations of its array type. *)
Variable _rehearsal_model : option (list Example -> Preds).
Variable subtract : Preds -> Preds -> Result Preds.
Variable sum_of_squares : Preds -> Result R.

(** [any(len(doc) for doc in docs)] *)
Definition any_len (docs : list Doc) : bool :=
  existsb (fun doc => negb (Nat.eqb (n_tokens doc) 0)) docs.

(** [rehearse]; [losses] may stay [None]. *)
Definition rehearse (examples : list Example) (drop : R) (sgd : option Optimizer)
  (losses : option (dict R)) (model : Model)
  : Result (option (dict R) * Model) :=
  let losses := match losses with
                | Some l => Some (setdefault name 0%R l)
                | None => None
                end in
  match _rehearsal_model with
  | None => Ok (losses, model)
  | Some rehearsal_model =>
      let docs := map predicted examples in
      if negb (any_len docs) then Ok (losses, model)
      else
        let model := set_dropout_rate ops model drop in
        let '(scores, bp_scores) := model_begin_update ops model docs in
        let target := rehearsal_model examples in
        gradient <- subtract scores target ;;
        let model := bp_scores gradient model in
        let model := match sgd with
                     | Some o => finish_update ops model o
                     | None => model
                     end in
        match losses with
        | Some l =>
            old <- lookup name l ;;
            sq <- sum_of_squares gradient ;;
            Ok (Some (setitem name (old + sq)%R l), model)
        | None => Ok (None, model)
        end
  end.

End Lifecycle.

End Pipe.

End CoreferenceResolver.

(** ** [SpanPredictor] *)

Module SpanPredictor.

Section Pipe.

(** The attributes [self.name], [self.input_prefix], [self.output_prefix]. *)
Variable name : string.
Variable input_prefix : string.
Variable output_prefix : string.

Variable doc_slice : Doc -> Z -> Z -> Span.
Variable doc2clusters : Doc -> string -> MentionClusters.

Variables Model Optimizer : Type.

(** [span_scores]: mention x token x (start, end). *)
Definition Floats3d : Type := list (list (R * R)).

Variable ops : ModelOps Model Optimizer Floats3d Floats3d.

(** The loop [for mention in cluster] of [predict]. *)
Fixpoint resolve_cluster (starts ends : list nat) (cluster : list Mention)
  (cidx : nat) (ncluster : list Mention) : Result (list Mention * nat) :=
  match cluster with
  | [] => Ok (ncluster, cidx)
  | mention :: rest =>
      s <- Np.getitem starts (Z.of_nat cidx) ;;
      e <- Np.getitem ends (Z.of_nat cidx) ;;
      let ncluster := ncluster ++ [(Z.of_nat s, Z.of_nat e)] in
      let cidx := cidx + 1 in
      resolve_cluster starts ends rest cidx ncluster
  end.

(** The loop [for cluster in clusters] of [predict]. *)
Fixpoint resolve_clusters (starts ends : list nat) (clusters : MentionClusters)
  (cidx : nat) (out_clusters : MentionClusters) : Result MentionClusters :=
  match clusters with
  | [] => Ok out_clusters
  | cluster :: rest =>
      '(ncluster, cidx) <- resolve_cluster starts ends cluster cidx [] ;;
      resolve_clusters starts ends rest cidx (out_clusters ++ [ncluster])
  end.

(** The body of [for doc in docs] of [predict]. *)
Definition predict_doc (model : Model) (doc : Doc) : Result MentionClusters :=
  let span_scores := model_predict ops model [doc] in
  if negb (Nat.eqb (size3 span_scores) 0) then
    let start_scores := map (map fst) span_scores in
    let end_scores := map (map snd) span_scores in
    starts <- mapM Np.argmax start_scores ;;
    ends <- mapM Np.argmax end_scores ;;
    let clusters := doc2clusters doc input_prefix in
    resolve_clusters starts ends clusters 0 []
  else Ok [].

Definition predict (model : Model) (docs : list Doc) : Result (list MentionClusters) :=
  mapM (predict_doc model) docs.

(** The loop [for ii, cluster in enumerate(clusters)] of [set_annotations]. *)
Fixpoint annotate_clusters (ii : nat) (clusters : MentionClusters) (doc : Doc) : Doc :=
  match clusters with
  | [] => doc
  | cluster :: rest =>
      let spans_ := map (fun mm => doc_slice doc (fst mm) (snd mm)) cluster in
      let doc := set_spans doc (setitem (cluster_key output_prefix ii) spans_ (spans doc)) in
      annotate_clusters (S ii) rest doc
  end.

(** The loop [for doc, clusters in zip(docs, clusters_by_doc)]. *)
Fixpoint annotate_docs (docs : list Doc) (clusters_by_doc : list MentionClusters)
  : list Doc :=
  match docs, clusters_by_doc with
  | doc :: docs', clusters :: rest =>
      annotate_clusters 0 clusters doc :: annotate_docs docs' rest
  | _, _ => docs
  end.

(** [set_annotations]: the documents after the call and the exception that
    ended it, if any; no statement of the method raises. *)
Definition set_annotations (docs : list Doc) (clusters_by_doc : list MentionClusters)
  : list Doc * option exn :=
  (annotate_docs docs clusters_by_doc, None).

(** The gold boundaries gathered by the loop over
    [eg.reference.spans.items()] in [get_loss]. *)
Definition gold_boundaries (eg : Example) : list nat * list nat :=
  fold_left (fun acc item =>
    let '(key, sg) := item in
    if String.prefix output_prefix key then
      fold_left (fun acc' mention =>
        let '(starts, ends) := acc' in
        (starts ++ [start mention], ends ++ [end_ mention])) sg acc
    else acc) (items (spans (reference eg))) ([], []).

(** The body of [for eg in examples] of [get_loss]. *)
Definition loss_of_example (span_scores : Floats3d) (eg : Example)
  : Result (R * Floats3d) :=
  let '(starts, ends) := gold_boundaries eg in
  let start_scores := map (map fst) span_scores in
  let end_scores := map (map snd) span_scores in
  let n_classes := shape1 start_scores in
  start_probs <- softmax (map (map Np.Fin) start_scores) ;;
  end_probs <- softmax (map (map Np.Fin) end_scores) ;;
  start_targets <- Np.to_categorical starts n_classes ;;
  end_targets <- Np.to_categorical ends n_classes ;;
  start_grads <- Np.elementwise Rminus start_probs start_targets ;;
  end_grads <- Np.elementwise Rminus end_probs end_targets ;;
  grads <- stack2 start_grads end_grads ;;
  let loss := sum_squares3 grads in
  Ok (loss, grads).

Fixpoint loss_loop (span_scores : Floats3d) (examples : list Example)
  (last : option (R * Floats3d)) : Result (option (R * Floats3d)) :=
  match examples with
  | [] => Ok last
  | eg :: rest =>
      r <- loss_of_example span_scores eg ;;
      loss_loop span_scores rest (Some r)
  end.

Definition get_loss (examples : list Example) (span_scores : Floats3d)
  : Result (R * Floats3d) :=
  if negb (Nat.eqb (length examples) 1) then Raise AssertionError
  else
    last <- loss_loop span_scores examples None ;;
    match last with
    | Some (loss, grads) => Ok (loss, grads)
    | None => Raise UnboundLocalError
    end.

(** The loop [for eg in examples] of [update]. *)
Fixpoint update_loop (examples : list Example) (total_loss : R) (model : Model)
  : Result (R * Model) :=
  match examples with
  | [] => Ok (total_loss, model)
  | eg :: rest =>
      let '(span_scores, backprop) := model_begin_update ops model [reference eg] in
      '(loss, d_scores) <- get_loss [eg] span_scores ;;
      let total_loss := (total_loss + loss)%R in
      let model := backprop d_scores model in
      update_loop rest total_loss model
  end.

(** [update]; [validate_examples] accepts every list of [Example]. *)
Definition update (examples : list Example) (drop : R) (sgd : option Optimizer)
  (losses : option (dict R)) (model : Model) : Result (dict R * Model) :=
  let losses := match losses with None => [] | Some l => l end in
  let losses := setdefault name 0%R losses in
  if negb (any_tokens (map reference examples)) then Ok (losses, model)
  else
    let model := set_dropout_rate ops model drop in
    '(total_loss, model) <- update_loop examples 0%R model ;;
    let model := match sgd with
                 | Some o => finish_update ops model o
                 | None => model
                 end in
    old <- lookup name losses ;;
    Ok (setitem name (old + total_loss)%R losses, model).

(** The loop [for ex in islice(get_examples(), 2)] of [initialize]: the
    examples after the loop (a document without spans has been given the
    placeholder cluster), the lists [X] and [Y], and the exception that
    ended the loop, if any. *)
Fixpoint initialize_loop (examples : list Example) (X Y : list Doc)
  : list Example * (list Doc * list Doc) * option exn :=
  match examples with
  | [] => ([], (X, Y), None)
  | ex :: rest =>
      match spans (predicted ex) with
      | [] =>
          let doc := predicted ex in
          if negb (Nat.ltb 2 (n_tokens doc)) then (ex :: rest, (X, Y), Some AssertionError)
          else
            let doc := set_spans doc
                         (setitem (cluster_key input_prefix 0)
                            [doc_slice doc 0 1; doc_slice doc 1 2] (spans doc)) in
            let ex := mkExample doc (reference ex) in
            let '(rest', XY, e) :=
              initialize_loop rest (X ++ [predicted ex]) (Y ++ [reference ex]) in
            (ex :: rest', XY, e)
      | _ :: _ =>
          let '(rest', XY, e) :=
            initialize_loop rest (X ++ [predicted ex]) (Y ++ [reference ex]) in
          (ex :: rest', XY, e)
      end
  end.

(** [validate_get_examples] of the missing [training] package, and
    [self.model.initialize]. *)
Variable validate_get_examples : list Example -> Result unit.
Variable model_initialize : Model -> list Doc -> list Doc -> Model.

(** [initialize]: the examples that [get_examples()] yields, as the call
    leaves them, and the initialized model or the exception. *)
Definition initialize (get_examples : list Example) (model : Model)
  : list Example * Result Model :=
  match validate_get_examples get_examples with
  | Raise e => (get_examples, Raise e)
  | Ok _ =>
      let '(seen, (X, Y), e) := initialize_loop (firstn 2 get_examples) [] [] in
      let examples := seen ++ skipn 2 get_examples in
      match e with
      | Some e => (examples, Raise e)
      | None =>
          if Nat.ltb 0 (length X) then (examples, Ok (model_initialize model X Y))
          else (examples, Raise AssertionError)
      end
  end.

Section Scoring.

(** The evaluator and the metrics of the missing [coref_scorer.py]. *)
Variables ClusterInfo Metric Evaluator : Type.
Variable get_cluster_info : MentionClusters -> MentionClusters -> ClusterInfo.
Variables b_cubed muc ceafe : Metric.
Variable new_evaluator : Metric -> Evaluator.
Variable evaluator_update : Evaluator -> ClusterInfo -> Evaluator.
Variables get_f1 get_precision get_recall : Evaluator -> R.

(** The evaluator after the loop [for ex in examples]. *)
Definition evaluate (examples : list Example) (metric : Metric) : Evaluator :=
  fold_left (fun evaluator ex =>
    let p_clusters := doc2clusters (predicted ex) output_prefix in
    let g_clusters := doc2clusters (reference ex) output_prefix in
    let cluster_info := get_cluster_info p_clusters g_clusters in
    evaluator_update evaluator cluster_info)
    examples (new_evaluator metric).

(** The body of [for metric in (b_cubed, muc, ceafe)]. *)
Definition score_metric (examples : list Example) (metric : Metric) : dict R :=
  let evaluator := evaluate examples metric in
  [ ("coref_span_f"%string, get_f1 evaluator);
    ("coref_span_p"%string, get_precision evaluator);
    ("coref_span_r"%string, get_recall evaluator) ].

(** The loop [for field in ("f", "p", "r")]. *)
Fixpoint average_fields (fields : list string) (scores : list (dict R))
  (out : dict R) : Result (dict R) :=
  match fields with
  | [] => Ok out
  | field :: rest =>
      let fname := ("coref_span_" ++ field)%string in
      vals <- mapM (lookup fname) scores ;;
      m <- mean vals ;;
      average_fields rest scores (setitem fname m out)
  end.

Definition score (examples : list Example) : Result (dict R) :=
  let scores := map (score_metric examples) [b_cubed; muc; ceafe] in
  average_fields ["f"; "p"; "r"]%string scores [].

End Scoring.

End Pipe.

(** [default_score_weights] of the [span_predictor] factory. *)
Definition default_score_weights : dict (option R) :=
  [ ("span_predictor_f"%string, Some 1%R);
    ("span_predictor_p"%string, None);
    ("span_predictor_r"%string, None) ].

End SpanPredictor.

(** ** The quantities the specification names *)

Module Spec.

Open Scope R_scope.

Fixpoint zip_with {A B C : Type} (f : A -> B -> C) (l1 : list A) (l2 : list B)
  : list C :=
  match l1, l2 with
  | a :: t1, b :: t2 => f a b :: zip_with f t1 t2
  | _, _ => []
  end.

(** [softmax(S)] along one row, by the textbook formula. *)
Definition softmax_spec (s : list R) : list R :=
  map (fun v => exp v / Np.sum (map exp s)) s.

(** [softmax(S + log(G))] along one row: the distribution renormalized
    over the gold-true columns only, probability 0 elsewhere. *)
Definition masked_exp (s : list R) (g : list bool) : list R :=
  zip_with (fun v (b : bool) => if b then exp v else 0) s g.

Definition masked_softmax_spec (s : list R) (g : list bool) : list R :=
  map (fun e => e / Np.sum (masked_exp s g)) (masked_exp s g).

(** The gradient [softmax(S) - softmax(S + log(G))], row by row. *)
Definition gradient_spec (S : list (list R)) (G : list (list bool)) : list (list R) :=
  zip_with (fun s g => zip_with Rminus (softmax_spec s) (masked_softmax_spec s g)) S G.

(** A row of the gold agreement matrix: the placeholder column, true when
    no gathered value is true, in front of the gathered values. *)
Definition with_placeholder (gathered : list bool) : list bool :=
  negb (existsb (fun b => b) gathered) :: gathered.

(** Corpus-level totals: the per-document numbers summed over the corpus
    before any division. *)
Definition corpus_totals (per_doc : list CorefScorer.Totals) : CorefScorer.Totals :=
  CorefScorer.mkTotals
    (Np.sum (map CorefScorer.p_num per_doc)) (Np.sum (map CorefScorer.p_den per_doc))
    (Np.sum (map CorefScorer.r_num per_doc)) (Np.sum (map CorefScorer.r_den per_doc)).

(** The arithmetic mean across the three metrics. *)
Definition macro_average (a b c : R) : R := (a + b + c) / 3.

(** The spans the span predictor resolves, in mention order: mention [k]
    goes to [(starts[k], ends[k])]. *)
Definition resolved_spans (starts ends : list nat) : list Mention :=
  combine (map Z.of_nat starts) (map Z.of_nat ends).

(** The per-document inputs of the evaluator for a corpus of examples. *)
Definition cluster_infos {ClusterInfo : Type}
  (doc2clusters : Doc -> string -> MentionClusters)
  (get_cluster_info : MentionClusters -> MentionClusters -> ClusterInfo)
  (prefix : string) (examples : list Example) : list ClusterInfo :=
  map (fun ex => get_cluster_info (doc2clusters (predicted ex) prefix)
                                  (doc2clusters (reference ex) prefix)) examples.

(** The micro-averaged totals of one metric over a corpus. *)
Definition micro_totals {ClusterInfo : Type}
  (metric : ClusterInfo -> CorefScorer.Totals) (infos : list ClusterInfo)
  : CorefScorer.Totals :=
  corpus_totals (map metric infos).

(** The accumulator a caller hands to [update]: [None] stands for a fresh
    dictionary. *)
Definition given_losses (losses : option (dict R)) : dict R :=
  match losses with
  | None => []
  | Some l => l
  end.

(** A losses dictionary that differs from another at most in that the
    key is present, holding its prior value or zero. *)
Definition unchanged_but_key (key : string) (before after : dict R) : Prop :=
  get key after = Some (match get key before with Some v => v | None => 0 end)
  /\ (forall k, k <> key -> get k after = get k before)
  /\ (contains key before = true -> after = before).

(** Slicing a document looks at its tokens only, not at [doc.spans]. *)
Definition slice_ignores_spans (doc_slice : Doc -> Z -> Z -> Span) : Prop :=
  forall d d' a b, n_tokens d = n_tokens d' -> doc_slice d a b = doc_slice d' a b.

(** None of the keys [prefix_0], [prefix_1], ... that [clusters] needs is
    in the span map of the document. *)
Definition fresh (prefix : string) (doc : Doc) (clusters : MentionClusters) : Prop :=
  forall i, (i < length clusters)%nat ->
            contains (cluster_key prefix i) (spans doc) = false.

(** [doc'] is [doc] annotated with [clusters]: the tokens are the same,
    key [prefix_i] holds the slices of cluster [i], and every other key
    holds what it held. *)
Definition annotated (prefix : string) (doc_slice : Doc -> Z -> Z -> Span)
  (doc : Doc) (clusters : MentionClusters) (doc' : Doc) : Prop :=
  n_tokens doc' = n_tokens doc
  /\ (forall i cluster,
        nth_error clusters i = Some cluster ->
        get (cluster_key prefix i) (spans doc')
        = Some (map (fun m => doc_slice doc (fst m) (snd m)) cluster))
  /\ (forall k, (forall i, (i < length clusters)%nat -> k <> cluster_key prefix i) ->
                get k (spans doc') = get k (spans doc)).

(** An index that [a[i]] accepts for a sequence of length [n]. *)
Definition in_range (n : nat) (i : Z) : Prop :=
  (- Z.of_nat n <= i < Z.of_nat n)%Z.

(** The row that [take_along_axis] gathers: index [i] reads position
    [i mod n], so that a negative index counts from the end. *)
Definition gathered_row (row : list bool) (ix : list Z) : list bool :=
  map (fun i => nth (Z.to_nat (i mod Z.of_nat (length row))) row false) ix.

(** The gold agreement matrix for gold scores and candidate indices with
    as many rows each. *)
Definition gold_matrix_spec (gscores : list (list bool)) (mention_idx : list (list Z))
  : list (list bool) :=
  map with_placeholder (zip_with gathered_row gscores mention_idx).

(** The gradient of one boundary (start or end): per mention, the softmax
    of its scores over the token positions minus the one-hot vector of the
    gold position. *)
Definition boundary_gradient (scores : list (list R)) (gold : list nat)
  : list (list R) :=
  zip_with (fun row y => zip_with Rminus (softmax_spec row) (Np.one_hot (length row) y))
           scores gold.

(** The two boundary gradients stacked along the last axis. *)
Definition span_gradient_spec (span_scores : list (list (R * R)))
  (starts ends : list nat) : list (list (R * R)) :=
  zip_with (zip_with (fun x y => (x, y)))
    (boundary_gradient (map (map fst) span_scores) starts)
    (boundary_gradient (map (map snd) span_scores) ends).

(** What the loop of [SpanPredictor.initialize] does to an example: the
    reference is as it was; a predicted document with spans is as it was,
    one without has more than two tokens and gets the placeholder cluster. *)
Definition prepared (input_prefix : string) (doc_slice : Doc -> Z -> Z -> Span)
  (ex ex' : Example) : Prop :=
  reference ex' = reference ex
  /\ n_tokens (predicted ex') = n_tokens (predicted ex)
  /\ (spans (predicted ex) <> [] -> predicted ex' = predicted ex)
  /\ (spans (predicted ex) = [] ->
      (2 < n_tokens (predicted ex))%nat
      /\ spans (predicted ex')
         = [(cluster_key input_prefix 0,
             [doc_slice (predicted ex) 0%Z 1%Z; doc_slice (predicted ex) 1%Z 2%Z])]).

(** The sum of the squares of a sequence of numbers. *)
Definition sum_of_squares (entries : list R) : R :=
  fold_right (fun x acc => x ^ 2 + acc) 0 entries.

(** All entries of a 2-d array, and of a 3-d array whose last axis holds
    a pair. *)
Definition entries2 (m : list (list R)) : list R := concat m.

Definition entries3 (t : list (list (R * R))) : list R :=
  flat_map (fun row => flat_map (fun p => [fst p; snd p]) row) t.

(** Two arrays of one shape. *)
Definition same_shape {A B : Type} (x : list (list A)) (y : list (list B)) : Prop :=
  Forall2 (fun r1 r2 => length r1 = length r2) x y.

End Spec.

Import Spec.

(** ** Sample inputs *)

Module Samples.

Open Scope string_scope.

(** [doc[a:b]] with the usual clamping of slice bounds. *)
Definition doc_slice (doc : Doc) (a b : Z) : Span :=
  let n := Z.of_nat (n_tokens doc) in
  let a := if (a <? 0)%Z then (a + n)%Z else a in
  let a := Z.min n (Z.max 0 a) in
  let b := if (b <? 0)%Z then (b + n)%Z else b in
  let b := Z.min n (Z.max a b) in
  mkSpan (Z.to_nat a) (Z.to_nat b).

(** A document without tokens, and one of two tokens whose first token
    is annotated as cluster 0 under both prefixes. *)
Definition empty_doc : Doc := mkDoc 0 [].

Definition two_tokens : Doc :=
  mkDoc 2 [("coref_head_clusters_0", [mkSpan 0 1; mkSpan 1 2]);
           ("coref_clusters_0", [mkSpan 0 1])].

Definition plain_doc : Doc := mkDoc 2 [].

Definition empty_example : Example := mkExample empty_doc empty_doc.
Definition example : Example := mkExample two_tokens two_tokens.

(** Gold scores in which every mention corefers with every earlier one. *)
Definition one_cluster_gold (n : nat) (_ : unit) : list (list bool) :=
  map (fun i => map (fun j => Nat.ltb j i) (seq 0 n)) (seq 0 n).

Definition gold_clusters (_ : Doc) : unit := tt.
Definition head_span_idxs (n : nat) : nat := n.

(** Two mentions, one candidate antecedent each (mention 0). *)
Definition mention_idx : list (list Z) := [[0%Z]; [0%Z]].
Definition score_matrix : list (list R) := [[0%R; 0%R]; [0%R; 0%R]].
Definition gold_matrix : list (list bool) := [[true; false]; [false; true]].

(** Clusters read from [doc.spans] under a prefix: the keys [prefix_0],
    [prefix_1], ... in turn. *)
Fixpoint clusters_from (fuel ii : nat) (doc : Doc) (prefix : string) : MentionClusters :=
  match fuel with
  | O => []
  | S fuel' =>
      match get (cluster_key prefix ii) (spans doc) with
      | Some group =>
          map (fun sp => (Z.of_nat (start sp), Z.of_nat (end_ sp))) group
            :: clusters_from fuel' (S ii) doc prefix
      | None => []
      end
  end.

Definition doc2clusters (doc : Doc) (prefix : string) : MentionClusters :=
  clusters_from (length (spans doc)) 0 doc prefix.

(** A span model whose state counts the calls that changed it.  It scores
    the last token highest as a start and the first as an end. *)
Definition span_scores : list (list (R * R)) :=
  [[(0%R, 1%R); (1%R, 0%R)]; [(0%R, 1%R); (1%R, 0%R)]].

Definition span_ops : ModelOps nat unit (list (list (R * R))) (list (list (R * R))) :=
  mkModelOps
    (fun _ docs => match docs with
                   | [doc] => if Nat.eqb (n_tokens doc) 0 then [] else span_scores
                   | _ => []
                   end)
    (fun _ _ => (span_scores, fun _ m => S m))
    (fun m _ => S m)
    (fun m _ => S m).

Definition coref_ops : ModelOps nat unit (list (list R) * list (list Z))
                                         (list (list R) * list (list Z)) :=
  mkModelOps
    (fun _ _ => (score_matrix, mention_idx))
    (fun _ _ => ((score_matrix, mention_idx), fun _ m => S m))
    (fun m _ => S m)
    (fun m _ => S m).

(** A span model that returns an empty tensor for every document. *)
Definition silent_ops : ModelOps nat unit (list (list (R * R))) (list (list (R * R))) :=
  mkModelOps (fun _ _ => []) (fun _ _ => ([], fun _ m => S m))
             (fun m _ => S m) (fun m _ => S m).

(** A document of three tokens without spans. *)
Definition three_tokens : Doc := mkDoc 3 [].

(** A decoder that puts the first two tokens in one cluster. *)
Definition first_two_clusters (_ _ : list Z) (_ : list (list Z)) (_ : list (list R))
  : Result MentionClusters :=
  Ok [[(0%Z, 1%Z); (1%Z, 2%Z)]].

(** A validation that accepts every list, and a model initialization that
    counts as a change of the model. *)
Definition accept_examples (_ : list Example) : Result unit := Ok tt.
Definition count_initialize (m : nat) (_ _ : list Doc) : nat := S m.

(** A metric that counts one correct mention of one per document, over
    cluster information that records nothing. *)
Definition unit_info (_ _ : MentionClusters) : unit := tt.
Definition unit_metric (_ : unit) : CorefScorer.Totals :=
  CorefScorer.mkTotals 1 1 1 1.

End Samples.

(** * Properties *)

(** ** The result monad and the array operations *)

Lemma mapM_ok {A B : Type} (f : A -> Result B) (g : A -> B) (l : list A) :
  (forall x, In x l -> f x = Ok (g x)) -> mapM f l = Ok (map g l).
Proof.
  induction l as [|x t IH]; intros H; simpl.
  - reflexivity.
  - rewrite (H x (or_introl eq_refl)). simpl.
    rewrite IH by (intros y Hy; apply H; right; exact Hy).
    reflexivity.
Qed.

Lemma mapM_length {A B : Type} (f : A -> Result B) (l : list A) (r : list B) :
  mapM f l = Ok r -> length r = length l.
Proof.
  revert r. induction l as [|x t IH]; intros r H; simpl in H.
  - inversion H. reflexivity.
  - destruct (f x) as [y|e]; simpl in H; [|discriminate].
    destruct (mapM f t) as [ys|e]; simpl in H; [|discriminate].
    inversion H. simpl. f_equal. apply IH. reflexivity.
Qed.

Lemma zipM_ok {A B C : Type} (op : A -> B -> C) (l1 : list A) (l2 : list B) :
  length l1 = length l2 ->
  Np.zipM (fun a b => Ok (op a b)) l1 l2 = Ok (zip_with op l1 l2).
Proof.
  revert l2. induction l1 as [|a t IH]; intros [|b t2] H; simpl in *;
    try discriminate; try reflexivity.
  rewrite IH by lia. reflexivity.
Qed.

Lemma broadcast_same_length {A B C : Type} (f : A -> B -> Result C)
  (l1 : list A) (l2 : list B) :
  length l1 = length l2 -> Np.broadcast f l1 l2 = Np.zipM f l1 l2.
Proof.
  intros H. unfold Np.broadcast. rewrite H, Nat.eqb_refl. reflexivity.
Qed.

Lemma zip_with_length {A B C : Type} (f : A -> B -> C) (l1 : list A) (l2 : list B) :
  length l1 = length l2 -> length (zip_with f l1 l2) = length l1.
Proof.
  revert l2. induction l1 as [|a t IH]; intros [|b t2] H; simpl in *;
    try discriminate; try reflexivity.
  f_equal. apply IH. lia.
Qed.

Lemma same_shape_length {A B : Type} (x : list (list A)) (y : list (list B)) :
  same_shape x y -> length x = length y.
Proof. induction 1; simpl; congruence. Qed.

Lemma elementwise_same_shape {A B C : Type} (op : A -> B -> C)
  (m1 : list (list A)) (m2 : list (list B)) :
  same_shape m1 m2 ->
  Np.elementwise op m1 m2 = Ok (zip_with (zip_with op) m1 m2).
Proof.
  intros H. unfold Np.elementwise.
  rewrite broadcast_same_length by (apply same_shape_length; exact H).
  induction H as [|r1 r2 t1 t2 Hr Ht IH]; simpl.
  - reflexivity.
  - rewrite broadcast_same_length by exact Hr.
    rewrite zipM_ok by exact Hr. simpl. rewrite IH. reflexivity.
Qed.

(** ** Softmax *)

Lemma sum_map_div (z : R) (l : list R) :
  Np.sum (map (fun e => e / z) l) = (Np.sum l / z)%R.
Proof.
  induction l as [|x t IH]; simpl.
  - unfold Rdiv. ring.
  - fold (Np.sum (map (fun e => (e / z)%R) t)). fold (Np.sum t).
    rewrite IH. unfold Rdiv. ring.
Qed.

Lemma sum_zip_minus (a b : list R) :
  length a = length b ->
  Np.sum (zip_with Rminus a b) = (Np.sum a - Np.sum b)%R.
Proof.
  revert b. induction a as [|x t IH]; intros [|y t2] H; simpl in *;
    try discriminate.
  - ring.
  - fold (Np.sum (zip_with Rminus t t2)). fold (Np.sum t). fold (Np.sum t2).
    rewrite IH by lia. ring.
Qed.

Lemma exp_ext_nonneg (x : Np.ext) : (0 <= Np.exp_ext x)%R.
Proof.
  destruct x as [r|]; simpl.
  - left. apply exp_pos.
  - right. reflexivity.
Qed.

Lemma sum_exp_ext_nonneg (l : list Np.ext) : (0 <= Np.sum (map Np.exp_ext l))%R.
Proof.
  induction l as [|x t IH]; simpl.
  - right. reflexivity.
  - fold (Np.sum (map Np.exp_ext t)). pose proof (exp_ext_nonneg x). lra.
Qed.

Lemma sum_exp_ext_pos (l : list Np.ext) (m : R) :
  Np.max_ext l = Some m -> (0 < Np.sum (map Np.exp_ext l))%R.
Proof.
  revert m. induction l as [|x t IH]; intros m H; simpl in *.
  - discriminate.
  - fold (Np.sum (map Np.exp_ext t)).
    pose proof (sum_exp_ext_nonneg t) as Ht.
    destruct x as [r|]; simpl.
    + pose proof (exp_pos r). lra.
    + specialize (IH m H). lra.
Qed.

Lemma shift_exp_factor (m : R) (x : Np.ext) :
  Np.shift_exp m x = (Np.exp_ext x * exp (- m))%R.
Proof.
  destruct x as [r|]; simpl.
  - unfold Rminus. apply exp_plus.
  - ring.
Qed.

Lemma sum_shift_exp (m : R) (l : list Np.ext) :
  Np.sum (map (Np.shift_exp m) l) = (Np.sum (map Np.exp_ext l) * exp (- m))%R.
Proof.
  induction l as [|x t IH]; simpl.
  - ring.
  - fold (Np.sum (map (Np.shift_exp m) t)). fold (Np.sum (map Np.exp_ext t)).
    rewrite IH, shift_exp_factor. ring.
Qed.

(** The shifted softmax of thinc is the textbook one. *)
Lemma softmax_row_formula (l : list Np.ext) (m : R) :
  Np.max_ext l = Some m ->
  Np.softmax_row l
  = Ok (map (fun x => Np.exp_ext x / Np.sum (map Np.exp_ext l))%R l).
Proof.
  intros H. unfold Np.softmax_row.
  destruct l as [|x t]; [discriminate|].
  rewrite H. f_equal. rewrite map_map. apply map_ext. intros y.
  rewrite sum_shift_exp, shift_exp_factor.
  pose proof (sum_exp_ext_pos _ H) as Hpos.
  pose proof (exp_pos (- m)) as Hm.
  field. split; lra.
Qed.

Lemma max_ext_fin (s : list R) :
  s <> [] -> exists m, Np.max_ext (map Np.Fin s) = Some m.
Proof.
  destruct s as [|v t]; intros H; [contradiction|]. simpl.
  destruct (Np.max_ext (map Np.Fin t)); eexists; reflexivity.
Qed.

Lemma softmax_row_fin (s : list R) :
  s <> [] -> Np.softmax_row (map Np.Fin s) = Ok (softmax_spec s).
Proof.
  intros H. destruct (max_ext_fin H) as [m Hm].
  rewrite (softmax_row_formula _ Hm). unfold softmax_spec.
  rewrite !map_map. reflexivity.
Qed.

Lemma exp_ext_masked (s : list R) (g : list bool) :
  map Np.exp_ext (zip_with Np.add_ext s (map Np.log01 g)) = masked_exp s g.
Proof.
  unfold masked_exp. revert g.
  induction s as [|v t IH]; intros [|b t2]; simpl; try reflexivity.
  rewrite IH. f_equal. destruct b; simpl; [|reflexivity].
  rewrite Rplus_0_r. reflexivity.
Qed.

Lemma max_ext_masked (s : list R) (g : list bool) :
  length s = length g -> existsb (fun b => b) g = true ->
  exists m, Np.max_ext (zip_with Np.add_ext s (map Np.log01 g)) = Some m.
Proof.
  revert g. induction s as [|v t IH]; intros [|b t2] Hlen Hex; simpl in *;
    try discriminate.
  destruct b; simpl in *.
  - destruct (Np.max_ext (zip_with Np.add_ext t (map Np.log01 t2)));
      eexists; reflexivity.
  - apply IH; [lia | exact Hex].
Qed.

Lemma softmax_row_masked (s : list R) (g : list bool) :
  length s = length g -> existsb (fun b => b) g = true ->
  Np.softmax_row (zip_with Np.add_ext s (map Np.log01 g))
  = Ok (masked_softmax_spec s g).
Proof.
  intros Hlen Hex. destruct (max_ext_masked s g Hlen Hex) as [m Hm].
  rewrite (softmax_row_formula _ Hm). unfold masked_softmax_spec.
  rewrite <- exp_ext_masked, map_map. reflexivity.
Qed.

Lemma sum_softmax_spec (s : list R) : s <> [] -> Np.sum (softmax_spec s) = 1%R.
Proof.
  intros H. unfold softmax_spec.
  destruct (max_ext_fin H) as [m Hm].
  pose proof (sum_exp_ext_pos _ Hm) as Hpos. rewrite map_map in Hpos.
  change (0 < Np.sum (map exp s))%R in Hpos.
  rewrite <- (map_map exp (fun e => (e / Np.sum (map exp s))%R)).
  rewrite sum_map_div. field. lra.
Qed.

Lemma sum_masked_softmax_spec (s : list R) (g : list bool) :
  length s = length g -> existsb (fun b => b) g = true ->
  Np.sum (masked_softmax_spec s g) = 1%R.
Proof.
  intros Hlen Hex. unfold masked_softmax_spec.
  destruct (max_ext_masked s g Hlen Hex) as [m Hm].
  pose proof (sum_exp_ext_pos _ Hm) as Hpos. rewrite exp_ext_masked in Hpos.
  rewrite sum_map_div. field. lra.
Qed.

Lemma masked_softmax_length (s : list R) (g : list bool) :
  length s = length g -> length (masked_softmax_spec s g) = length s.
Proof.
  intros H. unfold masked_softmax_spec, masked_exp.
  rewrite length_map. apply zip_with_length. exact H.
Qed.

Lemma softmax_spec_length (s : list R) : length (softmax_spec s) = length s.
Proof. unfold softmax_spec. apply length_map. Qed.

Lemma true_row_nonempty (s : list R) (g : list bool) :
  length s = length g -> existsb (fun b => b) g = true -> s <> [].
Proof.
  intros Hlen Hex Hs. subst s. destruct g; simpl in *; discriminate.
Qed.

(** Every row of [softmax(S) - softmax(S + log(G))] sums to 0. *)
Lemma gradient_spec_row_sums (S : list (list R)) (G : list (list bool)) :
  same_shape S G -> Forall (fun g => existsb (fun b => b) g = true) G ->
  Forall (fun row => Np.sum row = 0%R) (gradient_spec S G).
Proof.
  intros Hshape. induction Hshape as [|s g S' G' Hlen _ IH]; intros HG; simpl.
  - constructor.
  - inversion HG as [|? ? Hg HG']; subst. constructor.
    + rewrite sum_zip_minus
        by (rewrite softmax_spec_length, masked_softmax_length; auto).
      rewrite sum_softmax_spec by (eapply true_row_nonempty; eauto).
      rewrite sum_masked_softmax_spec by assumption. ring.
    + apply IH. exact HG'.
Qed.

Lemma softmax_masked_rows (S : list (list R)) (G : list (list bool)) :
  same_shape S G -> Forall (fun g => existsb (fun b => b) g = true) G ->
  softmax (zip_with (zip_with Np.add_ext) S (map (map Np.log01) G))
  = Ok (zip_with masked_softmax_spec S G).
Proof.
  unfold softmax.
  intros Hshape. induction Hshape as [|s g S' G' Hlen _ IH]; intros HG; simpl.
  - reflexivity.
  - inversion HG as [|? ? Hg HG']; subst.
    rewrite softmax_row_masked by assumption. simpl.
    rewrite IH by exact HG'. reflexivity.
Qed.

Lemma softmax_fin_rows (S : list (list R)) :
  Forall (fun s => s <> []) S ->
  softmax (map (map Np.Fin) S) = Ok (map softmax_spec S).
Proof.
  unfold softmax. induction 1 as [|s S' Hs _ IH]; simpl.
  - reflexivity.
  - rewrite softmax_row_fin by exact Hs. simpl. rewrite IH. reflexivity.
Qed.

Lemma gradient_spec_zip (S : list (list R)) (G : list (list bool)) :
  zip_with (zip_with Rminus) (map softmax_spec S) (zip_with masked_softmax_spec S G)
  = gradient_spec S G.
Proof.
  unfold gradient_spec. revert G.
  induction S as [|s S' IH]; intros [|g G']; simpl; try reflexivity.
  rewrite IH. reflexivity.
Qed.

(** Lines 316-322 compute the gradient of the specification. *)
Lemma marginal_loss_spec (S : list (list R)) (G : list (list bool)) :
  same_shape S G -> Forall (fun g => existsb (fun b => b) g = true) G ->
  CoreferenceResolver.marginal_loss S G
  = Ok (sum_squares (gradient_spec S G), gradient_spec S G).
Proof.
  intros Hshape HG. unfold CoreferenceResolver.marginal_loss.
  assert (Hne : Forall (fun s : list R => s <> []) S).
  { clear - Hshape HG. induction Hshape as [|s g S' G' Hlen _ IH].
    - constructor.
    - inversion HG; subst. constructor.
      + eapply true_row_nonempty; eauto.
      + apply IH. assumption. }
  assert (Hshape' : same_shape S (map (map Np.log01) G)).
  { clear - Hshape. induction Hshape; simpl; constructor.
    - rewrite length_map. assumption.
    - assumption. }
  rewrite (elementwise_same_shape Np.add_ext Hshape'). simpl.
  rewrite softmax_masked_rows by assumption. simpl.
  rewrite softmax_fin_rows by assumption. simpl.
  rewrite elementwise_same_shape.
  - simpl. rewrite gradient_spec_zip. reflexivity.
  - clear - Hshape. induction Hshape as [|s g S' G' Hlen _ IH]; simpl.
    + constructor.
    + constructor; [|exact IH].
      rewrite softmax_spec_length, masked_softmax_length; auto.
Qed.

(** ** The gold agreement matrix *)

Lemma concat_placeholder (top : list (list bool)) :
  Np.zipM (fun p row => Ok (p ++ row))
    (map (fun p => [p]) (map (fun row => negb (existsb (fun b => b) row)) top)) top
  = Ok (map with_placeholder top).
Proof.
  induction top as [|row t IH]; simpl.
  - reflexivity.
  - rewrite IH. reflexivity.
Qed.

Lemma gold_agreement_rows (gscores : list (list bool)) (mention_idx : list (list Z))
  (G : list (list bool)) :
  CoreferenceResolver.gold_agreement gscores mention_idx = Ok G ->
  exists top, Np.take_along_axis gscores mention_idx = Ok top
              /\ G = map with_placeholder top.
Proof.
  unfold CoreferenceResolver.gold_agreement, CoreferenceResolver.gather_gold.
  intros H. destruct gscores as [|row rows]; [discriminate|].
  destruct (Np.take_along_axis (row :: rows) mention_idx) as [top|e]; simpl in H;
    [|discriminate].
  exists top. split; [reflexivity|].
  rewrite concat_placeholder in H. inversion H. reflexivity.
Qed.

Lemma with_placeholder_true (gathered : list bool) :
  existsb (fun b => b) (with_placeholder gathered) = true.
Proof.
  unfold with_placeholder. simpl.
  destruct (existsb (fun b => b) gathered); reflexivity.
Qed.

Lemma gold_agreement_true_rows (gscores : list (list bool)) (mention_idx : list (list Z))
  (G : list (list bool)) :
  CoreferenceResolver.gold_agreement gscores mention_idx = Ok G ->
  Forall (fun g => existsb (fun b => b) g = true) G.
Proof.
  intros H. destruct (gold_agreement_rows _ _ H) as [top [_ ->]].
  apply Forall_forall. intros g Hin. apply in_map_iff in Hin.
  destruct Hin as [row [<- _]]. apply with_placeholder_true.
Qed.

(** ** Sums of squares *)

Lemma sum_nonneg (l : list R) : Forall (fun x => 0 <= x)%R l -> (0 <= Np.sum l)%R.
Proof.
  induction 1 as [|x t Hx _ IH]; simpl.
  - lra.
  - fold (Np.sum t). lra.
Qed.

Lemma sqr_nonneg (x : R) : (0 <= Np.sqr x)%R.
Proof. unfold Np.sqr. nra. Qed.

Lemma sum2_nonneg (m : list (list R)) :
  Forall (Forall (fun x => 0 <= x)%R) m -> (0 <= Np.sum2 m)%R.
Proof.
  intros H. unfold Np.sum2. apply sum_nonneg.
  apply Forall_forall. intros x Hin. apply in_map_iff in Hin.
  destruct Hin as [row [<- Hrow]]. apply sum_nonneg.
  rewrite Forall_forall in H. apply H. exact Hrow.
Qed.

Lemma sum_squares_nonneg (grad : list (list R)) : (0 <= sum_squares grad)%R.
Proof.
  unfold sum_squares. apply sum2_nonneg.
  apply Forall_forall. intros row Hin. apply in_map_iff in Hin.
  destruct Hin as [r [<- _]].
  apply Forall_forall. intros x Hx. apply in_map_iff in Hx.
  destruct Hx as [y [<- _]]. apply sqr_nonneg.
Qed.

Lemma sum_squares3_nonneg (grads : list (list (R * R))) : (0 <= sum_squares3 grads)%R.
Proof.
  unfold sum_squares3. apply sum2_nonneg.
  apply Forall_forall. intros row Hin. apply in_map_iff in Hin.
  destruct Hin as [r [<- _]].
  apply Forall_forall. intros x Hx. apply in_map_iff in Hx.
  destruct Hx as [y [<- _]].
  pose proof (sqr_nonneg (fst y)). pose proof (sqr_nonneg (snd y)). lra.
Qed.

(** ** [CoreferenceResolver.get_loss] *)

Lemma getitem_head {A : Type} (a : A) (t : list A) : Np.getitem (a :: t) 0 = Ok a.
Proof.
  unfold Np.getitem.
  change (0 <? 0)%Z with false. cbv beta iota zeta.
  replace (0 <? Z.of_nat (length (a :: t)))%Z with true.
  - reflexivity.
  - symmetry. apply Z.ltb_lt. simpl length. lia.
Qed.

Section CoreferenceLoss.

Variables GoldClusters SpanIdxs : Type.
Variable get_clusters_from_doc : Doc -> GoldClusters.
Variable create_head_span_idxs : nat -> SpanIdxs.
Variable create_gold_scores : SpanIdxs -> GoldClusters -> list (list bool).

Local Abbreviation get_loss :=
  (CoreferenceResolver.get_loss get_clusters_from_doc create_head_span_idxs
     create_gold_scores).

(** The gold scores [get_loss] builds for an example. *)
Local Abbreviation gscores eg :=
  (create_gold_scores (create_head_span_idxs (n_tokens (predicted eg)))
     (get_clusters_from_doc (reference eg))).

(** Only the first example is read. *)
Lemma get_loss_first (eg : Example) (rest : list Example)
  (S : list (list R)) (idx : list (list Z)) :
  get_loss (eg :: rest) S idx
  = (top_gscores <- CoreferenceResolver.gold_agreement (gscores eg) idx ;;
     CoreferenceResolver.marginal_loss S top_gscores).
Proof.
  unfold CoreferenceResolver.get_loss. rewrite getitem_head.
  reflexivity.
Qed.

Lemma get_loss_ignores_rest (eg : Example) (rest : list Example)
  (S : list (list R)) (idx : list (list Z)) :
  get_loss (eg :: rest) S idx = get_loss [eg] S idx.
Proof. rewrite !get_loss_first. reflexivity. Qed.

Lemma get_loss_spec (eg : Example) (rest : list Example)
  (S : list (list R)) (idx : list (list Z)) (G : list (list bool)) :
  CoreferenceResolver.gold_agreement (gscores eg) idx = Ok G ->
  same_shape S G ->
  get_loss (eg :: rest) S idx
  = Ok (sum_squares (gradient_spec S G), gradient_spec S G).
Proof.
  intros HG Hshape. rewrite get_loss_first, HG. simpl.
  apply marginal_loss_spec; [exact Hshape|].
  eapply gold_agreement_true_rows; eauto.
Qed.

Lemma marginal_loss_is_sum_squares (S : list (list R)) (G : list (list bool))
  (loss : R) (grad : list (list R)) :
  CoreferenceResolver.marginal_loss S G = Ok (loss, grad) ->
  loss = sum_squares grad.
Proof.
  unfold CoreferenceResolver.marginal_loss. intros H.
  destruct (Np.elementwise Np.add_ext S (map (map Np.log01) G)) as [x|];
    simpl in H; [|discriminate].
  destruct (softmax x) as [log_marg|]; simpl in H; [|discriminate].
  destruct (softmax (map (map Np.Fin) S)) as [log_norm|]; simpl in H;
    [|discriminate].
  destruct (Np.elementwise Rminus log_norm log_marg) as [g|]; simpl in H;
    [|discriminate].
  inversion H. reflexivity.
Qed.

Lemma get_loss_is_sum_squares (examples : list Example)
  (S : list (list R)) (idx : list (list Z)) (loss : R) (grad : list (list R)) :
  get_loss examples S idx = Ok (loss, grad) -> loss = sum_squares grad.
Proof.
  unfold CoreferenceResolver.get_loss. intros H.
  destruct (Np.getitem examples 0) as [eg|]; simpl in H; [|discriminate].
  match type of H with
  | bind ?c _ = _ => destruct c as [top|]; simpl in H; [|discriminate]
  end.
  eapply marginal_loss_is_sum_squares; eauto.
Qed.

(** C1.  When the score matrix [S] has the shape of the gold agreement
    matrix [G] that [get_loss] builds (every row of which has a true
    entry), [CoreferenceResolver.get_loss] returns the gradient
    [softmax(S) - softmax(S + log(G))] computed row by row, and every row
    of that gradient sums to 0. *)
Theorem get_loss_gradient (eg : Example) (rest : list Example)
  (S : list (list R)) (idx : list (list Z)) (G : list (list bool)) :
  CoreferenceResolver.gold_agreement (gscores eg) idx = Ok G ->
  same_shape S G ->
  Forall (fun g => existsb (fun b => b) g = true) G
  /\ get_loss (eg :: rest) S idx
     = Ok (sum_squares (gradient_spec S G), gradient_spec S G)
  /\ Forall (fun row => Np.sum row = 0%R) (gradient_spec S G).
Proof.
  intros HG Hshape.
  pose proof (gold_agreement_true_rows _ _ HG) as Htrue.
  split; [exact Htrue|]. split.
  - apply get_loss_spec; eassumption.
  - apply gradient_spec_row_sums; assumption.
Qed.

(** C2.  In the gold agreement matrix, column 0 of a row is true exactly
    when none of the gathered candidate-antecedent entries of that row is
    true, so every row has at least one true entry. *)
Theorem gold_placeholder_column (gs : list (list bool)) (idx : list (list Z))
  (G : list (list bool)) :
  CoreferenceResolver.gold_agreement gs idx = Ok G ->
  exists top,
    Np.take_along_axis gs idx = Ok top
    /\ Forall2 (fun row gathered =>
                  exists p, row = p :: gathered
                            /\ (p = true <-> forall b, In b gathered -> b = false))
               G top
    /\ Forall (fun row => In true row) G.
Proof.
  intros H. destruct (gold_agreement_rows _ _ H) as [top [Htop ->]].
  exists top. split; [exact Htop|]. split.
  - clear. induction top as [|gathered t IH]; simpl; constructor; [|exact IH].
    exists (negb (existsb (fun b => b) gathered)). split; [reflexivity|].
    rewrite negb_true_iff. split.
    + intros Hex b Hb. destruct b; [|reflexivity].
      assert (existsb (fun b => b) gathered = true) as Ht
        by (apply existsb_exists; exists true; auto).
      congruence.
    + intros Hall. destruct (existsb (fun b => b) gathered) eqn:E; [|reflexivity].
      apply existsb_exists in E. destruct E as [b [Hb Hbt]]. subst b.
      specialize (Hall true Hb). discriminate.
  - apply Forall_forall. intros row Hin. apply in_map_iff in Hin.
    destruct Hin as [gathered [<- _]].
    pose proof (with_placeholder_true gathered) as E.
    apply existsb_exists in E. destruct E as [b [Hb Hbt]]. subst b. exact Hb.
Qed.

End CoreferenceLoss.

(** On the sample: two mentions, the second coreferent with the first. *)
Example sample_gradient :
  gradient_spec Samples.score_matrix Samples.gold_matrix
  = [[(- / 2)%R; (/ 2)%R]; [(/ 2)%R; (- / 2)%R]].
Proof.
  unfold gradient_spec, softmax_spec, masked_softmax_spec, masked_exp. simpl.
  rewrite exp_0. repeat f_equal; field.
Qed.

Example sample_loss :
  sum_squares (gradient_spec Samples.score_matrix Samples.gold_matrix) = 1%R.
Proof.
  rewrite sample_gradient. unfold sum_squares, Np.sum2, Np.sqr. simpl. field.
Qed.

Lemma get_loss_gradient_witness :
  Forall (fun g => existsb (fun b => b) g = true) Samples.gold_matrix
  /\ CoreferenceResolver.get_loss Samples.gold_clusters Samples.head_span_idxs
       Samples.one_cluster_gold [Samples.example]
       Samples.score_matrix Samples.mention_idx
     = Ok (sum_squares (gradient_spec Samples.score_matrix Samples.gold_matrix),
           gradient_spec Samples.score_matrix Samples.gold_matrix)
  /\ Forall (fun row => Np.sum row = 0%R)
            (gradient_spec Samples.score_matrix Samples.gold_matrix).
Proof.
  apply (@get_loss_gradient unit nat Samples.gold_clusters Samples.head_span_idxs
           Samples.one_cluster_gold Samples.example []
           Samples.score_matrix Samples.mention_idx Samples.gold_matrix).
  - reflexivity.
  - repeat constructor.
Defined.

Lemma gold_placeholder_column_witness :
  exists top,
    Np.take_along_axis (Samples.one_cluster_gold 2 tt) Samples.mention_idx = Ok top
    /\ Forall2 (fun row gathered =>
                  exists p, row = p :: gathered
                            /\ (p = true <-> forall b, In b gathered -> b = false))
               Samples.gold_matrix top
    /\ Forall (fun row => In true row) Samples.gold_matrix.
Proof.
  apply (@gold_placeholder_column (Samples.one_cluster_gold 2 tt)
           Samples.mention_idx Samples.gold_matrix).
  reflexivity.
Defined.

(** ** [SpanPredictor.get_loss] *)

Lemma loss_of_example_sum_squares (output_prefix : string)
  (span_scores : SpanPredictor.Floats3d) (eg : Example)
  (loss : R) (grads : SpanPredictor.Floats3d) :
  SpanPredictor.loss_of_example output_prefix span_scores eg = Ok (loss, grads) ->
  loss = sum_squares3 grads.
Proof.
  unfold SpanPredictor.loss_of_example. intros H.
  destruct (SpanPredictor.gold_boundaries output_prefix eg) as [starts ends].
  repeat match type of H with
         | bind ?c _ = _ => destruct c; simpl in H; [|discriminate]
         end.
  inversion H. reflexivity.
Qed.

Lemma loss_loop_sum_squares (output_prefix : string)
  (span_scores : SpanPredictor.Floats3d) (examples : list Example)
  (last : option (R * SpanPredictor.Floats3d))
  (loss : R) (grads : SpanPredictor.Floats3d) :
  (forall l g, last = Some (l, g) -> l = sum_squares3 g) ->
  SpanPredictor.loss_loop output_prefix span_scores examples last
  = Ok (Some (loss, grads)) ->
  loss = sum_squares3 grads.
Proof.
  revert last. induction examples as [|eg rest IH]; intros last Hlast H; simpl in H.
  - inversion H. apply Hlast. assumption.
  - destruct (SpanPredictor.loss_of_example output_prefix span_scores eg)
      as [[l g]|] eqn:E; simpl in H; [|discriminate].
    apply (IH (Some (l, g))); [|exact H].
    intros l' g' Heq. inversion Heq; subst.
    eapply loss_of_example_sum_squares; eauto.
Qed.

Lemma span_get_loss_sum_squares (output_prefix : string) (examples : list Example)
  (span_scores : SpanPredictor.Floats3d) (loss : R) (grads : SpanPredictor.Floats3d) :
  SpanPredictor.get_loss output_prefix examples span_scores = Ok (loss, grads) ->
  loss = sum_squares3 grads.
Proof.
  unfold SpanPredictor.get_loss. intros H.
  destruct (negb (Nat.eqb (length examples) 1)); [discriminate|].
  destruct (SpanPredictor.loss_loop output_prefix span_scores examples None)
    as [[[l g]|]|] eqn:E; simpl in H; try discriminate.
  inversion H; subst.
  eapply loss_loop_sum_squares; [|exact E]. intros ? ? Hn. discriminate.
Qed.

(** More than one example fails the assertion. *)
Lemma span_get_loss_asserts (output_prefix : string) (examples : list Example)
  (span_scores : SpanPredictor.Floats3d) :
  length examples <> 1%nat ->
  SpanPredictor.get_loss output_prefix examples span_scores = Raise AssertionError.
Proof.
  intros H. unfold SpanPredictor.get_loss.
  apply Nat.eqb_neq in H. rewrite H. reflexivity.
Qed.

Lemma sample_span_get_loss :
  exists loss grads,
    SpanPredictor.get_loss "coref_clusters" [Samples.example] Samples.span_scores
    = Ok (loss, grads).
Proof.
  unfold SpanPredictor.get_loss. cbn. eexists. eexists. reflexivity.
Qed.

Lemma sample_coref_get_loss (rest : list Example) :
  CoreferenceResolver.get_loss Samples.gold_clusters Samples.head_span_idxs
    Samples.one_cluster_gold (Samples.example :: rest)
    Samples.score_matrix Samples.mention_idx
  = Ok (sum_squares (gradient_spec Samples.score_matrix Samples.gold_matrix),
        gradient_spec Samples.score_matrix Samples.gold_matrix).
Proof.
  apply get_loss_spec; [reflexivity | repeat constructor].
Qed.

Lemma sum_of_squares_app (a b : list R) :
  sum_of_squares (a ++ b) = (sum_of_squares a + sum_of_squares b)%R.
Proof.
  unfold sum_of_squares. induction a as [|x t IH]; cbn [fold_right app].
  - ring.
  - rewrite IH. ring.
Qed.

(** [(grad ** 2).sum()] is the sum of the squares of the entries. *)
Lemma sum_squares_entries (grad : list (list R)) :
  sum_squares grad = sum_of_squares (entries2 grad).
Proof.
  unfold sum_squares, Np.sum2, entries2.
  induction grad as [|row rows IH]; simpl.
  - reflexivity.
  - fold (Np.sum (map Np.sum (map (map Np.sqr) rows))).
    rewrite IH, sum_of_squares_app. f_equal.
    clear. induction row as [|x t IH]; simpl.
    + reflexivity.
    + fold (Np.sum (map Np.sqr t)). rewrite IH. unfold Np.sqr. ring.
Qed.

Lemma sum_squares3_entries (grads : list (list (R * R))) :
  sum_squares3 grads = sum_of_squares (entries3 grads).
Proof.
  unfold sum_squares3, Np.sum2, entries3.
  induction grads as [|row rows IH]; simpl.
  - reflexivity.
  - fold (Np.sum (map Np.sum
                    (map (map (fun p => (Np.sqr (fst p) + Np.sqr (snd p))%R)) rows))).
    rewrite IH, sum_of_squares_app. f_equal.
    clear. induction row as [|p t IH]; simpl.
    + reflexivity.
    + fold (Np.sum (map (fun p => (Np.sqr (fst p) + Np.sqr (snd p))%R) t)).
      rewrite IH. unfold Np.sqr. ring.
Qed.

Lemma sum_of_squares_nonneg (entries : list R) : (0 <= sum_of_squares entries)%R.
Proof.
  unfold sum_of_squares. induction entries as [|x t IH]; cbn [fold_right].
  - lra.
  - pose proof (pow2_ge_0 x). lra.
Qed.

(** The sample inputs with their values: equal scores give probability
    one half to each of the two columns. *)
Lemma sample_coref_get_loss_value :
  CoreferenceResolver.get_loss Samples.gold_clusters Samples.head_span_idxs
    Samples.one_cluster_gold [Samples.example]
    Samples.score_matrix Samples.mention_idx
  = Ok (1%R, [[(- / 2)%R; (/ 2)%R]; [(/ 2)%R; (- / 2)%R]]).
Proof.
  rewrite sample_coref_get_loss, sample_gradient.
  do 2 f_equal. unfold sum_squares, Np.sum2, Np.sqr. simpl. field.
Qed.

(** C8.  The scalar loss that [get_loss] returns, in [CoreferenceResolver]
    and in [SpanPredictor], is the sum of the squares of all entries of
    the gradient it returns, and is at least 0. *)
Theorem loss_is_sum_of_squared_gradient :
  (forall (GoldClusters SpanIdxs : Type)
          (get_clusters_from_doc : Doc -> GoldClusters)
          (create_head_span_idxs : nat -> SpanIdxs)
          (create_gold_scores : SpanIdxs -> GoldClusters -> list (list bool))
          (examples : list Example) (score_matrix : list (list R))
          (mention_idx : list (list Z)) (loss : R) (grad : list (list R)),
      CoreferenceResolver.get_loss get_clusters_from_doc create_head_span_idxs
        create_gold_scores examples score_matrix mention_idx = Ok (loss, grad) ->
      loss = sum_of_squares (entries2 grad) /\ (0 <= loss)%R)
  /\ (forall (output_prefix : string) (examples : list Example)
             (span_scores : SpanPredictor.Floats3d)
             (loss : R) (grads : SpanPredictor.Floats3d),
         SpanPredictor.get_loss output_prefix examples span_scores = Ok (loss, grads) ->
         loss = sum_of_squares (entries3 grads) /\ (0 <= loss)%R).
Proof.
  split.
  - intros ? ? ? ? ? examples S idx loss grad H.
    apply get_loss_is_sum_squares in H. subst loss.
    rewrite sum_squares_entries.
    split; [reflexivity | apply sum_of_squares_nonneg].
  - intros prefix examples scores loss grads H.
    apply span_get_loss_sum_squares in H. subst loss.
    rewrite sum_squares3_entries.
    split; [reflexivity | apply sum_of_squares_nonneg].
Qed.

(** C4.  [SpanPredictor.get_loss] fails its assertion on any list that is
    not of one example; [CoreferenceResolver.get_loss] reads [examples[0]]
    and returns for two examples what it returns for the first alone. *)
Theorem get_loss_more_than_one_example :
  SpanPredictor.get_loss "coref_clusters" [Samples.example; Samples.empty_example]
    Samples.span_scores = Raise AssertionError
  /\ CoreferenceResolver.get_loss Samples.gold_clusters Samples.head_span_idxs
       Samples.one_cluster_gold [Samples.example; Samples.empty_example]
       Samples.score_matrix Samples.mention_idx
     = CoreferenceResolver.get_loss Samples.gold_clusters Samples.head_span_idxs
         Samples.one_cluster_gold [Samples.example]
         Samples.score_matrix Samples.mention_idx
  /\ CoreferenceResolver.get_loss Samples.gold_clusters Samples.head_span_idxs
       Samples.one_cluster_gold [Samples.example; Samples.empty_example]
       Samples.score_matrix Samples.mention_idx
     = Ok (sum_squares (gradient_spec Samples.score_matrix Samples.gold_matrix),
           gradient_spec Samples.score_matrix Samples.gold_matrix).
Proof.
  split; [reflexivity|]. split.
  - rewrite !sample_coref_get_loss. reflexivity.
  - apply sample_coref_get_loss.
Qed.

(** ** No computation of [get_loss] leaves the reals

    [Raise NotANumber] marks a float result that would be NaN.  Neither
    [get_loss] ever ends there: the placeholder column keeps a finite
    entry in every row that [softmax] sees. *)

Lemma mapM_raise {A B : Type} (f : A -> Result B) (l : list A) (e : exn) :
  mapM f l = Raise e -> exists x, In x l /\ f x = Raise e.
Proof.
  induction l as [|a t IH]; simpl; intros H; [discriminate|].
  destruct (f a) as [b|e'] eqn:Ea; simpl in H.
  - destruct (mapM f t) as [bs|e'']; simpl in H; [discriminate|].
    inversion H; subst. destruct (IH eq_refl) as [x [Hin Hx]].
    exists x. auto.
  - inversion H; subst. exists a. auto.
Qed.

Lemma mapM_in {A B : Type} (f : A -> Result B) (l : list A) (r : list B) :
  mapM f l = Ok r ->
  (forall x, In x l -> exists y, f x = Ok y /\ In y r)
  /\ (forall y, In y r -> exists x, In x l /\ f x = Ok y).
Proof.
  revert r. induction l as [|a t IH]; simpl; intros r H.
  - inversion H; subst. split; intros ? [].
  - destruct (f a) as [b|] eqn:Ea; simpl in H; [|discriminate].
    destruct (mapM f t) as [bs|]; simpl in H; [|discriminate].
    inversion H; subst. destruct (IH bs eq_refl) as [IH1 IH2]. split.
    + intros x [<-|Hx].
      * exists b. simpl. auto.
      * destruct (IH1 x Hx) as [y [Hy Hin]]. exists y. simpl. auto.
    + intros y [<-|Hy].
      * exists a. auto.
      * destruct (IH2 y Hy) as [x [Hin Hx]]. exists x. auto.
Qed.

Lemma zipM_in {A B C : Type} (f : A -> B -> Result C)
  (l1 : list A) (l2 : list B) (r : list C) :
  Np.zipM f l1 l2 = Ok r ->
  (forall b, In b l2 -> exists a c, f a b = Ok c /\ In c r)
  /\ (forall c, In c r -> exists a b, In a l1 /\ In b l2 /\ f a b = Ok c).
Proof.
  revert l2 r. induction l1 as [|a t IH]; intros [|b t2] r H; simpl in H;
    try discriminate.
  - inversion H; subst. split; intros ? [].
  - destruct (f a b) as [c|] eqn:Ec; simpl in H; [|discriminate].
    destruct (Np.zipM f t t2) as [cs|] eqn:Ez; simpl in H; [|discriminate].
    inversion H; subst. destruct (IH t2 cs Ez) as [IH1 IH2]. split.
    + intros b' [<-|Hb].
      * exists a, c. simpl. auto.
      * destruct (IH1 b' Hb) as [a' [c' [Hf Hin]]]. exists a', c'. simpl. auto.
    + intros c' [<-|Hc].
      * exists a, b. simpl. auto.
      * destruct (IH2 c' Hc) as [a' [b' [Ha [Hb Hf]]]]. exists a', b'. simpl. auto.
Qed.

Lemma zipM_raise {A B C : Type} (f : A -> B -> Result C)
  (l1 : list A) (l2 : list B) (e : exn) :
  Np.zipM f l1 l2 = Raise e -> e = ValueError \/ exists a b, f a b = Raise e.
Proof.
  revert l2. induction l1 as [|a t IH]; intros [|b t2] H; simpl in H;
    try discriminate; try (inversion H; auto; fail).
  destruct (f a b) as [c|e'] eqn:Ec; simpl in H.
  - destruct (Np.zipM f t t2) as [cs|e''] eqn:Ez; simpl in H; [discriminate|].
    inversion H; subst. apply (IH t2). exact Ez.
  - inversion H; subst. right. exists a, b. exact Ec.
Qed.

Lemma broadcast_raise {A B C : Type} (f : A -> B -> Result C)
  (l1 : list A) (l2 : list B) (e : exn) :
  Np.broadcast f l1 l2 = Raise e -> e = ValueError \/ exists a b, f a b = Raise e.
Proof.
  unfold Np.broadcast. destruct (Nat.eqb (length l1) (length l2)).
  - apply zipM_raise.
  - destruct l1 as [|a [|a' t]].
    + destruct l2 as [|b [|b' t2]]; intros H; simpl in H; try discriminate;
        inversion H; auto.
    + intros H. apply mapM_raise in H. destruct H as [b [_ Hb]].
      right. exists a, b. exact Hb.
    + destruct l2 as [|b [|b' t2]]; intros H; try (inversion H; auto; fail).
      apply mapM_raise in H. destruct H as [x [_ Hx]].
      right. exists x, b. exact Hx.
Qed.

Lemma broadcast_in {A B C : Type} (f : A -> B -> Result C)
  (l1 : list A) (l2 : list B) (r : list C) :
  Np.broadcast f l1 l2 = Ok r ->
  (r <> [] -> forall b, In b l2 -> exists a c, f a b = Ok c /\ In c r)
  /\ (forall c, In c r -> exists a b, In a l1 /\ In b l2 /\ f a b = Ok c).
Proof.
  unfold Np.broadcast. destruct (Nat.eqb (length l1) (length l2)).
  - intros H. destruct (zipM_in _ _ _ H) as [H1 H2]. split; auto.
  - destruct l1 as [|a [|a' t]].
    + destruct l2 as [|b [|b' t2]]; intros H; simpl in H; try discriminate.
      inversion H; subst. split; [intros Hne; contradiction | intros ? []].
    + intros H. destruct (mapM_in _ _ H) as [H1 H2]. split.
      * intros _ b Hb. destruct (H1 b Hb) as [c [Hc Hin]]. exists a, c. auto.
      * intros c Hc. destruct (H2 c Hc) as [b [Hb Hf]].
        exists a, b. simpl. auto.
    + destruct l2 as [|b [|b' t2]]; intros H; try discriminate.
      destruct (mapM_in _ _ H) as [H1 H2]. split.
      * intros Hne b0 [<-|[]]. destruct r as [|c r']; [contradiction|].
        destruct (H2 c (or_introl eq_refl)) as [x [_ Hx]].
        exists x, c. simpl. auto.
      * intros c Hc. destruct (H2 c Hc) as [x [Hin Hx]].
        exists x, b. simpl. auto.
Qed.

Lemma elementwise_raise {A B C : Type} (op : A -> B -> C)
  (m1 : list (list A)) (m2 : list (list B)) (e : exn) :
  Np.elementwise op m1 m2 = Raise e -> e = ValueError.
Proof.
  unfold Np.elementwise. intros H.
  apply broadcast_raise in H. destruct H as [H|[r1 [r2 H]]]; [exact H|].
  apply broadcast_raise in H. destruct H as [H|[a [b H]]]; [exact H|].
  discriminate.
Qed.

Lemma max_ext_none (l : list Np.ext) :
  Np.max_ext l = None -> forall x, In x l -> x = Np.NegInf.
Proof.
  induction l as [|y t IH]; simpl; intros H x Hx; [contradiction|].
  destruct y as [r|].
  - destruct (Np.max_ext t); discriminate.
  - destruct Hx as [<-|Hx]; [reflexivity | apply IH; assumption].
Qed.

Lemma softmax_row_nan (l : list Np.ext) :
  Np.softmax_row l = Raise NotANumber ->
  l <> [] /\ forall x, In x l -> x = Np.NegInf.
Proof.
  unfold Np.softmax_row. destruct l as [|y t]; [discriminate|].
  destruct (Np.max_ext (y :: t)) eqn:E; [discriminate|].
  intros _. split; [discriminate | apply max_ext_none; exact E].
Qed.

Lemma softmax_fin_never_nan (S : list (list R)) :
  softmax (map (map Np.Fin) S) <> Raise NotANumber.
Proof.
  intros H. apply mapM_raise in H. destruct H as [row [Hin Hrow]].
  apply in_map_iff in Hin. destruct Hin as [s [<- _]].
  apply softmax_row_nan in Hrow. destruct Hrow as [Hne Hall].
  destruct s as [|v t]; [contradiction|].
  specialize (Hall (Np.Fin v) (or_introl eq_refl)). discriminate.
Qed.

Lemma marginal_loss_never_nan (S : list (list R)) (G : list (list bool)) :
  Forall (fun g => existsb (fun b => b) g = true) G ->
  CoreferenceResolver.marginal_loss S G <> Raise NotANumber.
Proof.
  intros HG H. unfold CoreferenceResolver.marginal_loss in H.
  destruct (Np.elementwise Np.add_ext S (map (map Np.log01) G)) as [x|e] eqn:Ex;
    simpl in H.
  2: { inversion H; subst. apply elementwise_raise in Ex. discriminate. }
  destruct (softmax x) as [log_marg|e] eqn:Em; simpl in H.
  2: { inversion H; subst. apply mapM_raise in Em.
       destruct Em as [row [Hin Hrow]].
       apply softmax_row_nan in Hrow. destruct Hrow as [Hne Hall].
       unfold Np.elementwise in Ex.
       destruct (broadcast_in _ _ _ Ex) as [_ Hrows].
       destruct (Hrows row Hin) as [s [g' [_ [Hg' Hb]]]].
       apply in_map_iff in Hg'. destruct Hg' as [g [<- Hg]].
       rewrite Forall_forall in HG. specialize (HG g Hg).
       apply existsb_exists in HG. destruct HG as [b [Hb1 Hb2]]. subst b.
       destruct (broadcast_in _ _ _ Hb) as [Hright _].
       destruct (Hright Hne (Np.log01 true)) as [a [c [Hc Hcin]]].
       { apply in_map. exact Hb1. }
       inversion Hc; subst. specialize (Hall _ Hcin). discriminate. }
  destruct (softmax (map (map Np.Fin) S)) as [log_norm|e] eqn:En; simpl in H.
  2: { inversion H; subst. exact (softmax_fin_never_nan _ En). }
  destruct (Np.elementwise Rminus log_norm log_marg) as [g|e] eqn:Eg; simpl in H.
  - discriminate.
  - inversion H; subst. apply elementwise_raise in Eg. discriminate.
Qed.

Lemma getitem_raise {A : Type} (l : list A) (i : Z) (e : exn) :
  Np.getitem l i = Raise e -> e = IndexError.
Proof.
  unfold Np.getitem. intros H.
  destruct (_ && _)%bool; [|inversion H; reflexivity].
  destruct (nth_error l _); [discriminate | inversion H; reflexivity].
Qed.

Lemma gold_agreement_raise (gs : list (list bool)) (idx : list (list Z)) (e : exn) :
  CoreferenceResolver.gold_agreement gs idx = Raise e ->
  e = ValueError \/ e = IndexError.
Proof.
  unfold CoreferenceResolver.gold_agreement, CoreferenceResolver.gather_gold.
  intros H. destruct gs as [|row rows]; [inversion H; auto|].
  destruct (Np.take_along_axis (row :: rows) idx) as [top|e'] eqn:Et; simpl in H.
  - rewrite concat_placeholder in H. discriminate.
  - inversion H; subst. unfold Np.take_along_axis in Et.
    destruct (Np.broadcast _ (row :: rows) idx); [discriminate|].
    inversion Et. auto.
Qed.

Lemma coref_get_loss_never_nan (GoldClusters SpanIdxs : Type)
  (get_clusters_from_doc : Doc -> GoldClusters)
  (create_head_span_idxs : nat -> SpanIdxs)
  (create_gold_scores : SpanIdxs -> GoldClusters -> list (list bool))
  (examples : list Example) (S : list (list R)) (idx : list (list Z)) :
  CoreferenceResolver.get_loss get_clusters_from_doc create_head_span_idxs
    create_gold_scores examples S idx <> Raise NotANumber.
Proof.
  unfold CoreferenceResolver.get_loss. intros H.
  destruct (Np.getitem examples 0) as [eg|e] eqn:Eg; simpl in H.
  2: { inversion H; subst. apply getitem_raise in Eg. discriminate. }
  match type of H with
  | bind ?c _ = _ => destruct c as [G|e] eqn:EG; simpl in H
  end.
  - apply (marginal_loss_never_nan S (G := G)); [|exact H].
    eapply gold_agreement_true_rows; eauto.
  - inversion H; subst. apply gold_agreement_raise in EG.
    destruct EG; discriminate.
Qed.

Lemma to_categorical_never_nan (Y : list nat) (n_classes : nat) :
  Np.to_categorical Y n_classes <> Raise NotANumber.
Proof.
  unfold Np.to_categorical. destruct Y as [|y t]; [discriminate|].
  destruct (Nat.eqb n_classes 0); [discriminate|].
  intros H. apply mapM_raise in H. destruct H as [x [_ Hx]].
  destruct (Nat.ltb x n_classes); discriminate.
Qed.

Lemma stack2_raise (a b : list (list R)) (e : exn) :
  stack2 a b = Raise e -> e = ValueError.
Proof.
  unfold stack2. intros H.
  apply zipM_raise in H. destruct H as [H|[r1 [r2 H]]]; [exact H|].
  apply zipM_raise in H. destruct H as [H|[x [y H]]]; [exact H|].
  discriminate.
Qed.

Lemma loss_of_example_never_nan (output_prefix : string)
  (span_scores : SpanPredictor.Floats3d) (eg : Example) :
  SpanPredictor.loss_of_example output_prefix span_scores eg <> Raise NotANumber.
Proof.
  unfold SpanPredictor.loss_of_example. intros H.
  destruct (SpanPredictor.gold_boundaries output_prefix eg) as [starts ends].
  destruct (softmax (map (map Np.Fin) (map (map fst) span_scores)))
    as [start_probs|e] eqn:E1; simpl in H.
  2: { inversion H; subst. exact (softmax_fin_never_nan _ E1). }
  destruct (softmax (map (map Np.Fin) (map (map snd) span_scores)))
    as [end_probs|e] eqn:E2; simpl in H.
  2: { inversion H; subst. exact (softmax_fin_never_nan _ E2). }
  destruct (Np.to_categorical starts _) as [start_targets|e] eqn:E3; simpl in H.
  2: { inversion H; subst. exact (to_categorical_never_nan _ _ E3). }
  destruct (Np.to_categorical ends _) as [end_targets|e] eqn:E4; simpl in H.
  2: { inversion H; subst. exact (to_categorical_never_nan _ _ E4). }
  destruct (Np.elementwise Rminus start_probs start_targets) as [sg|e] eqn:E5;
    simpl in H.
  2: { inversion H; subst. apply elementwise_raise in E5. discriminate. }
  destruct (Np.elementwise Rminus end_probs end_targets) as [eg'|e] eqn:E6;
    simpl in H.
  2: { inversion H; subst. apply elementwise_raise in E6. discriminate. }
  destruct (stack2 sg eg') as [grads|e] eqn:E7; simpl in H.
  - discriminate.
  - inversion H; subst. apply stack2_raise in E7. discriminate.
Qed.

Lemma span_get_loss_never_nan (output_prefix : string) (examples : list Example)
  (span_scores : SpanPredictor.Floats3d) :
  SpanPredictor.get_loss output_prefix examples span_scores <> Raise NotANumber.
Proof.
  unfold SpanPredictor.get_loss.
  destruct (negb (Nat.eqb (length examples) 1)); [discriminate|].
  assert (Hloop : forall last,
             SpanPredictor.loss_loop output_prefix span_scores examples last
             <> Raise NotANumber).
  { induction examples as [|eg rest IH]; intros last H; simpl in H.
    - discriminate.
    - destruct (SpanPredictor.loss_of_example output_prefix span_scores eg)
        as [r|e] eqn:E; simpl in H.
      + exact (IH _ H).
      + inversion H; subst. exact (loss_of_example_never_nan _ _ _ E). }
  intros H.
  destruct (SpanPredictor.loss_loop output_prefix span_scores examples None)
    as [[[l g]|]|e] eqn:E; simpl in H; try discriminate.
  inversion H; subst. exact (Hloop None E).
Qed.

(** ** [SpanPredictor.predict] *)

Lemma getitem_nat {A : Type} (l : list A) (i : nat) (a : A) :
  Np.getitem l (Z.of_nat i) = Ok a <-> nth_error l i = Some a.
Proof.
  unfold Np.getitem.
  replace (Z.of_nat i <? 0)%Z with false by (symmetry; apply Z.ltb_ge; lia).
  cbv zeta. replace (0 <=? Z.of_nat i)%Z with true by (symmetry; apply Z.leb_le; lia).
  rewrite Nat2Z.id. simpl andb.
  destruct (Z.of_nat i <? Z.of_nat (length l))%Z eqn:E.
  - destruct (nth_error l i) as [x|]; split; intros H; inversion H; reflexivity.
  - apply Z.ltb_ge in E. split; intros H; [discriminate|].
    assert (nth_error l i <> None) as Hn by congruence.
    apply nth_error_Some in Hn. lia.
Qed.

Lemma skipn_nth_error {A : Type} (l : list A) (i : nat) (a : A) :
  nth_error l i = Some a -> skipn i l = a :: skipn (S i) l.
Proof.
  revert l. induction i as [|i IH]; intros [|x t] H; simpl in *; try discriminate.
  - inversion H. reflexivity.
  - apply IH. exact H.
Qed.

Lemma firstn_plus {A : Type} (n m : nat) (l : list A) :
  firstn (n + m) l = firstn n l ++ firstn m (skipn n l).
Proof.
  revert l. induction n as [|n IH]; intros [|x t]; simpl; try reflexivity.
  - rewrite firstn_nil. reflexivity.
  - rewrite IH. reflexivity.
Qed.

Lemma nth_error_resolved (starts ends : list nat) (i s e : nat) :
  nth_error starts i = Some s -> nth_error ends i = Some e ->
  nth_error (resolved_spans starts ends) i = Some (Z.of_nat s, Z.of_nat e).
Proof.
  unfold resolved_spans. revert starts ends.
  induction i as [|i IH]; intros [|a t] [|b t2] Hs He; simpl in *;
    try discriminate.
  - inversion Hs. inversion He. reflexivity.
  - apply IH; assumption.
Qed.

Lemma resolve_cluster_spec (starts ends : list nat) (cluster : list Mention)
  (cidx : nat) (acc ncluster : list Mention) (cidx' : nat) :
  SpanPredictor.resolve_cluster starts ends cluster cidx acc = Ok (ncluster, cidx') ->
  cidx' = (cidx + length cluster)%nat
  /\ ncluster = acc ++ firstn (length cluster) (skipn cidx (resolved_spans starts ends))
  /\ length (firstn (length cluster) (skipn cidx (resolved_spans starts ends)))
     = length cluster.
Proof.
  revert cidx acc. induction cluster as [|mention rest IH]; intros cidx acc H;
    simpl in H.
  - inversion H; subst. simpl. rewrite app_nil_r.
    repeat split; try reflexivity; lia.
  - destruct (Np.getitem starts (Z.of_nat cidx)) as [s|] eqn:Es; simpl in H;
      [|discriminate].
    destruct (Np.getitem ends (Z.of_nat cidx)) as [e|] eqn:Ee; simpl in H;
      [|discriminate].
    apply getitem_nat in Es. apply getitem_nat in Ee.
    pose proof (nth_error_resolved _ _ _ Es Ee) as Hn.
    apply IH in H. destruct H as [-> [-> Hlen]].
    rewrite Nat.add_1_r in *. cbn [length].
    rewrite (skipn_nth_error _ _ Hn), firstn_cons, <- app_assoc.
    cbn [app length]. rewrite Hlen.
    repeat split; try reflexivity; lia.
Qed.

Lemma resolve_clusters_spec (starts ends : list nat) (clusters : MentionClusters)
  (cidx : nat) (acc out : MentionClusters) :
  SpanPredictor.resolve_clusters starts ends clusters cidx acc = Ok out ->
  exists chunks,
    out = acc ++ chunks
    /\ Forall2 (fun o c => length o = length c) chunks clusters
    /\ concat chunks
       = firstn (length (concat clusters)) (skipn cidx (resolved_spans starts ends)).
Proof.
  revert cidx acc. induction clusters as [|cluster rest IH]; intros cidx acc H;
    simpl in H.
  - inversion H; subst. exists []. rewrite app_nil_r. simpl.
    repeat split; constructor.
  - destruct (SpanPredictor.resolve_cluster starts ends cluster cidx [])
      as [[ncluster cidx']|] eqn:E; simpl in H; [|discriminate].
    apply resolve_cluster_spec in E. destruct E as [-> [-> Hlen]].
    apply IH in H. destruct H as [chunks [-> [Hshape Hcat]]].
    simpl app in *.
    exists (firstn (length cluster) (skipn cidx (resolved_spans starts ends)) :: chunks).
    rewrite <- app_assoc. cbn [app concat]. rewrite length_app.
    repeat split.
    + constructor; [exact Hlen | exact Hshape].
    + rewrite Hcat, firstn_plus, skipn_skipn.
      rewrite (Nat.add_comm (length cluster) cidx). reflexivity.
Qed.

(** [argmax] returns the first index that holds the maximum of the row. *)
Lemma argmax_from_spec (l pre : list R) (besti : nat) (best : R) :
  nth_error pre besti = Some best ->
  (forall x, In x pre -> (x <= best)%R) ->
  (forall j x, (j < besti)%nat -> nth_error pre j = Some x -> (x < best)%R) ->
  exists v,
    nth_error (pre ++ l) (Np.argmax_from besti best (length pre) l) = Some v
    /\ (forall x, In x (pre ++ l) -> (x <= v)%R)
    /\ (forall j x, (j < Np.argmax_from besti best (length pre) l)%nat ->
                    nth_error (pre ++ l) j = Some x -> (x < v)%R).
Proof.
  revert pre besti best. induction l as [|x t IH]; intros pre besti best Hb Hmax Hfirst.
  - simpl. rewrite app_nil_r. exists best. auto.
  - simpl.
    assert (Hlt : (besti < length pre)%nat)
      by (apply nth_error_Some; congruence).
    replace (pre ++ x :: t) with ((pre ++ [x]) ++ t)
      by (rewrite <- app_assoc; reflexivity).
    replace (S (length pre)) with (length (pre ++ [x]))
      by (rewrite length_app; simpl; lia).
    destruct (Rlt_dec best x) as [Hbx|Hbx]; apply IH.
    + rewrite nth_error_app2 by lia. rewrite Nat.sub_diag. reflexivity.
    + intros y Hy. apply in_app_or in Hy. destruct Hy as [Hy|[<-|[]]].
      * specialize (Hmax y Hy). lra.
      * lra.
    + intros j y Hj Hy. rewrite nth_error_app1 in Hy by exact Hj.
      assert (In y pre) as Hin by (eapply nth_error_In; eauto).
      specialize (Hmax y Hin). lra.
    + rewrite nth_error_app1 by exact Hlt. exact Hb.
    + intros y Hy. apply in_app_or in Hy. destruct Hy as [Hy|[<-|[]]].
      * apply Hmax. exact Hy.
      * lra.
    + intros j y Hj Hy. rewrite nth_error_app1 in Hy by lia.
      eapply Hfirst; eauto.
Qed.

Lemma argmax_spec (l : list R) (i : nat) :
  Np.argmax l = Ok i ->
  exists v,
    nth_error l i = Some v
    /\ (forall x, In x l -> (x <= v)%R)
    /\ (forall j x, (j < i)%nat -> nth_error l j = Some x -> (x < v)%R).
Proof.
  destruct l as [|x t]; simpl; intros H; [discriminate|].
  inversion H; subst. clear H.
  apply (@argmax_from_spec t [x] 0%nat x).
  - reflexivity.
  - intros y [<-|[]]. lra.
  - intros j y Hj. lia.
Qed.

Ltac decide_reals :=
  repeat match goal with
         | |- context [Rlt_dec ?a ?b] => destruct (Rlt_dec a b); try lra
         end.

(** The sample model puts the start after the end, and [predict] returns
    the span as it is. *)
Example sample_predict_doc :
  SpanPredictor.predict_doc "coref_head_clusters" Samples.doc2clusters
    Samples.span_ops 0%nat Samples.two_tokens
  = Ok [[(1%Z, 0%Z); (1%Z, 0%Z)]].
Proof.
  unfold SpanPredictor.predict_doc. cbn. decide_reals. reflexivity.
Qed.

Section SpanPredict.

Variable input_prefix : string.
Variable doc2clusters : Doc -> string -> MentionClusters.
Variables Model Optimizer : Type.
Variable ops : ModelOps Model Optimizer SpanPredictor.Floats3d SpanPredictor.Floats3d.

Local Abbreviation predict_doc :=
  (SpanPredictor.predict_doc input_prefix doc2clusters ops).

Lemma predict_doc_nonempty (model : Model) (doc : Doc) (out : MentionClusters) :
  size3 (model_predict ops model [doc]) <> 0%nat ->
  predict_doc model doc = Ok out ->
  exists starts ends,
    mapM Np.argmax (map (map fst) (model_predict ops model [doc])) = Ok starts
    /\ mapM Np.argmax (map (map snd) (model_predict ops model [doc])) = Ok ends
    /\ SpanPredictor.resolve_clusters starts ends (doc2clusters doc input_prefix)
         0 [] = Ok out.
Proof.
  intros Hsize H. unfold SpanPredictor.predict_doc in H.
  apply Nat.eqb_neq in Hsize. rewrite Hsize in H. simpl negb in H. cbv iota in H.
  destruct (mapM Np.argmax (map (map fst) (model_predict ops model [doc])))
    as [starts|]; simpl in H; [|discriminate].
  destruct (mapM Np.argmax (map (map snd) (model_predict ops model [doc])))
    as [ends|]; simpl in H; [|discriminate].
  exists starts, ends. auto.
Qed.

Lemma predict_doc_empty (model : Model) (doc : Doc) :
  size3 (model_predict ops model [doc]) = 0%nat ->
  predict_doc model doc = Ok [].
Proof.
  intros Hsize. unfold SpanPredictor.predict_doc. rewrite Hsize. reflexivity.
Qed.

End SpanPredict.

Lemma mapM_nth_error {A B : Type} (f : A -> Result B) (l : list A) (r : list B)
  (i : nat) (x : A) :
  mapM f l = Ok r -> nth_error l i = Some x ->
  exists y, f x = Ok y /\ nth_error r i = Some y.
Proof.
  revert r i. induction l as [|a t IH]; intros r i H Hi.
  - destruct i; discriminate.
  - simpl in H. destruct (f a) as [b|] eqn:Ea; simpl in H; [|discriminate].
    destruct (mapM f t) as [bs|] eqn:Et; simpl in H; [|discriminate].
    inversion H; subst. destruct i as [|i]; simpl in *.
    + inversion Hi; subst. exists b. auto.
    + eapply IH; eauto.
Qed.

(** C6.  The spans that [SpanPredictor.predict] returns for a document
    are, in mention order, the pairs (argmax of the start-score row,
    argmax of the end-score row); the two argmaxes are taken separately
    and the pairs are returned as they are, whatever the order of start
    and end.  (A document with an empty score tensor has no spans.) *)
Theorem predict_spans_are_argmax (input_prefix : string)
  (doc2clusters : Doc -> string -> MentionClusters) (Model Optimizer : Type)
  (ops : ModelOps Model Optimizer SpanPredictor.Floats3d SpanPredictor.Floats3d)
  (model : Model) (doc : Doc) (out : MentionClusters) :
  SpanPredictor.predict_doc input_prefix doc2clusters ops model doc = Ok out ->
  (size3 (model_predict ops model [doc]) = 0%nat /\ out = [])
  \/ exists starts ends,
       mapM Np.argmax (map (map fst) (model_predict ops model [doc])) = Ok starts
       /\ mapM Np.argmax (map (map snd) (model_predict ops model [doc])) = Ok ends
       /\ concat out
          = firstn (length (concat (doc2clusters doc input_prefix)))
                   (resolved_spans starts ends).
Proof.
  intros H.
  destruct (Nat.eq_dec (size3 (model_predict ops model [doc])) 0) as [Hsize|Hsize].
  - left. split; [exact Hsize|].
    rewrite (predict_doc_empty input_prefix doc2clusters ops model doc Hsize) in H.
    inversion H. reflexivity.
  - right.
    destruct (predict_doc_nonempty _ _ _ _ _ Hsize H) as [starts [ends [Hs [He Hr]]]].
    exists starts, ends. repeat split; try assumption.
    apply resolve_clusters_spec in Hr. destruct Hr as [chunks [-> [_ Hcat]]].
    simpl. exact Hcat.
Qed.

Lemma predict_spans_are_argmax_witness :
  (size3 Samples.span_scores = 0%nat /\ [[(1%Z, 0%Z); (1%Z, 0%Z)]] = [])
  \/ exists starts ends,
       mapM Np.argmax (map (map fst) Samples.span_scores) = Ok starts
       /\ mapM Np.argmax (map (map snd) Samples.span_scores) = Ok ends
       /\ concat [[(1%Z, 0%Z); (1%Z, 0%Z)]]
          = firstn (length (concat (Samples.doc2clusters Samples.two_tokens
                                      "coref_head_clusters")))
                   (resolved_spans starts ends).
Proof.
  apply (@predict_spans_are_argmax "coref_head_clusters"%string Samples.doc2clusters
           nat unit Samples.span_ops 0%nat Samples.two_tokens
           [[(1%Z, 0%Z); (1%Z, 0%Z)]]).
  unfold SpanPredictor.predict_doc. cbn. decide_reals. reflexivity.
Defined.

(** C9.  For a document with a non-empty score tensor, the partition that
    [SpanPredictor.predict] returns has as many clusters as the partition
    read under the input prefix, and its i-th cluster has as many mentions
    as the i-th input cluster; read in order, its mentions are the spans
    resolved from rows 0, 1, 2, ... of the model output, one row per input
    mention in the order of the input mentions. *)
Theorem predict_preserves_cluster_shape (input_prefix : string)
  (doc2clusters : Doc -> string -> MentionClusters) (Model Optimizer : Type)
  (ops : ModelOps Model Optimizer SpanPredictor.Floats3d SpanPredictor.Floats3d)
  (model : Model) (doc : Doc) (out : MentionClusters) :
  size3 (model_predict ops model [doc]) <> 0%nat ->
  SpanPredictor.predict_doc input_prefix doc2clusters ops model doc = Ok out ->
  length out = length (doc2clusters doc input_prefix)
  /\ Forall2 (fun o c => length o = length c) out (doc2clusters doc input_prefix)
  /\ exists starts ends,
       mapM Np.argmax (map (map fst) (model_predict ops model [doc])) = Ok starts
       /\ mapM Np.argmax (map (map snd) (model_predict ops model [doc])) = Ok ends
       /\ concat out
          = firstn (length (concat (doc2clusters doc input_prefix)))
                   (resolved_spans starts ends).
Proof.
  intros Hsize H.
  destruct (predict_doc_nonempty _ _ _ _ _ Hsize H) as [starts [ends [Hs [He Hr]]]].
  apply resolve_clusters_spec in Hr. destruct Hr as [chunks [-> [Hshape Hcat]]].
  simpl. split; [|split; [exact Hshape|]].
  - clear - Hshape. induction Hshape; simpl; congruence.
  - exists starts, ends. split; [exact Hs|]. split; [exact He | exact Hcat].
Qed.

Lemma predict_preserves_cluster_shape_witness :
  length [[(1%Z, 0%Z); (1%Z, 0%Z)]]
  = length (Samples.doc2clusters Samples.two_tokens "coref_head_clusters")
  /\ Forall2 (fun o c : list Mention => length o = length c)
       [[(1%Z, 0%Z); (1%Z, 0%Z)]]
       (Samples.doc2clusters Samples.two_tokens "coref_head_clusters")
  /\ exists starts ends,
       mapM Np.argmax (map (map fst) Samples.span_scores) = Ok starts
       /\ mapM Np.argmax (map (map snd) Samples.span_scores) = Ok ends
       /\ concat [[(1%Z, 0%Z); (1%Z, 0%Z)]]
          = firstn (length (concat (Samples.doc2clusters Samples.two_tokens
                                      "coref_head_clusters")))
                   (resolved_spans starts ends).
Proof.
  apply (@predict_preserves_cluster_shape "coref_head_clusters"%string
           Samples.doc2clusters nat unit Samples.span_ops 0%nat Samples.two_tokens).
  - simpl. discriminate.
  - unfold SpanPredictor.predict_doc. cbn. decide_reals. reflexivity.
Defined.

(** C10.  For a document whose score tensor is empty, [SpanPredictor.predict]
    gives the empty partition, whatever clusters the document carries under
    the input prefix: the document's own step does not raise, and in every
    batch result the document's entry is the empty partition. *)
Theorem predict_empty_scores (input_prefix : string)
  (doc2clusters : Doc -> string -> MentionClusters) (Model Optimizer : Type)
  (ops : ModelOps Model Optimizer SpanPredictor.Floats3d SpanPredictor.Floats3d)
  (model : Model) (doc : Doc) :
  size3 (model_predict ops model [doc]) = 0%nat ->
  SpanPredictor.predict_doc input_prefix doc2clusters ops model doc = Ok []
  /\ SpanPredictor.predict input_prefix doc2clusters ops model [doc] = Ok [[]]
  /\ forall docs outs i,
       SpanPredictor.predict input_prefix doc2clusters ops model docs = Ok outs ->
       nth_error docs i = Some doc -> nth_error outs i = Some [].
Proof.
  intros Hsize.
  pose proof (predict_doc_empty input_prefix doc2clusters ops model doc Hsize) as Hd.
  split; [exact Hd|]. split.
  - unfold SpanPredictor.predict. simpl. rewrite Hd. reflexivity.
  - intros docs outs i H Hi. unfold SpanPredictor.predict in H.
    destruct (mapM_nth_error _ _ _ H Hi) as [y [Hy Hn]].
    rewrite Hd in Hy. inversion Hy; subst. exact Hn.
Qed.

Lemma predict_empty_scores_witness :
  Samples.doc2clusters Samples.two_tokens "coref_head_clusters"
  = [[(0%Z, 1%Z); (1%Z, 2%Z)]]
  /\ SpanPredictor.predict_doc "coref_head_clusters" Samples.doc2clusters
       Samples.silent_ops 0%nat Samples.two_tokens = Ok []
  /\ SpanPredictor.predict "coref_head_clusters" Samples.doc2clusters
       Samples.silent_ops 0%nat [Samples.two_tokens] = Ok [[]]
  /\ forall docs outs i,
       SpanPredictor.predict "coref_head_clusters" Samples.doc2clusters
         Samples.silent_ops 0%nat docs = Ok outs ->
       nth_error docs i = Some Samples.two_tokens -> nth_error outs i = Some [].
Proof.
  split; [reflexivity|].
  apply (@predict_empty_scores "coref_head_clusters"%string Samples.doc2clusters
           nat unit Samples.silent_ops 0%nat Samples.two_tokens).
  reflexivity.
Defined.

(** ** [SpanPredictor.predict] returns when the model scores every mention *)

Lemma mapM_total {A B : Type} (f : A -> Result B) (l : list A) :
  (forall x, In x l -> exists y, f x = Ok y) -> exists r, mapM f l = Ok r.
Proof.
  induction l as [|a t IH]; intros H; simpl.
  - exists []. reflexivity.
  - destruct (H a (or_introl eq_refl)) as [y Hy]. rewrite Hy. simpl.
    destruct IH as [r Hr]; [intros x Hx; apply H; right; exact Hx|].
    rewrite Hr. simpl. eexists. reflexivity.
Qed.

Lemma getitem_in_range {A : Type} (l : list A) (i : nat) :
  (i < length l)%nat -> exists a, Np.getitem l (Z.of_nat i) = Ok a.
Proof.
  intros H. destruct (nth_error l i) as [a|] eqn:E.
  - exists a. apply getitem_nat. exact E.
  - apply nth_error_None in E. lia.
Qed.

Lemma resolve_cluster_total (starts ends : list nat) (cluster : list Mention)
  (cidx : nat) (acc : list Mention) :
  (cidx + length cluster <= length starts)%nat ->
  (cidx + length cluster <= length ends)%nat ->
  exists ncluster,
    SpanPredictor.resolve_cluster starts ends cluster cidx acc
    = Ok (ncluster, (cidx + length cluster)%nat).
Proof.
  revert cidx acc. induction cluster as [|mention rest IH]; intros cidx acc Hs He;
    simpl in *.
  - exists acc. rewrite Nat.add_0_r. reflexivity.
  - destruct (getitem_in_range starts (i := cidx)) as [s Hgs]; [lia|].
    destruct (getitem_in_range ends (i := cidx)) as [e Hge]; [lia|].
    rewrite Hgs, Hge. simpl.
    destruct (IH (cidx + 1)%nat (acc ++ [(Z.of_nat s, Z.of_nat e)])) as [nc Hnc];
      try lia.
    exists nc. rewrite Hnc. do 2 f_equal. lia.
Qed.

Lemma resolve_clusters_total (starts ends : list nat) (clusters : MentionClusters)
  (cidx : nat) (acc : MentionClusters) :
  (cidx + length (concat clusters) <= length starts)%nat ->
  (cidx + length (concat clusters) <= length ends)%nat ->
  exists out, SpanPredictor.resolve_clusters starts ends clusters cidx acc = Ok out.
Proof.
  revert cidx acc. induction clusters as [|cluster rest IH]; intros cidx acc Hs He;
    simpl in *.
  - exists acc. reflexivity.
  - rewrite length_app in Hs, He.
    destruct (resolve_cluster_total starts ends cluster cidx []) as [nc Hnc];
      try lia.
    rewrite Hnc. simpl. apply IH; lia.
Qed.

Lemma predict_doc_returns (input_prefix : string)
  (doc2clusters : Doc -> string -> MentionClusters) (Model Optimizer : Type)
  (ops : ModelOps Model Optimizer SpanPredictor.Floats3d SpanPredictor.Floats3d)
  (model : Model) (doc : Doc) :
  Forall (fun row => row <> []) (model_predict ops model [doc]) ->
  (length (concat (doc2clusters doc input_prefix))
   <= length (model_predict ops model [doc]))%nat ->
  exists out,
    SpanPredictor.predict_doc input_prefix doc2clusters ops model doc = Ok out.
Proof.
  intros Hrows Hlen. unfold SpanPredictor.predict_doc.
  destruct (negb (Nat.eqb (size3 (model_predict ops model [doc])) 0));
    [|exists []; reflexivity].
  assert (Harg : forall (p : R * R -> R),
             exists r, mapM Np.argmax (map (map p) (model_predict ops model [doc]))
                       = Ok r).
  { intros p. apply mapM_total. intros x Hx. apply in_map_iff in Hx.
    destruct Hx as [row [<- Hrow]]. rewrite Forall_forall in Hrows.
    specialize (Hrows row Hrow). destruct row as [|c t]; [contradiction|].
    simpl. eexists. reflexivity. }
  destruct (Harg fst) as [starts Hs]. destruct (Harg snd) as [ends He].
  rewrite Hs, He. simpl.
  apply mapM_length in Hs. apply mapM_length in He. rewrite length_map in Hs, He.
  apply resolve_clusters_total; simpl; lia.
Qed.

(** ** [update] on documents without tokens *)

Lemma any_tokens_none (docs : list Doc) :
  Forall (fun d => n_tokens d = 0%nat) docs -> any_tokens docs = false.
Proof.
  induction 1 as [|d t Hd _ IH]; simpl.
  - reflexivity.
  - rewrite Hd. simpl. exact IH.
Qed.

Lemma get_setitem_same {V : Type} (k : string) (v : V) (d : dict V) :
  get k (setitem k v d) = Some v.
Proof.
  induction d as [|[k' v'] t IH]; simpl.
  - rewrite String.eqb_refl. reflexivity.
  - destruct (String.eqb k' k) eqn:E; simpl; rewrite E; [reflexivity | exact IH].
Qed.

Lemma get_setitem_other {V : Type} (k k0 : string) (v : V) (d : dict V) :
  k0 <> k -> get k0 (setitem k v d) = get k0 d.
Proof.
  intros Hne. induction d as [|[k' v'] t IH]; simpl.
  - destruct (String.eqb k k0) eqn:E; [|reflexivity].
    apply String.eqb_eq in E. congruence.
  - destruct (String.eqb k' k) eqn:E; simpl.
    + apply String.eqb_eq in E. subst k'.
      destruct (String.eqb k k0) eqn:E0; [|reflexivity].
      apply String.eqb_eq in E0. congruence.
    + rewrite IH. reflexivity.
Qed.

Lemma setdefault_unchanged_but_key (key : string) (losses : dict R) :
  unchanged_but_key key losses (setdefault key 0%R losses).
Proof.
  unfold unchanged_but_key, setdefault, contains.
  destruct (get key losses) as [v|] eqn:E.
  - repeat split; auto.
  - repeat split.
    + apply get_setitem_same.
    + intros k Hk. apply get_setitem_other. exact Hk.
    + discriminate.
Qed.

(** C7.  When no document of the batch has a token (the empty batch
    included), [update] of [CoreferenceResolver] (which looks at the
    predicted documents) and of [SpanPredictor] (which looks at the
    reference documents) returns without raising, the model is the one it
    was given, and the losses are the ones it was given except that the
    component's key is present with its prior value or zero. *)
Theorem update_without_tokens_is_noop :
  (forall (name : string) (GoldClusters SpanIdxs : Type)
          (get_clusters_from_doc : Doc -> GoldClusters)
          (create_head_span_idxs : nat -> SpanIdxs)
          (create_gold_scores : SpanIdxs -> GoldClusters -> list (list bool))
          (Model Optimizer : Type)
          (ops : ModelOps Model Optimizer CoreferenceResolver.Preds
                          CoreferenceResolver.Preds)
          (examples : list Example) (drop : R) (sgd : option Optimizer)
          (losses : option (dict R)) (model : Model),
      Forall (fun eg => n_tokens (predicted eg) = 0%nat) examples ->
      exists losses',
        CoreferenceResolver.update name get_clusters_from_doc create_head_span_idxs
          create_gold_scores ops examples drop sgd losses model
        = Ok (losses', model)
        /\ unchanged_but_key name (given_losses losses) losses')
  /\ (forall (name output_prefix : string) (Model Optimizer : Type)
             (ops : ModelOps Model Optimizer SpanPredictor.Floats3d
                             SpanPredictor.Floats3d)
             (examples : list Example) (drop : R) (sgd : option Optimizer)
             (losses : option (dict R)) (model : Model),
         Forall (fun eg => n_tokens (reference eg) = 0%nat) examples ->
         exists losses',
           SpanPredictor.update name output_prefix ops examples drop sgd losses model
           = Ok (losses', model)
           /\ unchanged_but_key name (given_losses losses) losses').
Proof.
  split.
  - intros name ? ? gc hs cg ? ? ops examples drop sgd losses model H.
    exists (setdefault name 0%R (given_losses losses)). split.
    + unfold CoreferenceResolver.update.
      rewrite any_tokens_none; [reflexivity|].
      apply Forall_map. exact H.
    + apply setdefault_unchanged_but_key.
  - intros name prefix ? ? ops examples drop sgd losses model H.
    exists (setdefault name 0%R (given_losses losses)). split.
    + unfold SpanPredictor.update.
      rewrite any_tokens_none; [reflexivity|].
      apply Forall_map. exact H.
    + apply setdefault_unchanged_but_key.
Qed.

Lemma update_without_tokens_is_noop_witness :
  (exists losses',
      CoreferenceResolver.update "coref" Samples.gold_clusters Samples.head_span_idxs
        Samples.one_cluster_gold Samples.coref_ops
        [Samples.empty_example; Samples.empty_example] 0%R (Some tt)
        (Some [("ner"%string, 2%R)]) 0%nat
      = Ok (losses', 0%nat)
      /\ unchanged_but_key "coref" (given_losses (Some [("ner"%string, 2%R)])) losses')
  /\ (exists losses',
         SpanPredictor.update "span_predictor" "coref_clusters" Samples.span_ops
           [] 0%R (Some tt) None 0%nat
         = Ok (losses', 0%nat)
         /\ unchanged_but_key "span_predictor" (given_losses None) losses').
Proof.
  split.
  - apply (proj1 update_without_tokens_is_noop "coref"%string unit nat
             Samples.gold_clusters Samples.head_span_idxs Samples.one_cluster_gold
             nat unit Samples.coref_ops
             [Samples.empty_example; Samples.empty_example]).
    repeat constructor.
  - apply (proj2 update_without_tokens_is_noop "span_predictor"%string
             "coref_clusters"%string nat unit Samples.span_ops []).
    constructor.
Defined.

(** ** [score] *)

Lemma totals_eq (a b : CorefScorer.Totals) :
  CorefScorer.p_num a = CorefScorer.p_num b ->
  CorefScorer.p_den a = CorefScorer.p_den b ->
  CorefScorer.r_num a = CorefScorer.r_num b ->
  CorefScorer.r_den a = CorefScorer.r_den b ->
  a = b.
Proof. destruct a, b; simpl; intros; subst; reflexivity. Qed.

Lemma add_totals_assoc (a b c : CorefScorer.Totals) :
  CorefScorer.add_totals (CorefScorer.add_totals a b) c
  = CorefScorer.add_totals a (CorefScorer.add_totals b c).
Proof. apply totals_eq; simpl; ring. Qed.

Lemma add_totals_zero_l (a : CorefScorer.Totals) :
  CorefScorer.add_totals CorefScorer.zero_totals a = a.
Proof. apply totals_eq; simpl; ring. Qed.

Lemma add_totals_zero_r (a : CorefScorer.Totals) :
  CorefScorer.add_totals a CorefScorer.zero_totals = a.
Proof. apply totals_eq; simpl; ring. Qed.

Lemma corpus_totals_cons (t : CorefScorer.Totals) (l : list CorefScorer.Totals) :
  corpus_totals (t :: l) = CorefScorer.add_totals t (corpus_totals l).
Proof. reflexivity. Qed.

Section Scoring.

Variable span_cluster_prefix : string.
Variable doc2clusters : Doc -> string -> MentionClusters.
Variable ClusterInfo : Type.
Variable get_cluster_info : MentionClusters -> MentionClusters -> ClusterInfo.

Local Abbreviation info_of ex :=
  (get_cluster_info (doc2clusters (predicted ex) span_cluster_prefix)
                    (doc2clusters (reference ex) span_cluster_prefix)).

(** One evaluator, fed every example, holds the corpus totals. *)
Lemma evaluator_accumulates (examples : list Example)
  (ev : CorefScorer.Evaluator ClusterInfo) :
  let ev' := fold_left (fun evaluator ex => CorefScorer.update evaluator (info_of ex))
                       examples ev in
  CorefScorer.metric ev' = CorefScorer.metric ev
  /\ CorefScorer.totals ev'
     = CorefScorer.add_totals (CorefScorer.totals ev)
         (micro_totals (CorefScorer.metric ev)
            (cluster_infos doc2clusters get_cluster_info span_cluster_prefix examples)).
Proof.
  revert ev. induction examples as [|ex rest IH]; intros ev; simpl.
  - split; [reflexivity|]. unfold micro_totals. simpl.
    symmetry. apply add_totals_zero_r.
  - destruct (IH (CorefScorer.update ev (info_of ex))) as [Hm Ht].
    simpl in Hm, Ht. split; [exact Hm|].
    rewrite Ht. unfold micro_totals. simpl map.
    rewrite corpus_totals_cons, add_totals_assoc. reflexivity.
Qed.

Lemma score_metric_spec (examples : list Example)
  (metric : ClusterInfo -> CorefScorer.Totals) :
  let t := micro_totals metric
             (cluster_infos doc2clusters get_cluster_info span_cluster_prefix examples) in
  CoreferenceResolver.score_metric span_cluster_prefix doc2clusters get_cluster_info
    examples metric
  = [ ("coref_f"%string, CorefScorer.f1_of t);
      ("coref_p"%string, CorefScorer.precision_of t);
      ("coref_r"%string, CorefScorer.recall_of t) ].
Proof.
  unfold CoreferenceResolver.score_metric.
  destruct (evaluator_accumulates examples (CorefScorer.new metric)) as [_ Ht].
  unfold CorefScorer.get_f1, CorefScorer.get_precision, CorefScorer.get_recall.
  rewrite Ht. simpl CorefScorer.totals. simpl CorefScorer.metric.
  rewrite add_totals_zero_l. reflexivity.
Qed.

End Scoring.

Lemma mean3 (a b c : R) : mean [a; b; c] = Ok (macro_average a b c).
Proof.
  unfold mean, macro_average. f_equal. simpl. field.
Qed.

Lemma average_fields_three (f1 p1 r1 f2 p2 r2 f3 p3 r3 : R) :
  CoreferenceResolver.average_fields ["f"; "p"; "r"]%string
    [ [("coref_f", f1); ("coref_p", p1); ("coref_r", r1)];
      [("coref_f", f2); ("coref_p", p2); ("coref_r", r2)];
      [("coref_f", f3); ("coref_p", p3); ("coref_r", r3)] ]%string []
  = Ok [ ("coref_f", macro_average f1 f2 f3);
         ("coref_p", macro_average p1 p2 p3);
         ("coref_r", macro_average r1 r2 r3) ]%string.
Proof.
  cbn [CoreferenceResolver.average_fields String.append].
  cbn [mapM lookup get String.eqb Ascii.eqb Bool.eqb bind].
  rewrite !mean3. reflexivity.
Qed.

(** C3.  [CoreferenceResolver.score] returns, for each of f, p and r, the
    arithmetic mean over B-cubed, MUC and CEAF-entity of that metric's
    corpus-level value, each computed from the totals of one evaluator
    summed over all examples before any division. *)
Theorem score_is_mean_of_corpus_level_metrics (span_cluster_prefix : string)
  (doc2clusters : Doc -> string -> MentionClusters) (ClusterInfo : Type)
  (get_cluster_info : MentionClusters -> MentionClusters -> ClusterInfo)
  (b_cubed muc ceafe : ClusterInfo -> CorefScorer.Totals)
  (examples : list Example) :
  CoreferenceResolver.score span_cluster_prefix doc2clusters get_cluster_info
    b_cubed muc ceafe examples
  = Ok [ ("coref_f"%string,
          macro_average
            (CorefScorer.f1_of (micro_totals b_cubed
               (cluster_infos doc2clusters get_cluster_info span_cluster_prefix examples)))
            (CorefScorer.f1_of (micro_totals muc
               (cluster_infos doc2clusters get_cluster_info span_cluster_prefix examples)))
            (CorefScorer.f1_of (micro_totals ceafe
               (cluster_infos doc2clusters get_cluster_info span_cluster_prefix examples))));
         ("coref_p"%string,
          macro_average
            (CorefScorer.precision_of (micro_totals b_cubed
               (cluster_infos doc2clusters get_cluster_info span_cluster_prefix examples)))
            (CorefScorer.precision_of (micro_totals muc
               (cluster_infos doc2clusters get_cluster_info span_cluster_prefix examples)))
            (CorefScorer.precision_of (micro_totals ceafe
               (cluster_infos doc2clusters get_cluster_info span_cluster_prefix examples))));
         ("coref_r"%string,
          macro_average
            (CorefScorer.recall_of (micro_totals b_cubed
               (cluster_infos doc2clusters get_cluster_info span_cluster_prefix examples)))
            (CorefScorer.recall_of (micro_totals muc
               (cluster_infos doc2clusters get_cluster_info span_cluster_prefix examples)))
            (CorefScorer.recall_of (micro_totals ceafe
               (cluster_infos doc2clusters get_cluster_info span_cluster_prefix examples)))) ].
Proof.
  unfold CoreferenceResolver.score. cbn [map].
  rewrite !score_metric_spec. apply average_fields_three.
Qed.

(** ** [CoreferenceResolver.set_annotations] on a key collision *)

Section CoreferenceAnnotations.

Variable span_cluster_prefix : string.
Variable doc_slice : Doc -> Z -> Z -> Span.

Lemma contains_get {V : Type} (k : string) (d : dict V) :
  contains k d = true <-> exists v, get k d = Some v.
Proof.
  unfold contains. destruct (get k d) as [v|]; split; intros H.
  - exists v. reflexivity.
  - reflexivity.
  - discriminate.
  - destruct H as [v H]. discriminate.
Qed.

Lemma append_mentions_keeps (key : string) (cluster : list Mention) (doc : Doc) :
  contains key (spans doc) = true ->
  exists doc',
    CoreferenceResolver.append_mentions doc_slice key cluster doc = (doc', None)
    /\ contains key (spans doc') = true
    /\ forall k, k <> key -> get k (spans doc') = get k (spans doc).
Proof.
  revert doc. induction cluster as [|mention rest IH]; intros doc Hc; simpl.
  - exists doc. auto.
  - unfold CoreferenceResolver.append_span, lookup.
    apply contains_get in Hc. destruct Hc as [group Hg]. rewrite Hg. simpl.
    match goal with
    | |- context [CoreferenceResolver.append_mentions _ _ _ ?d] =>
        destruct (IH d) as [doc' [Hrun [Hc' Hother]]]
    end.
    { apply contains_get. simpl. eexists. apply get_setitem_same. }
    exists doc'. split; [exact Hrun|]. split; [exact Hc'|].
    intros k Hk. rewrite (Hother k Hk). simpl. apply get_setitem_other. exact Hk.
Qed.

(** The loop over the clusters of one document raises nothing but the
    [ValueError] of the collision check. *)
Lemma annotate_clusters_outcome (clusters : MentionClusters) (ii : nat) (doc : Doc) :
  snd (CoreferenceResolver.annotate_clusters span_cluster_prefix doc_slice
         ii clusters doc) = None
  \/ snd (CoreferenceResolver.annotate_clusters span_cluster_prefix doc_slice
            ii clusters doc) = Some ValueError.
Proof.
  revert ii doc. induction clusters as [|cluster rest IH]; intros ii doc; simpl.
  - left. reflexivity.
  - destruct (contains (cluster_key span_cluster_prefix ii) (spans doc));
      [right; reflexivity|].
    match goal with
    | |- context [CoreferenceResolver.append_mentions _ ?k _ ?d] =>
        destruct (append_mentions_keeps k cluster d) as [doc' [Hrun _]]
    end.
    { apply contains_get. simpl. eexists. apply get_setitem_same. }
    rewrite Hrun. apply IH.
Qed.

(** A key that is already there stops the loop with [ValueError], and the
    spans stored under it are the ones that were there. *)
Lemma annotate_clusters_collision (clusters : MentionClusters) (ii i : nat) (doc : Doc) :
  (ii <= i < ii + length clusters)%nat ->
  contains (cluster_key span_cluster_prefix i) (spans doc) = true ->
  exists doc',
    CoreferenceResolver.annotate_clusters span_cluster_prefix doc_slice
      ii clusters doc = (doc', Some ValueError)
    /\ get (cluster_key span_cluster_prefix i) (spans doc')
       = get (cluster_key span_cluster_prefix i) (spans doc).
Proof.
  revert ii doc. induction clusters as [|cluster rest IH]; intros ii doc Hi Hc;
    simpl in *.
  - lia.
  - destruct (contains (cluster_key span_cluster_prefix ii) (spans doc)) eqn:Eii.
    + exists doc. auto.
    + assert (Hne : cluster_key span_cluster_prefix i
                    <> cluster_key span_cluster_prefix ii)
        by (intros Heq; rewrite Heq in Hc; congruence).
      assert (Hlt : (S ii <= i < S ii + length rest)%nat).
      { destruct (Nat.eq_dec i ii) as [->|]; [congruence | lia]. }
      match goal with
      | |- context [CoreferenceResolver.append_mentions _ ?k _ ?d] =>
          destruct (append_mentions_keeps k cluster d) as [doc1 [Hrun [_ Hother]]]
      end.
      { apply contains_get. simpl. eexists. apply get_setitem_same. }
      rewrite Hrun.
      assert (Hget : get (cluster_key span_cluster_prefix i) (spans doc1)
                     = get (cluster_key span_cluster_prefix i) (spans doc)).
      { rewrite (Hother _ Hne). simpl. apply get_setitem_other. exact Hne. }
      destruct (IH (S ii) doc1 Hlt) as [doc' [Hrun' Hget']].
      { unfold contains in *. rewrite Hget. exact Hc. }
      exists doc'. split; [exact Hrun'|]. congruence.
Qed.

Lemma annotate_docs_collision (docs : list Doc) (clusters_by_doc : list MentionClusters)
  (j i : nat) (doc : Doc) (clusters : MentionClusters) :
  nth_error docs j = Some doc ->
  nth_error clusters_by_doc j = Some clusters ->
  (i < length clusters)%nat ->
  contains (cluster_key span_cluster_prefix i) (spans doc) = true ->
  exists docs' doc',
    CoreferenceResolver.annotate_docs span_cluster_prefix doc_slice docs clusters_by_doc
    = (docs', Some ValueError)
    /\ nth_error docs' j = Some doc'
    /\ get (cluster_key span_cluster_prefix i) (spans doc')
       = get (cluster_key span_cluster_prefix i) (spans doc).
Proof.
  revert clusters_by_doc j.
  induction docs as [|d ds IH]; intros [|c cs] j Hd Hc Hi Hk;
    try (destruct j; discriminate).
  destruct j as [|j]; simpl in Hd, Hc.
  - inversion Hd; inversion Hc; subst.
    destruct (annotate_clusters_collision clusters (ii := 0) (i := i) doc)
      as [doc' [Hrun Hget]]; [lia | exact Hk |].
    exists (doc' :: ds), doc'. simpl. rewrite Hrun. auto.
  - simpl.
    pose proof (annotate_clusters_outcome c 0 d) as Hout.
    destruct (CoreferenceResolver.annotate_clusters span_cluster_prefix doc_slice 0 c d)
      as [d' [e|]]; simpl in Hout.
    + destruct Hout as [Hout|Hout]; [discriminate|]. inversion Hout; subst.
      exists (d' :: ds), doc. simpl. auto.
    + destruct (IH cs j Hd Hc Hi Hk) as [docs' [doc' [Hrun [Hn Hget]]]].
      rewrite Hrun. exists (d' :: docs'), doc'. simpl. auto.
Qed.

(** In [CoreferenceResolver] a target key that is already in the span map
    of a document ends the call in [ValueError], and the spans stored
    under that key stay as they were. *)
Lemma coref_set_annotations_collision (docs : list Doc)
  (clusters_by_doc : list MentionClusters)
  (j i : nat) (doc : Doc) (clusters : MentionClusters) :
  nth_error docs j = Some doc ->
  nth_error clusters_by_doc j = Some clusters ->
  (i < length clusters)%nat ->
  contains (cluster_key span_cluster_prefix i) (spans doc) = true ->
  exists docs' doc',
    CoreferenceResolver.set_annotations span_cluster_prefix doc_slice docs clusters_by_doc
    = (docs', Some ValueError)
    /\ nth_error docs' j = Some doc'
    /\ get (cluster_key span_cluster_prefix i) (spans doc')
       = get (cluster_key span_cluster_prefix i) (spans doc).
Proof.
  intros Hd Hc Hi Hk. unfold CoreferenceResolver.set_annotations.
  destruct (negb (Nat.eqb (length docs) (length clusters_by_doc))).
  - exists docs, doc. auto.
  - eapply annotate_docs_collision; eauto.
Qed.

End CoreferenceAnnotations.

(** ** [set_annotations] *)

Lemma coref_set_annotations_length_mismatch (span_cluster_prefix : string)
  (doc_slice : Doc -> Z -> Z -> Span) (docs : list Doc)
  (clusters_by_doc : list MentionClusters) :
  length docs <> length clusters_by_doc ->
  CoreferenceResolver.set_annotations span_cluster_prefix doc_slice docs clusters_by_doc
  = (docs, Some ValueError).
Proof.
  intros H. unfold CoreferenceResolver.set_annotations.
  apply Nat.eqb_neq in H. rewrite H. reflexivity.
Qed.

Lemma span_set_annotations_never_raises (output_prefix : string)
  (doc_slice : Doc -> Z -> Z -> Span) (docs : list Doc)
  (clusters_by_doc : list MentionClusters) :
  snd (SpanPredictor.set_annotations output_prefix doc_slice docs clusters_by_doc)
  = None.
Proof. reflexivity. Qed.

(** C5.  [CoreferenceResolver.set_annotations] raises [ValueError] when a
    target key is already in [doc.spans] and when the two sequences differ
    in length, leaving the documents as they were.  On the same inputs
    [SpanPredictor.set_annotations] raises nothing: it replaces the spans
    stored under the existing key, and it annotates the first document
    only when given one cluster list for two documents. *)
Theorem set_annotations_collision_and_mismatch :
  CoreferenceResolver.set_annotations "coref_clusters" Samples.doc_slice
    [Samples.two_tokens] [[[(1%Z, 2%Z)]]]
  = ([Samples.two_tokens], Some ValueError)
  /\ CoreferenceResolver.set_annotations "coref_clusters" Samples.doc_slice
       [Samples.plain_doc; Samples.plain_doc] [[[(0%Z, 1%Z)]]]
     = ([Samples.plain_doc; Samples.plain_doc], Some ValueError)
  /\ SpanPredictor.set_annotations "coref_clusters" Samples.doc_slice
       [Samples.two_tokens] [[[(1%Z, 2%Z)]]]
     = ([mkDoc 2 [("coref_head_clusters_0"%string, [mkSpan 0 1; mkSpan 1 2]);
                  ("coref_clusters_0"%string, [mkSpan 1 2])]], None)
  /\ SpanPredictor.set_annotations "coref_clusters" Samples.doc_slice
       [Samples.plain_doc; Samples.plain_doc] [[[(0%Z, 1%Z)]]]
     = ([mkDoc 2 [("coref_clusters_0"%string, [mkSpan 0 1])]; Samples.plain_doc],
        None).
Proof. repeat split. Qed.

(** ** Cluster keys *)

Lemma append_cancel_l (p a b : string) : (p ++ a)%string = (p ++ b)%string -> a = b.
Proof.
  induction p as [|c p IH]; simpl; intros H.
  - exact H.
  - inversion H. apply IH. assumption.
Qed.

Lemma str_inj (i j : nat) : str i = str j -> i = j.
Proof.
  unfold str. intros H.
  apply (f_equal NilEmpty.uint_of_string) in H.
  rewrite !NilEmpty.usu in H. inversion H as [H'].
  apply Unsigned.to_uint_inj. exact H'.
Qed.

(** Two clusters of a document never share a key. *)
Lemma cluster_key_inj (prefix : string) (i j : nat) :
  cluster_key prefix i = cluster_key prefix j -> i = j.
Proof.
  unfold cluster_key. intros H.
  apply append_cancel_l in H. apply (append_cancel_l "_") in H.
  apply str_inj. exact H.
Qed.

(** ** [CoreferenceResolver.set_annotations] on documents without the keys *)

Section CoreferenceFresh.

Variable span_cluster_prefix : string.
Variable doc_slice : Doc -> Z -> Z -> Span.
Hypothesis Hslice : slice_ignores_spans doc_slice.

Local Abbreviation key_of i := (cluster_key span_cluster_prefix i).
Local Abbreviation slices doc cluster :=
  (map (fun m : Mention => doc_slice doc (fst m) (snd m)) cluster).

Lemma append_mentions_appends (key : string) (cluster : list Mention) (doc : Doc)
  (group : list Span) :
  get key (spans doc) = Some group ->
  exists doc',
    CoreferenceResolver.append_mentions doc_slice key cluster doc = (doc', None)
    /\ n_tokens doc' = n_tokens doc
    /\ get key (spans doc') = Some (group ++ slices doc cluster)
    /\ forall k, k <> key -> get k (spans doc') = get k (spans doc).
Proof.
  revert doc group. induction cluster as [|mention rest IH]; intros doc group Hg;
    simpl.
  - exists doc. rewrite app_nil_r. auto.
  - unfold CoreferenceResolver.append_span, lookup. rewrite Hg. simpl.
    match goal with
    | |- context [CoreferenceResolver.append_mentions _ _ _ ?d] =>
        destruct (IH d (group ++ [doc_slice doc (fst mention) (snd mention)]))
          as [doc' [Hrun [Hn [Hk Hother]]]]
    end.
    { simpl. apply get_setitem_same. }
    exists doc'. split; [exact Hrun|]. split; [exact Hn|]. split.
    + rewrite Hk, <- app_assoc. simpl. do 3 f_equal.
      apply map_ext. intros m. apply Hslice. reflexivity.
    + intros k Hne. rewrite (Hother k Hne). simpl.
      apply get_setitem_other. exact Hne.
Qed.

Lemma contains_false_get {V : Type} (k : string) (d : dict V) :
  contains k d = false <-> get k d = None.
Proof.
  unfold contains. destruct (get k d); split; intros H; congruence.
Qed.

Lemma coref_annotate_clusters_fresh (clusters : MentionClusters) (ii : nat) (doc : Doc) :
  (forall i, (ii <= i < ii + length clusters)%nat ->
             contains (key_of i) (spans doc) = false) ->
  exists doc',
    CoreferenceResolver.annotate_clusters span_cluster_prefix doc_slice ii clusters doc
    = (doc', None)
    /\ n_tokens doc' = n_tokens doc
    /\ (forall i cluster, nth_error clusters i = Some cluster ->
          get (key_of (ii + i)) (spans doc') = Some (slices doc cluster))
    /\ (forall k, (forall i, (ii <= i < ii + length clusters)%nat -> k <> key_of i) ->
          get k (spans doc') = get k (spans doc)).
Proof.
  revert ii doc. induction clusters as [|cluster rest IH]; intros ii doc Hfresh.
  - exists doc. simpl. repeat split; auto.
    intros i c Hc. destruct i; discriminate.
  - simpl. rewrite (Hfresh ii) by (simpl; lia).
    set (doc1 := set_spans doc (setitem (key_of ii) [] (spans doc))).
    destruct (append_mentions_appends (key_of ii) cluster doc1 (group := []))
      as [doc2 [Hrun [Hn2 [Hk2 Hother2]]]].
    { apply get_setitem_same. }
    rewrite Hrun.
    assert (Hget2 : forall k, k <> key_of ii -> get k (spans doc2) = get k (spans doc)).
    { intros k Hne. rewrite (Hother2 k Hne). apply get_setitem_other. exact Hne. }
    destruct (IH (S ii) doc2) as [doc' [Hrun' [Hn' [Hk' Hother']]]].
    { intros i Hi. apply contains_false_get. rewrite Hget2.
      - apply contains_false_get. apply Hfresh. simpl. lia.
      - intros Heq. apply cluster_key_inj in Heq. lia. }
    exists doc'. split; [exact Hrun'|].
    split; [rewrite Hn', Hn2; reflexivity|]. split.
    + intros i c Hc. destruct i as [|i]; simpl in Hc.
      * inversion Hc; subst. rewrite Nat.add_0_r.
        rewrite Hother'.
        -- rewrite Hk2. simpl. f_equal. apply map_ext. intros m.
           apply Hslice. reflexivity.
        -- intros j Hj Heq. apply cluster_key_inj in Heq. lia.
      * replace (ii + S i)%nat with (S ii + i)%nat by lia.
        rewrite (Hk' i c Hc). f_equal. apply map_ext. intros m.
        apply Hslice. rewrite Hn2. reflexivity.
    + intros k Hk. rewrite Hother'.
      * apply Hget2. apply Hk. simpl. lia.
      * intros j Hj. apply Hk. simpl. lia.
Qed.

Lemma coref_annotate_docs_fresh (docs : list Doc) (clusters_by_doc : list MentionClusters) :
  Forall2 (fresh span_cluster_prefix) docs clusters_by_doc ->
  exists docs',
    CoreferenceResolver.annotate_docs span_cluster_prefix doc_slice docs clusters_by_doc
    = (docs', None)
    /\ Forall2 (fun dc doc' => annotated span_cluster_prefix doc_slice (fst dc) (snd dc) doc')
               (combine docs clusters_by_doc) docs'.
Proof.
  induction 1 as [|doc clusters docs cbd Hfresh _ IH]; simpl.
  - exists []. split; [reflexivity | constructor].
  - destruct (@coref_annotate_clusters_fresh clusters 0%nat doc)
      as [doc' [Hrun [Hn [Hk Hother]]]].
    { intros i Hi. apply Hfresh. lia. }
    rewrite Hrun. destruct IH as [docs' [Hrun' Hall]]. rewrite Hrun'.
    exists (doc' :: docs'). split; [reflexivity|]. constructor; [|exact Hall].
    simpl. split; [exact Hn|]. split.
    + exact Hk.
    + intros k Hne. apply Hother. intros i Hi. apply Hne. lia.
Qed.

Lemma coref_set_annotations_fresh (docs : list Doc)
  (clusters_by_doc : list MentionClusters) :
  Forall2 (fresh span_cluster_prefix) docs clusters_by_doc ->
  exists docs',
    CoreferenceResolver.set_annotations span_cluster_prefix doc_slice docs clusters_by_doc
    = (docs', None)
    /\ Forall2 (fun dc doc' => annotated span_cluster_prefix doc_slice (fst dc) (snd dc) doc')
               (combine docs clusters_by_doc) docs'.
Proof.
  intros H. unfold CoreferenceResolver.set_annotations.
  assert (Hlen : length docs = length clusters_by_doc)
    by (clear - H; induction H; simpl; congruence).
  rewrite Hlen, Nat.eqb_refl. simpl. apply coref_annotate_docs_fresh. exact H.
Qed.

End CoreferenceFresh.

(** ** [SpanPredictor.set_annotations] *)

Section SpanAnnotations.

Variable output_prefix : string.
Variable doc_slice : Doc -> Z -> Z -> Span.
Hypothesis Hslice : slice_ignores_spans doc_slice.

Local Abbreviation key_of i := (cluster_key output_prefix i).
Local Abbreviation slices doc cluster :=
  (map (fun m : Mention => doc_slice doc (fst m) (snd m)) cluster).

Lemma span_annotate_clusters_post (clusters : MentionClusters) (ii : nat) (doc : Doc) :
  n_tokens (SpanPredictor.annotate_clusters output_prefix doc_slice ii clusters doc)
  = n_tokens doc
  /\ (forall i cluster, nth_error clusters i = Some cluster ->
        get (key_of (ii + i))
            (spans (SpanPredictor.annotate_clusters output_prefix doc_slice ii clusters doc))
        = Some (slices doc cluster))
  /\ (forall k, (forall i, (ii <= i < ii + length clusters)%nat -> k <> key_of i) ->
        get k (spans (SpanPredictor.annotate_clusters output_prefix doc_slice ii clusters doc))
        = get k (spans doc)).
Proof.
  revert ii doc. induction clusters as [|cluster rest IH]; intros ii doc.
  - simpl. repeat split; auto. intros i c Hc. destruct i; discriminate.
  - cbn [SpanPredictor.annotate_clusters length].
    match goal with
    | |- context [SpanPredictor.annotate_clusters _ _ (S ii) rest ?d] =>
        destruct (IH (S ii) d) as [Hn [Hk Hother]]
    end.
    split; [rewrite Hn; reflexivity|]. split.
    + intros i c Hc. destruct i as [|i]; simpl in Hc.
      * inversion Hc; subst. rewrite Nat.add_0_r. rewrite Hother.
        -- apply get_setitem_same.
        -- intros j Hj Heq. apply cluster_key_inj in Heq. lia.
      * replace (ii + S i)%nat with (S ii + i)%nat by lia.
        rewrite (Hk i c Hc). f_equal. apply map_ext. intros m.
        apply Hslice. reflexivity.
    + intros k Hk'. rewrite Hother.
      * apply get_setitem_other. apply Hk'. simpl. lia.
      * intros j Hj. apply Hk'. simpl. lia.
Qed.

Lemma span_annotate_clusters_annotated (clusters : MentionClusters) (doc : Doc) :
  annotated output_prefix doc_slice doc clusters
    (SpanPredictor.annotate_clusters output_prefix doc_slice 0 clusters doc).
Proof.
  destruct (span_annotate_clusters_post clusters 0 doc) as [Hn [Hk Hother]].
  split; [exact Hn|]. split; [exact Hk|].
  intros k Hne. apply Hother. intros i Hi. apply Hne. lia.
Qed.

Lemma span_annotate_docs_post (docs : list Doc) (clusters_by_doc : list MentionClusters) :
  length (SpanPredictor.annotate_docs output_prefix doc_slice docs clusters_by_doc)
  = length docs
  /\ forall j doc, nth_error docs j = Some doc ->
       match nth_error clusters_by_doc j with
       | Some clusters =>
           exists doc',
             nth_error (SpanPredictor.annotate_docs output_prefix doc_slice
                          docs clusters_by_doc) j = Some doc'
             /\ annotated output_prefix doc_slice doc clusters doc'
       | None =>
           nth_error (SpanPredictor.annotate_docs output_prefix doc_slice
                        docs clusters_by_doc) j = Some doc
       end.
Proof.
  revert clusters_by_doc. induction docs as [|d ds IH]; intros [|c cs]; simpl.
  - split; [reflexivity|]. intros j doc H. destruct j; discriminate.
  - split; [reflexivity|]. intros j doc H. destruct j; discriminate.
  - split; [reflexivity|]. intros j doc H.
    replace (nth_error (@nil MentionClusters) j) with (@None MentionClusters)
      by (destruct j; reflexivity).
    exact H.
  - destruct (IH cs) as [Hlen Hnth]. split; [rewrite Hlen; reflexivity|].
    intros j doc H. destruct j as [|j]; simpl in *.
    + inversion H; subst. eexists. split; [reflexivity|].
      apply span_annotate_clusters_annotated.
    + apply Hnth. exact H.
Qed.

End SpanAnnotations.

(** ** Gathering the gold scores *)

Lemma getitem_in_range_ok {A : Type} (l : list A) (i : Z) (d : A) :
  in_range (length l) i ->
  Np.getitem l i = Ok (nth (Z.to_nat (i mod Z.of_nat (length l))) l d).
Proof.
  unfold in_range, Np.getitem. intros [Hlo Hhi].
  set (n := Z.of_nat (length l)) in *.
  assert (Hmod : (i mod n)%Z = if (i <? 0)%Z then (i + n)%Z else i).
  { destruct (i <? 0)%Z eqn:E.
    - apply Z.ltb_lt in E.
      rewrite <- (Z.mod_small (i + n) n) by lia.
      rewrite <- (Z_mod_plus_full i 1 n). f_equal. lia.
    - apply Z.ltb_ge in E. apply Z.mod_small. lia. }
  rewrite Hmod.
  set (j := if (i <? 0)%Z then (i + n)%Z else i).
  assert (Hj : (0 <= j < n)%Z).
  { subst j. destruct (i <? 0)%Z eqn:E.
    - apply Z.ltb_lt in E. lia.
    - apply Z.ltb_ge in E. lia. }
  replace (0 <=? j)%Z with true by (symmetry; apply Z.leb_le; lia).
  replace (j <? n)%Z with true by (symmetry; apply Z.ltb_lt; lia).
  simpl. destruct (nth_error l (Z.to_nat j)) as [a|] eqn:En.
  - f_equal. symmetry. apply nth_error_nth. exact En.
  - apply nth_error_None in En. subst n. lia.
Qed.

Lemma getitem_ok_in_range {A : Type} (l : list A) (i : Z) (a : A) :
  Np.getitem l i = Ok a -> in_range (length l) i.
Proof.
  unfold in_range, Np.getitem. intros H.
  set (n := Z.of_nat (length l)) in *.
  destruct (i <? 0)%Z eqn:E.
  - apply Z.ltb_lt in E.
    destruct (0 <=? i + n)%Z eqn:E1; simpl in H; [|discriminate].
    apply Z.leb_le in E1. lia.
  - apply Z.ltb_ge in E.
    destruct (0 <=? i)%Z; simpl in H; [|discriminate].
    destruct (i <? n)%Z eqn:E2; [|discriminate].
    apply Z.ltb_lt in E2. lia.
Qed.

Lemma gather_row_ok (row : list bool) (ix : list Z) :
  Forall (in_range (length row)) ix ->
  mapM (Np.getitem row) ix = Ok (gathered_row row ix).
Proof.
  intros H. unfold gathered_row. apply mapM_ok. intros i Hi.
  apply getitem_in_range_ok. rewrite Forall_forall in H. apply H. exact Hi.
Qed.

Lemma gather_row_inv (row : list bool) (ix : list Z) (r : list bool) :
  mapM (Np.getitem row) ix = Ok r ->
  Forall (in_range (length row)) ix /\ r = gathered_row row ix.
Proof.
  intros H.
  assert (Hr : Forall (in_range (length row)) ix).
  { apply Forall_forall. intros i Hi.
    destruct (mapM_in _ _ H) as [H1 _]. destruct (H1 i Hi) as [y [Hy _]].
    eapply getitem_ok_in_range. exact Hy. }
  split; [exact Hr|]. rewrite (@gather_row_ok row ix Hr) in H. inversion H. reflexivity.
Qed.

Lemma take_along_axis_ok (gs : list (list bool)) (idx : list (list Z)) :
  Forall2 (fun row ix => Forall (in_range (length row)) ix) gs idx ->
  Np.take_along_axis gs idx = Ok (zip_with gathered_row gs idx).
Proof.
  intros H. unfold Np.take_along_axis.
  rewrite broadcast_same_length
    by (clear - H; induction H; simpl; congruence).
  induction H as [|row ix gs' idx' Hrow _ IH]; simpl.
  - reflexivity.
  - rewrite (@gather_row_ok row ix Hrow). simpl.
    destruct (Np.zipM _ gs' idx') as [r|e]; [|discriminate].
    inversion IH. reflexivity.
Qed.

Lemma take_along_axis_inv (gs : list (list bool)) (idx : list (list Z))
  (top : list (list bool)) :
  length gs = length idx ->
  Np.take_along_axis gs idx = Ok top ->
  Forall2 (fun row ix => Forall (in_range (length row)) ix) gs idx
  /\ top = zip_with gathered_row gs idx.
Proof.
  intros Hlen H. unfold Np.take_along_axis in H.
  rewrite broadcast_same_length in H by exact Hlen.
  assert (Hz : Np.zipM (fun row ix => mapM (Np.getitem row) ix) gs idx = Ok top)
    by (destruct (Np.zipM _ gs idx); [exact H | discriminate]).
  clear H. revert idx top Hlen Hz.
  induction gs as [|row gs' IH]; intros [|ix idx'] top Hlen Hz; simpl in *;
    try discriminate.
  - inversion Hz. split; [constructor | reflexivity].
  - destruct (mapM (Np.getitem row) ix) as [r|] eqn:Er; simpl in Hz; [|discriminate].
    destruct (Np.zipM _ gs' idx') as [rs|] eqn:Ers; simpl in Hz; [|discriminate].
    inversion Hz; subst. apply gather_row_inv in Er. destruct Er as [Hr ->].
    destruct (IH idx' rs) as [Hall ->]; [lia | exact Ers |].
    split; [constructor; assumption | reflexivity].
Qed.

Lemma gold_agreement_ok (gs : list (list bool)) (idx : list (list Z)) :
  gs <> [] ->
  Forall2 (fun row ix => Forall (in_range (length row)) ix) gs idx ->
  CoreferenceResolver.gold_agreement gs idx = Ok (gold_matrix_spec gs idx).
Proof.
  intros Hne H.
  unfold CoreferenceResolver.gold_agreement, CoreferenceResolver.gather_gold.
  destruct gs as [|row rows]; [contradiction|].
  rewrite (@take_along_axis_ok (row :: rows) idx H). simpl bind.
  apply concat_placeholder.
Qed.

Lemma gold_matrix_shape (gs : list (list bool)) (idx : list (list Z))
  (S : list (list R)) :
  length gs = length idx ->
  Forall2 (fun s ix => length s = Datatypes.S (length ix)) S idx ->
  same_shape S (gold_matrix_spec gs idx).
Proof.
  unfold same_shape, gold_matrix_spec. intros Hlen H. revert gs Hlen.
  induction H as [|s ix S' idx' Hs _ IH]; intros [|row gs'] Hlen; simpl in *;
    try discriminate; constructor.
  - unfold with_placeholder, gathered_row. simpl. rewrite length_map. exact Hs.
  - apply IH. lia.
Qed.

Lemma gradient_spec_shape (S : list (list R)) (G : list (list bool)) :
  same_shape S G -> same_shape (gradient_spec S G) S.
Proof.
  unfold same_shape, gradient_spec. induction 1 as [|s g S' G' Hlen _ IH]; simpl;
    constructor; [|exact IH].
  rewrite zip_with_length; rewrite softmax_spec_length; [reflexivity|].
  rewrite masked_softmax_length; auto.
Qed.

Lemma softmax_raise (x : list (list Np.ext)) (e : exn) :
  softmax x = Raise e -> e = ValueError \/ e = NotANumber.
Proof.
  intros H. apply mapM_raise in H. destruct H as [row [_ Hrow]].
  unfold Np.softmax_row in Hrow. destruct row as [|y t].
  - inversion Hrow. auto.
  - destruct (Np.max_ext (y :: t)); [discriminate|]. inversion Hrow. auto.
Qed.

Lemma marginal_loss_raise (S : list (list R)) (G : list (list bool)) (e : exn) :
  CoreferenceResolver.marginal_loss S G = Raise e ->
  e = ValueError \/ e = NotANumber.
Proof.
  unfold CoreferenceResolver.marginal_loss. intros H.
  destruct (Np.elementwise Np.add_ext S (map (map Np.log01) G)) as [x|e1] eqn:E1;
    simpl in H.
  2: { inversion H; subst. apply elementwise_raise in E1. auto. }
  destruct (softmax x) as [lm|e2] eqn:E2; simpl in H.
  2: { inversion H; subst. apply softmax_raise in E2. exact E2. }
  destruct (softmax (map (map Np.Fin) S)) as [ln|e3] eqn:E3; simpl in H.
  2: { inversion H; subst. apply softmax_raise in E3. exact E3. }
  destruct (Np.elementwise Rminus ln lm) as [g|e4] eqn:E4; simpl in H.
  - discriminate.
  - inversion H; subst. apply elementwise_raise in E4. auto.
Qed.

Section CoreferenceLossMore.

Variables GoldClusters SpanIdxs : Type.
Variable get_clusters_from_doc : Doc -> GoldClusters.
Variable create_head_span_idxs : nat -> SpanIdxs.
Variable create_gold_scores : SpanIdxs -> GoldClusters -> list (list bool).

Local Abbreviation get_loss :=
  (CoreferenceResolver.get_loss get_clusters_from_doc create_head_span_idxs
     create_gold_scores).

Local Abbreviation gscores eg :=
  (create_gold_scores (create_head_span_idxs (n_tokens (predicted eg)))
     (get_clusters_from_doc (reference eg))).

(** X3.  When the gold scores and the candidate indices have as many rows
    each and [CoreferenceResolver.get_loss] gets its gold agreement matrix,
    every candidate index lies in [-n, n) for its row of length n, and
    entry k+1 of a row is the gold score at position [i mod n] of that row
    for its k-th index i: a negative index reads from the end of the row. *)
Theorem gold_agreement_gathers (gs : list (list bool)) (idx : list (list Z))
  (G : list (list bool)) :
  length gs = length idx ->
  CoreferenceResolver.gold_agreement gs idx = Ok G ->
  Forall2 (fun row ix => Forall (in_range (length row)) ix) gs idx
  /\ G = gold_matrix_spec gs idx.
Proof.
  intros Hlen H. destruct (gold_agreement_rows _ _ H) as [top [Htop ->]].
  destruct (take_along_axis_inv _ _ Hlen Htop) as [Hall ->].
  split; [exact Hall | reflexivity].
Qed.

(** X4.  When the gold scores have at least one row (the document has a
    token), every candidate index is in range for its row of gold scores
    and every row of the score matrix has one more column than the row of
    candidate indices, [CoreferenceResolver.get_loss] returns, and the
    gradient has the shape of the score matrix. *)
Theorem get_loss_returns_shaped_gradient (eg : Example) (rest : list Example)
  (S : list (list R)) (idx : list (list Z)) :
  gscores eg <> [] ->
  Forall2 (fun row ix => Forall (in_range (length row)) ix) (gscores eg) idx ->
  Forall2 (fun s ix => length s = Datatypes.S (length ix)) S idx ->
  get_loss (eg :: rest) S idx
  = Ok (sum_squares (gradient_spec S (gold_matrix_spec (gscores eg) idx)),
        gradient_spec S (gold_matrix_spec (gscores eg) idx))
  /\ same_shape (gradient_spec S (gold_matrix_spec (gscores eg) idx)) S.
Proof.
  intros Hne Hidx HS.
  assert (Hlen : length (gscores eg) = length idx)
    by (clear - Hidx; induction Hidx; simpl; congruence).
  pose proof (gold_matrix_shape _ Hlen HS) as Hshape.
  split.
  - apply get_loss_spec; [|exact Hshape]. apply gold_agreement_ok; assumption.
  - apply gradient_spec_shape. exact Hshape.
Qed.

(** X5.  [CoreferenceResolver.get_loss] on an empty list of examples ends
    in the [IndexError] of [examples[0]]; with helpers of [coref_util]
    that return, its indexing and array arithmetic end in no exception
    but [IndexError] and [ValueError]. *)
Theorem coref_get_loss_failures (examples : list Example) (S : list (list R))
  (idx : list (list Z)) (e : exn) :
  get_loss examples S idx = Raise e ->
  (e = IndexError \/ e = ValueError) /\ (examples = [] -> e = IndexError).
Proof.
  intros H. split.
  - unfold CoreferenceResolver.get_loss in H.
    destruct (Np.getitem examples 0) as [eg|e1] eqn:E1; simpl in H.
    2: { inversion H; subst. apply getitem_raise in E1. auto. }
    match type of H with
    | bind ?c _ = _ => destruct c as [G|e2] eqn:E2; simpl in H
    end.
    + destruct (marginal_loss_raise _ _ H) as [Hc|Hc]; [auto|]. subst e.
      exfalso. apply (marginal_loss_never_nan S (G := G)); [|exact H].
      eapply gold_agreement_true_rows. exact E2.
    + inversion H; subst. apply gold_agreement_raise in E2.
      destruct E2; auto.
  - intros ->. unfold CoreferenceResolver.get_loss in H. simpl in H.
    inversion H. reflexivity.
Qed.

End CoreferenceLossMore.

(** ** The gradient of [SpanPredictor.get_loss] *)

Lemma sum_one_hot_from (y a n : nat) :
  Np.sum (map (fun j => Np.b2f (Nat.eqb j y)) (seq a n))
  = if (Nat.leb a y && Nat.ltb y (a + n))%bool then 1%R else 0%R.
Proof.
  revert a. induction n as [|n IH]; intros a; simpl.
  - replace (y <? a + 0)%nat with (y <? a)%nat by (f_equal; lia).
    destruct (Nat.leb a y) eqn:E1; destruct (Nat.ltb y a) eqn:E2; simpl;
      try reflexivity.
    apply Nat.leb_le in E1. apply Nat.ltb_lt in E2. lia.
  - fold (Np.sum (map (fun j => Np.b2f (Nat.eqb j y)) (seq (S a) n))).
    rewrite IH.
    destruct (Nat.eqb a y) eqn:Ea.
    + apply Nat.eqb_eq in Ea. subst a.
      replace (S y <=? y)%nat with false by (symmetry; apply Nat.leb_gt; lia).
      replace (y <=? y)%nat with true by (symmetry; apply Nat.leb_le; lia).
      replace (y <? y + S n)%nat with true by (symmetry; apply Nat.ltb_lt; lia).
      simpl. ring.
    + apply Nat.eqb_neq in Ea.
      replace (y <? a + S n)%nat with (y <? S a + n)%nat by (f_equal; lia).
      destruct (Nat.leb (S a) y) eqn:E1.
      * apply Nat.leb_le in E1.
        replace (a <=? y)%nat with true by (symmetry; apply Nat.leb_le; lia).
        simpl. ring.
      * apply Nat.leb_gt in E1.
        replace (a <=? y)%nat with false by (symmetry; apply Nat.leb_gt; lia).
        simpl. ring.
Qed.

Lemma sum_one_hot (n y : nat) : (y < n)%nat -> Np.sum (Np.one_hot n y) = 1%R.
Proof.
  intros H. unfold Np.one_hot. rewrite sum_one_hot_from. simpl.
  replace (y <? n)%nat with true by (symmetry; apply Nat.ltb_lt; lia).
  reflexivity.
Qed.

Lemma one_hot_length (n y : nat) : length (Np.one_hot n y) = n.
Proof. unfold Np.one_hot. rewrite length_map, length_seq. reflexivity. Qed.

Lemma boundary_gradient_row_sums (scores : list (list R)) (gold : list nat) :
  Forall (fun row => row <> []) scores ->
  Forall2 (fun row y => (y < length row)%nat) scores gold ->
  Forall (fun row => Np.sum row = 0%R) (boundary_gradient scores gold).
Proof.
  unfold boundary_gradient. intros Hne H. revert Hne.
  induction H as [|row y scores' gold' Hy _ IH]; intros Hne; simpl.
  - constructor.
  - inversion Hne; subst. constructor; [|apply IH; assumption].
    rewrite sum_zip_minus by (rewrite softmax_spec_length, one_hot_length; reflexivity).
    rewrite sum_softmax_spec by assumption. rewrite sum_one_hot by exact Hy. ring.
Qed.

Lemma to_categorical_ok (Y : list nat) (n : nat) :
  Y <> [] -> Forall (fun y => (y < n)%nat) Y ->
  Np.to_categorical Y n = Ok (map (Np.one_hot n) Y).
Proof.
  intros Hne H. unfold Np.to_categorical. destruct Y as [|y t]; [contradiction|].
  assert (Hn : n <> 0%nat) by (inversion H; lia).
  apply Nat.eqb_neq in Hn. rewrite Hn. apply mapM_ok. intros x Hx.
  rewrite Forall_forall in H. specialize (H x Hx).
  apply Nat.ltb_lt in H. rewrite H. reflexivity.
Qed.

Lemma boundary_gradient_zip (n : nat) (scores : list (list R)) (gold : list nat) :
  Forall (fun row => length row = n) scores ->
  zip_with (zip_with Rminus) (map softmax_spec scores) (map (Np.one_hot n) gold)
  = boundary_gradient scores gold.
Proof.
  unfold boundary_gradient. intros H. revert gold.
  induction H as [|row scores' Hrow _ IH]; intros [|y gold']; simpl; try reflexivity.
  rewrite IH, Hrow. reflexivity.
Qed.

Lemma boundary_gradient_shape (n : nat) (scores : list (list R)) (gold : list nat) :
  Forall (fun row => length row = n) scores -> length scores = length gold ->
  length (boundary_gradient scores gold) = length scores
  /\ Forall (fun row => length row = n) (boundary_gradient scores gold).
Proof.
  unfold boundary_gradient. intros H. revert gold.
  induction H as [|row scores' Hrow _ IH]; intros [|y gold'] Hlen; simpl in *;
    try discriminate.
  - split; [reflexivity | constructor].
  - destruct (IH gold') as [Hl Hall]; [lia|]. split; [lia|].
    constructor; [|exact Hall].
    rewrite zip_with_length; rewrite softmax_spec_length; [exact Hrow|].
    rewrite one_hot_length. reflexivity.
Qed.

Lemma same_shape_of_rows {A B : Type} (n : nat) (x : list (list A)) (y : list (list B)) :
  length x = length y ->
  Forall (fun row => length row = n) x -> Forall (fun row => length row = n) y ->
  same_shape x y.
Proof.
  unfold same_shape. intros Hlen Hx. revert y Hlen.
  induction Hx as [|r x' Hr _ IH]; intros [|r' y'] Hlen Hy; simpl in *;
    try discriminate; constructor.
  - inversion Hy; subst. congruence.
  - apply IH; [lia|]. inversion Hy; assumption.
Qed.

Lemma stack2_same_shape (a b : list (list R)) :
  same_shape a b ->
  stack2 a b = Ok (zip_with (zip_with (fun x y => (x, y))) a b).
Proof.
  unfold stack2, same_shape. induction 1 as [|r1 r2 a' b' Hr _ IH]; simpl.
  - reflexivity.
  - rewrite (zipM_ok (fun x y : R => (x, y)) _ _ Hr). simpl. rewrite IH. reflexivity.
Qed.

Lemma span_get_loss_single (output_prefix : string) (eg : Example)
  (span_scores : SpanPredictor.Floats3d) :
  SpanPredictor.get_loss output_prefix [eg] span_scores
  = SpanPredictor.loss_of_example output_prefix span_scores eg.
Proof.
  unfold SpanPredictor.get_loss. simpl.
  destruct (SpanPredictor.loss_of_example output_prefix span_scores eg) as [[l g]|e];
    reflexivity.
Qed.

Lemma gold_boundaries_lengths (output_prefix : string) (eg : Example) :
  length (fst (SpanPredictor.gold_boundaries output_prefix eg))
  = length (snd (SpanPredictor.gold_boundaries output_prefix eg)).
Proof.
  unfold SpanPredictor.gold_boundaries.
  assert (Hinner : forall (sg : list Span) (acc : list nat * list nat),
             length (fst acc) = length (snd acc) ->
             length (fst (fold_left (fun acc' mention =>
                            let '(starts, ends) := acc' in
                            (starts ++ [start mention], ends ++ [end_ mention])) sg acc))
             = length (snd (fold_left (fun acc' mention =>
                            let '(starts, ends) := acc' in
                            (starts ++ [start mention], ends ++ [end_ mention])) sg acc))).
  { induction sg as [|m sg IH]; intros [s e] H; simpl in *; [exact H|].
    apply IH. simpl. rewrite !length_app. simpl. lia. }
  generalize (items (spans (reference eg))).
  assert (Hacc : length (fst (@nil nat, @nil nat)) = length (snd (@nil nat, @nil nat)))
    by reflexivity.
  revert Hacc. generalize (@nil nat, @nil nat).
  intros acc Hacc l. revert acc Hacc.
  induction l as [|[key sg] l IH]; intros acc Hacc; simpl; [exact Hacc|].
  apply IH. destruct (String.prefix output_prefix key); [|exact Hacc].
  apply Hinner. exact Hacc.
Qed.

Lemma rows_of_length_map {A B : Type} (f : A -> B) (n : nat) (x : list (list A)) :
  Forall (fun row => length row = n) x ->
  Forall (fun row => length row = n) (map (map f) x).
Proof.
  induction 1; simpl; constructor; [rewrite length_map|]; assumption.
Qed.

Lemma rows_nonempty {A : Type} (n : nat) (x : list (list A)) :
  (0 < n)%nat -> Forall (fun row => length row = n) x ->
  Forall (fun row => row <> []) x.
Proof.
  intros Hn H. apply Forall_forall. intros row Hrow.
  rewrite Forall_forall in H. specialize (H row Hrow).
  destruct row; simpl in H; [lia | discriminate].
Qed.

Lemma gold_in_rows (n : nat) (x : list (list R)) (gold : list nat) :
  length x = length gold ->
  Forall (fun row => length row = n) x -> Forall (fun y => (y < n)%nat) gold ->
  Forall2 (fun row y => (y < length row)%nat) x gold.
Proof.
  intros Hlen Hx. revert gold Hlen.
  induction Hx as [|r x' Hr _ IH]; intros [|y gold'] Hlen Hg; simpl in *;
    try discriminate; constructor.
  - inversion Hg; subst. lia.
  - apply IH; [lia|]. inversion Hg; assumption.
Qed.

Lemma span_get_loss_spec (output_prefix : string) (eg : Example)
  (span_scores : SpanPredictor.Floats3d) (starts ends : list nat) (n : nat) :
  SpanPredictor.gold_boundaries output_prefix eg = (starts, ends) ->
  span_scores <> [] ->
  length starts = length span_scores ->
  (0 < n)%nat ->
  Forall (fun row => length row = n) span_scores ->
  Forall (fun s => (s < n)%nat) starts ->
  Forall (fun e => (e < n)%nat) ends ->
  SpanPredictor.get_loss output_prefix [eg] span_scores
  = Ok (sum_squares3 (span_gradient_spec span_scores starts ends),
        span_gradient_spec span_scores starts ends).
Proof.
  intros Hgold Hne Hlen Hn Hrows Hs He.
  assert (Hlen' : length ends = length span_scores).
  { pose proof (gold_boundaries_lengths output_prefix eg) as H.
    rewrite Hgold in H. simpl in H. lia. }
  pose proof (rows_of_length_map fst Hrows) as Hrs.
  pose proof (rows_of_length_map snd Hrows) as Hre.
  pose proof (rows_nonempty Hn Hrs) as Hns.
  pose proof (rows_nonempty Hn Hre) as Hne'.
  assert (Hshape1 : shape1 (map (map fst) span_scores) = n).
  { destruct span_scores as [|row t]; [contradiction|]. simpl.
    inversion Hrows; subst. apply length_map. }
  assert (Hsne : starts <> []).
  { destruct starts; [|discriminate]. destruct span_scores; [contradiction|].
    simpl in Hlen. discriminate. }
  assert (Hene : ends <> []).
  { destruct ends; [|discriminate]. destruct span_scores; [contradiction|].
    simpl in Hlen'. discriminate. }
  rewrite span_get_loss_single. unfold SpanPredictor.loss_of_example.
  rewrite Hgold, Hshape1.
  rewrite (softmax_fin_rows Hns). simpl.
  rewrite (softmax_fin_rows Hne'). simpl.
  rewrite (to_categorical_ok Hsne Hs). simpl.
  rewrite (to_categorical_ok Hene He). simpl.
  destruct (boundary_gradient_shape starts Hrs) as [Hl1 Hr1];
    [rewrite length_map; lia|].
  destruct (boundary_gradient_shape ends Hre) as [Hl2 Hr2];
    [rewrite length_map; lia|].
  rewrite elementwise_same_shape.
  2: { apply (same_shape_of_rows (n := n)).
       - rewrite !length_map. lia.
       - clear - Hrs. induction Hrs; simpl; constructor;
           [rewrite softmax_spec_length|]; assumption.
       - apply Forall_forall. intros r Hr. apply in_map_iff in Hr.
         destruct Hr as [y [<- _]]. apply one_hot_length. }
  simpl. rewrite elementwise_same_shape.
  2: { apply (same_shape_of_rows (n := n)).
       - rewrite !length_map. lia.
       - clear - Hre. induction Hre; simpl; constructor;
           [rewrite softmax_spec_length|]; assumption.
       - apply Forall_forall. intros r Hr. apply in_map_iff in Hr.
         destruct Hr as [y [<- _]]. apply one_hot_length. }
  simpl. rewrite !(boundary_gradient_zip _ Hrs), !(boundary_gradient_zip _ Hre).
  rewrite stack2_same_shape.
  + reflexivity.
  + apply (same_shape_of_rows (n := n)); try assumption.
    rewrite Hl1, Hl2, !length_map. reflexivity.
Qed.

(** X6.  For one example whose gold spans under the output prefix are as
    many as the rows of the score tensor, with every gold start and end
    below the number n > 0 of token columns, [SpanPredictor.get_loss]
    returns the stacked gradient whose start and end parts are, per
    mention, the softmax of the scores minus the one-hot vector of the gold
    position; every row of either part sums to 0. *)
Theorem span_loss_gradient_is_softmax_minus_one_hot (output_prefix : string) (eg : Example)
  (span_scores : SpanPredictor.Floats3d) (starts ends : list nat) (n : nat) :
  SpanPredictor.gold_boundaries output_prefix eg = (starts, ends) ->
  span_scores <> [] ->
  length starts = length span_scores ->
  (0 < n)%nat ->
  Forall (fun row => length row = n) span_scores ->
  Forall (fun s => (s < n)%nat) starts ->
  Forall (fun e => (e < n)%nat) ends ->
  SpanPredictor.get_loss output_prefix [eg] span_scores
  = Ok (sum_squares3 (span_gradient_spec span_scores starts ends),
        span_gradient_spec span_scores starts ends)
  /\ Forall (fun row => Np.sum row = 0%R)
            (boundary_gradient (map (map fst) span_scores) starts)
  /\ Forall (fun row => Np.sum row = 0%R)
            (boundary_gradient (map (map snd) span_scores) ends).
Proof.
  intros Hgold Hne Hlen Hn Hrows Hs He.
  assert (Hlen' : length ends = length span_scores).
  { pose proof (gold_boundaries_lengths output_prefix eg) as H.
    rewrite Hgold in H. simpl in H. lia. }
  pose proof (rows_of_length_map fst Hrows) as Hrs.
  pose proof (rows_of_length_map snd Hrows) as Hre.
  pose proof (rows_nonempty Hn Hrs) as Hns.
  pose proof (rows_nonempty Hn Hre) as Hne'.
  assert (Hshape1 : shape1 (map (map fst) span_scores) = n).
  { destruct span_scores as [|row t]; [contradiction|]. simpl.
    inversion Hrows; subst. apply length_map. }
  assert (Hsne : starts <> []).
  { destruct starts; [|discriminate]. destruct span_scores; [contradiction|].
    simpl in Hlen. discriminate. }
  assert (Hene : ends <> []).
  { destruct ends; [|discriminate]. destruct span_scores; [contradiction|].
    simpl in Hlen'. discriminate. }
  split; [|split].
  - eapply span_get_loss_spec; eassumption.
  - apply boundary_gradient_row_sums; [exact Hns|].
    apply (gold_in_rows (n := n)); try assumption. rewrite length_map. lia.
  - apply boundary_gradient_row_sums; [exact Hne'|].
    apply (gold_in_rows (n := n)); try assumption. rewrite length_map. lia.
Qed.

Lemma mapM_first_raise {A B : Type} (f : A -> Result B) (l : list A) (e : exn) :
  (forall x e', In x l -> f x = Raise e' -> e' = e) ->
  Exists (fun x => exists e', f x = Raise e') l ->
  mapM f l = Raise e.
Proof.
  intros Honly Hex. induction Hex as [x t [e' Hx]|x t _ IH]; simpl.
  - rewrite Hx. simpl. f_equal. apply (Honly x); [left; reflexivity | exact Hx].
  - destruct (f x) as [y|e'] eqn:Ex; simpl.
    + rewrite IH; [reflexivity|]. intros z e'' Hz. apply Honly. right. exact Hz.
    + f_equal. apply (Honly x); [left; reflexivity | exact Ex].
Qed.

Lemma to_categorical_index_error (Y : list nat) (n : nat) :
  n <> 0%nat ->
  Y = [] \/ Exists (fun y => (n <= y)%nat) Y ->
  Np.to_categorical Y n = Raise IndexError.
Proof.
  intros Hn H. unfold Np.to_categorical. destruct Y as [|y t]; [reflexivity|].
  apply Nat.eqb_neq in Hn. rewrite Hn.
  destruct H as [H|H]; [discriminate|].
  apply mapM_first_raise.
  - intros x e' _ Hx. destruct (Nat.ltb x n); [discriminate|].
    inversion Hx. reflexivity.
  - eapply Exists_impl; [|exact H]. intros a Ha. simpl in Ha.
    exists IndexError. replace (a <? n)%nat with false; [reflexivity|].
    symmetry. apply Nat.ltb_ge. exact Ha.
Qed.

Lemma to_categorical_raise (Y : list nat) (n : nat) (e : exn) :
  Np.to_categorical Y n = Raise e -> e = IndexError \/ e = ValueError.
Proof.
  unfold Np.to_categorical. destruct Y as [|y t]; intros H.
  - inversion H. auto.
  - destruct (Nat.eqb n 0); [inversion H; auto|].
    apply mapM_raise in H. destruct H as [x [_ Hx]].
    destruct (Nat.ltb x n); [discriminate|]. inversion Hx. auto.
Qed.

(** X7.  For one example and a score tensor with at least one mention and
    no empty row, [SpanPredictor.get_loss] ends in [IndexError] when the
    example has no gold span under the output prefix, and when a gold
    start or a gold end is not below the number of token columns (as the
    end of a span that reaches the last column is). *)
Theorem span_get_loss_gold_out_of_range (output_prefix : string) (eg : Example)
  (span_scores : SpanPredictor.Floats3d) (starts ends : list nat) :
  SpanPredictor.gold_boundaries output_prefix eg = (starts, ends) ->
  span_scores <> [] ->
  Forall (fun row => row <> []) span_scores ->
  starts = []
  \/ Exists (fun s => (shape1 span_scores <= s)%nat) starts
  \/ Exists (fun e => (shape1 span_scores <= e)%nat) ends ->
  SpanPredictor.get_loss output_prefix [eg] span_scores = Raise IndexError.
Proof.
  intros Hgold Hne Hrows Hbad.
  assert (Hlen : length starts = length ends).
  { pose proof (gold_boundaries_lengths output_prefix eg) as H.
    rewrite Hgold in H. exact H. }
  assert (Hshape : shape1 (map (map fst) span_scores) = shape1 span_scores).
  { destruct span_scores; simpl; [reflexivity | apply length_map]. }
  assert (Hn : shape1 span_scores <> 0%nat).
  { destruct span_scores as [|row t]; [contradiction|]. simpl.
    inversion Hrows; subst. destruct row; [contradiction | discriminate]. }
  assert (Hmap : forall (p : R * R -> R),
             Forall (fun row => row <> []) (map (map p) span_scores)).
  { intros p. apply Forall_forall. intros r Hr. apply in_map_iff in Hr.
    destruct Hr as [row [<- Hrow]]. rewrite Forall_forall in Hrows.
    specialize (Hrows row Hrow). destruct row; [contradiction | discriminate]. }
  rewrite span_get_loss_single. unfold SpanPredictor.loss_of_example.
  rewrite Hgold, Hshape.
  rewrite (softmax_fin_rows (Hmap fst)). simpl.
  rewrite (softmax_fin_rows (Hmap snd)). simpl.
  destruct (Np.to_categorical starts (shape1 span_scores)) as [st|e] eqn:Es; simpl.
  - rewrite to_categorical_index_error; [reflexivity | exact Hn |].
    destruct Hbad as [H|[H|H]].
    + subst starts. left. destruct ends; [reflexivity | discriminate].
    + rewrite to_categorical_index_error in Es; [discriminate | exact Hn | auto].
    + right. exact H.
  - f_equal. destruct Hbad as [H|[H|H]].
    + rewrite to_categorical_index_error in Es; [|exact Hn | auto].
      inversion Es. reflexivity.
    + rewrite to_categorical_index_error in Es; [|exact Hn | auto].
      inversion Es. reflexivity.
    + unfold Np.to_categorical in Es. destruct starts as [|s t].
      * inversion Es. reflexivity.
      * apply Nat.eqb_neq in Hn. rewrite Hn in Es.
        apply mapM_raise in Es. destruct Es as [x [_ Hx]].
        destruct (Nat.ltb x (shape1 span_scores)); [discriminate|].
        inversion Hx. reflexivity.
Qed.

Lemma loss_of_example_raise (output_prefix : string)
  (span_scores : SpanPredictor.Floats3d) (eg : Example) (e : exn) :
  SpanPredictor.loss_of_example output_prefix span_scores eg = Raise e ->
  e = ValueError \/ e = IndexError.
Proof.
  intros H.
  assert (Hnan := @loss_of_example_never_nan output_prefix span_scores eg).
  unfold SpanPredictor.loss_of_example in *.
  destruct (SpanPredictor.gold_boundaries output_prefix eg) as [starts ends].
  destruct (softmax (map (map Np.Fin) (map (map fst) span_scores)))
    as [sp|e1] eqn:E1; simpl in *.
  2: { inversion H; subst. apply softmax_raise in E1. destruct E1; [auto|].
       subst. contradiction. }
  destruct (softmax (map (map Np.Fin) (map (map snd) span_scores)))
    as [ep|e2] eqn:E2; simpl in *.
  2: { inversion H; subst. apply softmax_raise in E2. destruct E2; [auto|].
       subst. contradiction. }
  destruct (Np.to_categorical starts _) as [st|e3] eqn:E3; simpl in *.
  2: { inversion H; subst. apply to_categorical_raise in E3. destruct E3; auto. }
  destruct (Np.to_categorical ends _) as [et|e4] eqn:E4; simpl in *.
  2: { inversion H; subst. apply to_categorical_raise in E4. destruct E4; auto. }
  destruct (Np.elementwise Rminus sp st) as [sg|e5] eqn:E5; simpl in *.
  2: { inversion H; subst. apply elementwise_raise in E5. auto. }
  destruct (Np.elementwise Rminus ep et) as [eg'|e6] eqn:E6; simpl in *.
  2: { inversion H; subst. apply elementwise_raise in E6. auto. }
  destruct (stack2 sg eg') as [g|e7] eqn:E7; simpl in *.
  - discriminate.
  - inversion H; subst. apply stack2_raise in E7. auto.
Qed.

(** X8.  Whatever it is given, [SpanPredictor.get_loss] ends in no
    exception but [AssertionError] (a list that is not of one example),
    [ValueError] or [IndexError]: after the assertion the loop always runs
    once, so [loss] and [grads] are bound at the [return]. *)
Theorem span_get_loss_failures (output_prefix : string) (examples : list Example)
  (span_scores : SpanPredictor.Floats3d) (e : exn) :
  SpanPredictor.get_loss output_prefix examples span_scores = Raise e ->
  (e = AssertionError /\ length examples <> 1%nat)
  \/ (length examples = 1%nat /\ (e = ValueError \/ e = IndexError)).
Proof.
  intros H. destruct examples as [|eg [|eg' rest]].
  - left. inversion H. split; [reflexivity | discriminate].
  - right. split; [reflexivity|]. rewrite span_get_loss_single in H.
    eapply loss_of_example_raise. exact H.
  - left. inversion H. split; [reflexivity | discriminate].
Qed.

(** ** [update] accumulates a loss that is not negative *)

Lemma setdefault_lookup (key : string) (losses : dict R) :
  lookup key (setdefault key 0%R losses)
  = Ok (match get key losses with Some v => v | None => 0%R end).
Proof.
  unfold lookup. destruct (setdefault_unchanged_but_key key losses) as [H _].
  rewrite H. reflexivity.
Qed.

Lemma setdefault_get_other (key k : string) (losses : dict R) :
  k <> key -> get k (setdefault key 0%R losses) = get k losses.
Proof.
  intros H. destruct (setdefault_unchanged_but_key key losses) as [_ [Ho _]].
  apply Ho. exact H.
Qed.

Lemma coref_update_loop_grows (GoldClusters SpanIdxs : Type)
  (get_clusters_from_doc : Doc -> GoldClusters)
  (create_head_span_idxs : nat -> SpanIdxs)
  (create_gold_scores : SpanIdxs -> GoldClusters -> list (list bool))
  (Model Optimizer : Type)
  (ops : ModelOps Model Optimizer CoreferenceResolver.Preds CoreferenceResolver.Preds)
  (examples : list Example) (t t' : R) (m m' : Model) :
  CoreferenceResolver.update_loop get_clusters_from_doc create_head_span_idxs
    create_gold_scores ops examples t m = Ok (t', m') ->
  (t <= t')%R.
Proof.
  revert t m. induction examples as [|eg rest IH]; intros t m H; simpl in H.
  - inversion H. lra.
  - destruct (model_begin_update ops m [predicted eg]) as [[sm mi] bp].
    destruct (CoreferenceResolver.get_loss get_clusters_from_doc
                create_head_span_idxs create_gold_scores [eg] sm mi)
      as [[loss d]|e] eqn:E; simpl in H; [|discriminate].
    apply IH in H. apply get_loss_is_sum_squares in E. subst loss.
    pose proof (sum_squares_nonneg d). lra.
Qed.

Lemma span_update_loop_grows (output_prefix : string) (Model Optimizer : Type)
  (ops : ModelOps Model Optimizer SpanPredictor.Floats3d SpanPredictor.Floats3d)
  (examples : list Example) (t t' : R) (m m' : Model) :
  SpanPredictor.update_loop output_prefix ops examples t m = Ok (t', m') ->
  (t <= t')%R.
Proof.
  revert t m. induction examples as [|eg rest IH]; intros t m H; simpl in H.
  - inversion H. lra.
  - destruct (model_begin_update ops m [reference eg]) as [sc bp].
    destruct (SpanPredictor.get_loss output_prefix [eg] sc) as [[loss d]|e] eqn:E;
      simpl in H; [|discriminate].
    apply IH in H. apply span_get_loss_sum_squares in E. subst loss.
    pose proof (sum_squares3_nonneg d). lra.
Qed.

(** X9.  When [CoreferenceResolver.update] returns, the entry of the
    component in the losses is its prior value (zero if it had none) plus
    a total that is not negative, and every other entry is as it was. *)
Theorem coref_update_accumulates (name : string) (GoldClusters SpanIdxs : Type)
  (get_clusters_from_doc : Doc -> GoldClusters)
  (create_head_span_idxs : nat -> SpanIdxs)
  (create_gold_scores : SpanIdxs -> GoldClusters -> list (list bool))
  (Model Optimizer : Type)
  (ops : ModelOps Model Optimizer CoreferenceResolver.Preds CoreferenceResolver.Preds)
  (examples : list Example) (drop : R) (sgd : option Optimizer)
  (losses : option (dict R)) (model model' : Model) (losses' : dict R) :
  CoreferenceResolver.update name get_clusters_from_doc create_head_span_idxs
    create_gold_scores ops examples drop sgd losses model = Ok (losses', model') ->
  exists total,
    (0 <= total)%R
    /\ get name losses'
       = Some (match get name (given_losses losses) with
               | Some v => v
               | None => 0
               end + total)%R
    /\ forall k, k <> name -> get k losses' = get k (given_losses losses).
Proof.
  unfold CoreferenceResolver.update. fold (given_losses losses). intros H.
  destruct (negb (any_tokens (map predicted examples))).
  - inversion H; subst. exists 0%R. split; [lra|]. split.
    + destruct (setdefault_unchanged_but_key name (given_losses losses)) as [Hg _].
      rewrite Hg. f_equal. ring.
    + intros k Hk. apply setdefault_get_other. exact Hk.
  - destruct (CoreferenceResolver.update_loop _ _ _ _ _ _ _) as [[t m]|e] eqn:E;
      simpl in H; [|discriminate].
    rewrite setdefault_lookup in H. simpl in H. inversion H; subst.
    apply coref_update_loop_grows in E.
    exists t. split; [exact E|]. split.
    + apply get_setitem_same.
    + intros k Hk. rewrite get_setitem_other by exact Hk.
      apply setdefault_get_other. exact Hk.
Qed.

(** X10.  When [SpanPredictor.update] returns, the entry of the component
    in the losses is its prior value (zero if it had none) plus a total
    that is not negative, and every other entry is as it was. *)
Theorem span_update_accumulates (name output_prefix : string)
  (Model Optimizer : Type)
  (ops : ModelOps Model Optimizer SpanPredictor.Floats3d SpanPredictor.Floats3d)
  (examples : list Example) (drop : R) (sgd : option Optimizer)
  (losses : option (dict R)) (model model' : Model) (losses' : dict R) :
  SpanPredictor.update name output_prefix ops examples drop sgd losses model
  = Ok (losses', model') ->
  exists total,
    (0 <= total)%R
    /\ get name losses'
       = Some (match get name (given_losses losses) with
               | Some v => v
               | None => 0
               end + total)%R
    /\ forall k, k <> name -> get k losses' = get k (given_losses losses).
Proof.
  unfold SpanPredictor.update. fold (given_losses losses). intros H.
  destruct (negb (any_tokens (map reference examples))).
  - inversion H; subst. exists 0%R. split; [lra|]. split.
    + destruct (setdefault_unchanged_but_key name (given_losses losses)) as [Hg _].
      rewrite Hg. f_equal. ring.
    + intros k Hk. apply setdefault_get_other. exact Hk.
  - destruct (SpanPredictor.update_loop _ _ _ _ _) as [[t m]|e] eqn:E;
      simpl in H; [|discriminate].
    rewrite setdefault_lookup in H. simpl in H. inversion H; subst.
    apply span_update_loop_grows in E.
    exists t. split; [exact E|]. split.
    + apply get_setitem_same.
    + intros k Hk. rewrite get_setitem_other by exact Hk.
      apply setdefault_get_other. exact Hk.
Qed.

(** ** [CoreferenceResolver.rehearse] *)

Lemma any_len_none (docs : list Doc) :
  Forall (fun d => n_tokens d = 0%nat) docs -> CoreferenceResolver.any_len docs = false.
Proof.
  induction 1 as [|d t Hd _ IH]; simpl.
  - reflexivity.
  - rewrite Hd. simpl. exact IH.
Qed.

(** X11.  Without a rehearsal model (the state [__init__] leaves), and
    also when no predicted document has a token, [rehearse] returns the
    model as it was given; a losses dictionary gets the component's key
    with its prior value or zero, and [None] for the losses stays [None]
    (where [update] would make a dictionary). *)
Theorem rehearse_without_rehearsal_model (name : string) (Model Optimizer : Type)
  (ops : ModelOps Model Optimizer CoreferenceResolver.Preds CoreferenceResolver.Preds)
  (rehearsal_model : option (list Example -> CoreferenceResolver.Preds))
  (subtract : CoreferenceResolver.Preds -> CoreferenceResolver.Preds ->
              Result CoreferenceResolver.Preds)
  (sum_of_squares : CoreferenceResolver.Preds -> Result R)
  (examples : list Example) (drop : R) (sgd : option Optimizer)
  (losses : option (dict R)) (model : Model) :
  rehearsal_model = None
  \/ Forall (fun eg => n_tokens (predicted eg) = 0%nat) examples ->
  CoreferenceResolver.rehearse name ops rehearsal_model subtract sum_of_squares
    examples drop sgd losses model
  = Ok (match losses with
        | Some l => Some (setdefault name 0%R l)
        | None => None
        end, model).
Proof.
  intros H. unfold CoreferenceResolver.rehearse.
  destruct rehearsal_model as [rm|]; [|reflexivity].
  destruct H as [H|H]; [discriminate|].
  rewrite any_len_none; [reflexivity|]. apply Forall_map. exact H.
Qed.

(** ** [SpanPredictor.initialize] *)

Section SpanInitialize.

Variable input_prefix : string.
Variable doc_slice : Doc -> Z -> Z -> Span.
Variable Model : Type.
Variable validate_get_examples : list Example -> Result unit.
Variable model_initialize : Model -> list Doc -> list Doc -> Model.

Lemma initialize_loop_done (examples seen : list Example) (X Y X' Y' : list Doc) :
  SpanPredictor.initialize_loop input_prefix doc_slice examples X Y
  = (seen, (X', Y'), None) ->
  Forall2 (prepared input_prefix doc_slice) examples seen
  /\ X' = X ++ map predicted seen
  /\ Y' = Y ++ map reference seen.
Proof.
  revert seen X Y. induction examples as [|ex rest IH]; intros seen X Y H; simpl in H.
  - inversion H; subst. rewrite !app_nil_r. repeat split. constructor.
  - destruct (spans (predicted ex)) as [|item others] eqn:Es.
    + destruct (negb (Nat.ltb 2 (n_tokens (predicted ex)))) eqn:En; [discriminate|].
      apply negb_false_iff, Nat.ltb_lt in En.
      match type of H with
      | context [SpanPredictor.initialize_loop _ _ rest ?x ?y] =>
          destruct (SpanPredictor.initialize_loop input_prefix doc_slice rest x y)
            as [[rest' [X1 Y1]] e] eqn:E
      end.
      inversion H; subst. destruct (IH _ _ _ E) as [Hall [-> ->]].
      split; [|split; rewrite <- app_assoc; reflexivity].
      constructor; [|exact Hall]. unfold prepared. simpl.
      split; [reflexivity|]. split; [reflexivity|]. split.
      * intros Hne. congruence.
      * intros _. split; [exact En | reflexivity].
    + match type of H with
      | context [SpanPredictor.initialize_loop _ _ rest ?x ?y] =>
          destruct (SpanPredictor.initialize_loop input_prefix doc_slice rest x y)
            as [[rest' [X1 Y1]] e] eqn:E
      end.
      inversion H; subst. destruct (IH _ _ _ E) as [Hall [-> ->]].
      split; [|split; rewrite <- app_assoc; reflexivity].
      constructor; [|exact Hall]. unfold prepared.
      split; [reflexivity|]. split; [reflexivity|]. split.
      * intros _. reflexivity.
      * intros Hem. rewrite Hem in Es. discriminate.
Qed.

Lemma initialize_loop_asserts (examples : list Example) (X Y : list Doc) :
  Exists (fun ex => spans (predicted ex) = []
                    /\ (n_tokens (predicted ex) <= 2)%nat) examples ->
  snd (SpanPredictor.initialize_loop input_prefix doc_slice examples X Y)
  = Some AssertionError.
Proof.
  revert X Y. induction examples as [|ex rest IH]; intros X Y H.
  - inversion H.
  - simpl. destruct (spans (predicted ex)) as [|item others] eqn:Es.
    + destruct (Nat.ltb 2 (n_tokens (predicted ex))) eqn:En; simpl; [|reflexivity].
      apply Nat.ltb_lt in En.
      assert (Hrest : Exists (fun ex => spans (predicted ex) = []
                                        /\ (n_tokens (predicted ex) <= 2)%nat) rest).
      { inversion H as [? ? [_ Hle]|]; subst; [lia | assumption]. }
      match goal with
      | |- context [SpanPredictor.initialize_loop _ _ rest ?x ?y] =>
          specialize (IH x y Hrest);
          destruct (SpanPredictor.initialize_loop input_prefix doc_slice rest x y)
            as [[rest' XY] e]
      end.
      exact IH.
    + assert (Hrest : Exists (fun ex => spans (predicted ex) = []
                                        /\ (n_tokens (predicted ex) <= 2)%nat) rest).
      { inversion H as [? ? [Hs _]|]; subst; [congruence | assumption]. }
      match goal with
      | |- context [SpanPredictor.initialize_loop _ _ rest ?x ?y] =>
          specialize (IH x y Hrest);
          destruct (SpanPredictor.initialize_loop input_prefix doc_slice rest x y)
            as [[rest' XY] e]
      end.
      exact IH.
Qed.

(** X12.  When [SpanPredictor.initialize] succeeds, the examples after the
    second are as they were; of each of the first two, the reference is
    as it was, a predicted document that had spans is as it was, and one
    that had none has more than two tokens and now holds the placeholder
    cluster [doc[0:1], doc[1:2]] under [input_prefix_0]; the model was
    initialized on these predicted and reference documents, at least one. *)
Theorem span_initialize_prepares (get_examples examples' : list Example)
  (model model' : Model) :
  SpanPredictor.initialize input_prefix doc_slice validate_get_examples
    model_initialize get_examples model = (examples', Ok model') ->
  exists seen,
    examples' = seen ++ skipn 2 get_examples
    /\ Forall2 (prepared input_prefix doc_slice) (firstn 2 get_examples) seen
    /\ seen <> []
    /\ model' = model_initialize model (map predicted seen) (map reference seen).
Proof.
  unfold SpanPredictor.initialize. intros H.
  destruct (validate_get_examples get_examples); [|inversion H].
  destruct (SpanPredictor.initialize_loop input_prefix doc_slice
              (firstn 2 get_examples) [] []) as [[seen [X Y]] e] eqn:E.
  destruct e as [e|]; [inversion H|].
  destruct (initialize_loop_done _ _ _ E) as [Hall [-> ->]]. simpl in H.
  destruct (Nat.ltb 0 (length (map predicted seen))) eqn:En; inversion H; subst.
  exists seen. repeat split; try assumption.
  apply Nat.ltb_lt in En. rewrite length_map in En.
  destruct seen; [simpl in En; lia | discriminate].
Qed.

(** X13.  When the examples pass validation and one of the first two has
    a predicted document without spans and with at most two tokens
    (exactly two included), [SpanPredictor.initialize] ends in the
    [AssertionError] of [assert len(doc) > 2]. *)
Theorem span_initialize_asserts (get_examples : list Example) (model : Model) :
  validate_get_examples get_examples = Ok tt ->
  Exists (fun ex => spans (predicted ex) = []
                    /\ (n_tokens (predicted ex) <= 2)%nat) (firstn 2 get_examples) ->
  snd (SpanPredictor.initialize input_prefix doc_slice validate_get_examples
         model_initialize get_examples model) = Raise AssertionError.
Proof.
  intros Hv Hbad. unfold SpanPredictor.initialize. rewrite Hv.
  pose proof (initialize_loop_asserts [] [] Hbad) as Hloop.
  destruct (SpanPredictor.initialize_loop input_prefix doc_slice
              (firstn 2 get_examples) [] []) as [[seen [X Y]] e].
  simpl in Hloop. subst e. reflexivity.
Qed.

End SpanInitialize.

(** ** [SpanPredictor.score] *)

Lemma span_average_fields_three (f1 p1 r1 f2 p2 r2 f3 p3 r3 : R) :
  SpanPredictor.average_fields ["f"; "p"; "r"]%string
    [ [("coref_span_f", f1); ("coref_span_p", p1); ("coref_span_r", r1)];
      [("coref_span_f", f2); ("coref_span_p", p2); ("coref_span_r", r2)];
      [("coref_span_f", f3); ("coref_span_p", p3); ("coref_span_r", r3)] ]%string []
  = Ok [ ("coref_span_f", macro_average f1 f2 f3);
         ("coref_span_p", macro_average p1 p2 p3);
         ("coref_span_r", macro_average r1 r2 r3) ]%string.
Proof.
  cbn [SpanPredictor.average_fields String.append].
  cbn [mapM lookup get String.eqb Ascii.eqb Bool.eqb bind].
  rewrite !mean3. reflexivity.
Qed.

Section SpanScoring.

Variable output_prefix : string.
Variable doc2clusters : Doc -> string -> MentionClusters.
Variables ClusterInfo Metric Evaluator : Type.
Variable get_cluster_info : MentionClusters -> MentionClusters -> ClusterInfo.
Variables b_cubed muc ceafe : Metric.
Variable new_evaluator : Metric -> Evaluator.
Variable evaluator_update : Evaluator -> ClusterInfo -> Evaluator.
Variables get_f1 get_precision get_recall : Evaluator -> R.

Local Abbreviation score :=
  (SpanPredictor.score output_prefix doc2clusters get_cluster_info b_cubed muc ceafe
     new_evaluator evaluator_update get_f1 get_precision get_recall).

Local Abbreviation evaluated examples metric :=
  (fold_left evaluator_update
     (cluster_infos doc2clusters get_cluster_info output_prefix examples)
     (new_evaluator metric)).

Lemma span_evaluate_infos (examples : list Example) (metric : Metric) :
  SpanPredictor.evaluate output_prefix doc2clusters get_cluster_info new_evaluator
    evaluator_update examples metric
  = evaluated examples metric.
Proof.
  unfold SpanPredictor.evaluate, cluster_infos.
  generalize (new_evaluator metric).
  induction examples as [|ex rest IH]; intros ev; simpl; [reflexivity | apply IH].
Qed.

Lemma span_score_value (examples : list Example) :
  score examples
  = Ok [ ("coref_span_f"%string,
          macro_average (get_f1 (evaluated examples b_cubed))
                        (get_f1 (evaluated examples muc))
                        (get_f1 (evaluated examples ceafe)));
         ("coref_span_p"%string,
          macro_average (get_precision (evaluated examples b_cubed))
                        (get_precision (evaluated examples muc))
                        (get_precision (evaluated examples ceafe)));
         ("coref_span_r"%string,
          macro_average (get_recall (evaluated examples b_cubed))
                        (get_recall (evaluated examples muc))
                        (get_recall (evaluated examples ceafe))) ].
Proof.
  unfold SpanPredictor.score, SpanPredictor.score_metric. cbn [map].
  rewrite !span_evaluate_infos. apply span_average_fields_three.
Qed.

(** X14.  For every list of examples [SpanPredictor.score] returns, without
    raising, the three entries coref_span_f, coref_span_p and coref_span_r
    in this order; each is the mean over B-cubed, MUC and CEAF-entity of
    what the getter reads from the evaluator of that metric after that one
    evaluator has been updated with every example in order. *)
Theorem span_score_is_mean_over_metrics (examples : list Example) :
  score examples
  = Ok [ ("coref_span_f"%string,
          macro_average (get_f1 (evaluated examples b_cubed))
                        (get_f1 (evaluated examples muc))
                        (get_f1 (evaluated examples ceafe)));
         ("coref_span_p"%string,
          macro_average (get_precision (evaluated examples b_cubed))
                        (get_precision (evaluated examples muc))
                        (get_precision (evaluated examples ceafe)));
         ("coref_span_r"%string,
          macro_average (get_recall (evaluated examples b_cubed))
                        (get_recall (evaluated examples muc))
                        (get_recall (evaluated examples ceafe))) ].
Proof.
  unfold SpanPredictor.score, SpanPredictor.score_metric. cbn [map].
  rewrite !span_evaluate_infos.
  cbn [SpanPredictor.average_fields String.append].
  cbn [mapM lookup get String.eqb Ascii.eqb Bool.eqb bind].
  rewrite !mean3. reflexivity.
Qed.

Lemma span_score_keys (examples : list Example) (out : dict R) :
  score examples = Ok out ->
  map fst out = ["coref_span_f"; "coref_span_p"; "coref_span_r"]%string.
Proof.
  unfold SpanPredictor.score, SpanPredictor.score_metric. cbn [map].
  rewrite span_average_fields_three. intros H. inversion H. reflexivity.
Qed.

(** X15.  No key of the dictionary that [SpanPredictor.score] returns is a
    key of the [default_score_weights] of the [span_predictor] factory:
    the scores are named coref_span_f, coref_span_p and coref_span_r, the
    weights span_predictor_f, span_predictor_p and span_predictor_r. *)
Theorem span_score_keys_miss_default_weights (examples : list Example)
  (out : dict R) (k : string) :
  score examples = Ok out ->
  contains k out = true ->
  contains k SpanPredictor.default_score_weights = false.
Proof.
  intros H Hk. apply span_score_keys in H.
  apply contains_get in Hk. destruct Hk as [v Hv].
  assert (Hin : In k (map fst out)).
  { clear - Hv. induction out as [|[k' v'] t IH]; simpl in *; [discriminate|].
    destruct (String.eqb k' k) eqn:E.
    - left. apply String.eqb_eq. exact E.
    - right. apply IH. exact Hv. }
  rewrite H in Hin. simpl in Hin.
  destruct Hin as [<-|[<-|[<-|[]]]]; reflexivity.
Qed.

End SpanScoring.

(** ** [predict] followed by [set_annotations] *)

Lemma mapM_nth_error_ok {A B : Type} (f : A -> Result B) (l : list A) (r : list B) :
  mapM f l = Ok r ->
  forall j x, nth_error l j = Some x ->
              exists y, nth_error r j = Some y /\ f x = Ok y.
Proof.
  intros H j x Hx. destruct (mapM_nth_error _ _ _ H Hx) as [y [Hy Hn]].
  exists y. auto.
Qed.

Lemma span_annotate_docs_nth (output_prefix : string)
  (doc_slice : Doc -> Z -> Z -> Span) (docs : list Doc)
  (clusters_by_doc : list MentionClusters) (j : nat) (doc : Doc)
  (clusters : MentionClusters) :
  nth_error docs j = Some doc -> nth_error clusters_by_doc j = Some clusters ->
  nth_error (SpanPredictor.annotate_docs output_prefix doc_slice docs clusters_by_doc) j
  = Some (SpanPredictor.annotate_clusters output_prefix doc_slice 0 clusters doc).
Proof.
  revert clusters_by_doc j. induction docs as [|d ds IH]; intros [|c cs] j Hd Hc;
    try (destruct j; discriminate).
  destruct j as [|j]; simpl in *.
  - inversion Hd; inversion Hc; subst. reflexivity.
  - apply IH; assumption.
Qed.

(** X1.  When slicing looks at the tokens only, the two sequences are of
    one length and no document holds any of the keys its clusters need,
    [CoreferenceResolver.set_annotations] raises nothing, and afterwards
    each document holds under [prefix_i] the slices of its i-th cluster,
    in order, and under every other key what it held. *)
Theorem coref_set_annotations_writes_clusters (span_cluster_prefix : string)
  (doc_slice : Doc -> Z -> Z -> Span) (docs : list Doc)
  (clusters_by_doc : list MentionClusters) :
  slice_ignores_spans doc_slice ->
  Forall2 (fresh span_cluster_prefix) docs clusters_by_doc ->
  exists docs',
    CoreferenceResolver.set_annotations span_cluster_prefix doc_slice docs clusters_by_doc
    = (docs', None)
    /\ Forall2 (fun dc doc' => annotated span_cluster_prefix doc_slice (fst dc) (snd dc) doc')
               (combine docs clusters_by_doc) docs'.
Proof.
  intros Hslice H. apply coref_set_annotations_fresh; assumption.
Qed.

(** X2.  When slicing looks at the tokens only, [SpanPredictor.set_annotations]
    raises nothing and returns as many documents as it was given; a
    document that has a cluster list holds afterwards under [prefix_i] the
    slices of its i-th cluster, whatever was there before, and under every
    other key what it held; a document beyond the last cluster list is as
    it was. *)
Theorem span_set_annotations_writes_clusters (output_prefix : string)
  (doc_slice : Doc -> Z -> Z -> Span) (docs : list Doc)
  (clusters_by_doc : list MentionClusters) :
  slice_ignores_spans doc_slice ->
  snd (SpanPredictor.set_annotations output_prefix doc_slice docs clusters_by_doc) = None
  /\ length (fst (SpanPredictor.set_annotations output_prefix doc_slice docs
                    clusters_by_doc)) = length docs
  /\ forall j doc, nth_error docs j = Some doc ->
       match nth_error clusters_by_doc j with
       | Some clusters =>
           exists doc',
             nth_error (fst (SpanPredictor.set_annotations output_prefix doc_slice
                               docs clusters_by_doc)) j = Some doc'
             /\ annotated output_prefix doc_slice doc clusters doc'
       | None =>
           nth_error (fst (SpanPredictor.set_annotations output_prefix doc_slice
                             docs clusters_by_doc)) j = Some doc
       end.
Proof.
  intros Hslice. unfold SpanPredictor.set_annotations. simpl.
  split; [reflexivity|]. apply span_annotate_docs_post. exact Hslice.
Qed.

(** X16.  The cluster lists that [CoreferenceResolver.predict] returns for
    a batch are as many as the documents, so [set_annotations] on them never
    stops at its length check: when no document holds a key of the form
    [prefix_i], it annotates every document and raises nothing. *)
Theorem coref_predict_then_set_annotations (span_cluster_prefix : string)
  (doc_slice : Doc -> Z -> Z -> Span) (Model Optimizer : Type)
  (ops : ModelOps Model Optimizer CoreferenceResolver.Preds CoreferenceResolver.Preds)
  (get_predicted_clusters :
     list Z -> list Z -> list (list Z) -> list (list R) -> Result MentionClusters)
  (model : Model) (docs : list Doc) (clusters_by_doc : list MentionClusters) :
  slice_ignores_spans doc_slice ->
  CoreferenceResolver.predict ops get_predicted_clusters model docs = Ok clusters_by_doc ->
  (forall doc i, In doc docs ->
                 contains (cluster_key span_cluster_prefix i) (spans doc) = false) ->
  length clusters_by_doc = length docs
  /\ exists docs',
       CoreferenceResolver.set_annotations span_cluster_prefix doc_slice docs
         clusters_by_doc = (docs', None)
       /\ Forall2 (fun dc doc' =>
                     annotated span_cluster_prefix doc_slice (fst dc) (snd dc) doc')
                  (combine docs clusters_by_doc) docs'.
Proof.
  intros Hslice Hp Hfresh. unfold CoreferenceResolver.predict in Hp.
  pose proof (mapM_length _ _ Hp) as Hlen. split; [exact Hlen|].
  apply coref_set_annotations_fresh; [exact Hslice|].
  clear Hp. revert clusters_by_doc Hlen.
  induction docs as [|d ds IH]; intros [|c cs] Hlen; simpl in Hlen;
    try discriminate; constructor.
  - intros i _. apply Hfresh. left. reflexivity.
  - apply IH; [|lia]. intros doc i Hin. apply Hfresh. right. exact Hin.
Qed.

(** X17.  When [SpanPredictor.predict] returns for a batch and its result
    is handed to [set_annotations], nothing is raised and every document
    is annotated: a document with an empty score tensor is as it was, and
    a document with a non-empty one holds, for every cluster i read under
    the input prefix, as many spans under [output_prefix_i] as that
    cluster has mentions. *)
Theorem span_predict_then_set_annotations (input_prefix output_prefix : string)
  (doc_slice : Doc -> Z -> Z -> Span)
  (doc2clusters : Doc -> string -> MentionClusters) (Model Optimizer : Type)
  (ops : ModelOps Model Optimizer SpanPredictor.Floats3d SpanPredictor.Floats3d)
  (model : Model) (docs : list Doc) (clusters_by_doc : list MentionClusters) :
  slice_ignores_spans doc_slice ->
  SpanPredictor.predict input_prefix doc2clusters ops model docs = Ok clusters_by_doc ->
  snd (SpanPredictor.set_annotations output_prefix doc_slice docs clusters_by_doc) = None
  /\ forall j doc, nth_error docs j = Some doc ->
       exists doc',
         nth_error (fst (SpanPredictor.set_annotations output_prefix doc_slice
                           docs clusters_by_doc)) j = Some doc'
         /\ (size3 (model_predict ops model [doc]) = 0%nat -> doc' = doc)
         /\ (size3 (model_predict ops model [doc]) <> 0%nat ->
             forall i cluster,
               nth_error (doc2clusters doc input_prefix) i = Some cluster ->
               exists group,
                 get (cluster_key output_prefix i) (spans doc') = Some group
                 /\ length group = length cluster).
Proof.
  intros Hslice Hp. split; [reflexivity|]. intros j doc Hd.
  unfold SpanPredictor.predict in Hp.
  destruct (mapM_nth_error_ok _ _ Hp _ Hd) as [clusters [Hc Hrun]].
  exists (SpanPredictor.annotate_clusters output_prefix doc_slice 0 clusters doc).
  split; [apply span_annotate_docs_nth; assumption|]. split.
  - intros Hsize.
    rewrite (predict_doc_empty input_prefix doc2clusters ops model doc Hsize) in Hrun.
    inversion Hrun; subst. reflexivity.
  - intros Hsize i cluster Hi.
    destruct (predict_doc_nonempty _ _ _ _ _ Hsize Hrun) as [starts [ends [_ [_ Hr]]]].
    apply resolve_clusters_spec in Hr. destruct Hr as [chunks [-> [Hshape _]]].
    simpl in *.
    assert (Hchunk : exists o, nth_error chunks i = Some o /\ length o = length cluster).
    { clear - Hshape Hi. revert i Hi.
      induction Hshape as [|o c chunks' cl' Hoc _ IH]; intros i Hi.
      - destruct i; discriminate.
      - destruct i as [|i]; simpl in *.
        + inversion Hi; subst. exists o. auto.
        + apply IH. exact Hi. }
    destruct Hchunk as [o [Ho Hlen]].
    destruct (span_annotate_clusters_annotated output_prefix Hslice chunks doc)
      as [_ [Hk _]].
    exists (map (fun m : Mention => doc_slice doc (fst m) (snd m)) o).
    split; [apply Hk; exact Ho|]. rewrite length_map. exact Hlen.
Qed.

(** ** The further properties on the sample inputs *)

Lemma sample_slice_ignores_spans : slice_ignores_spans Samples.doc_slice.
Proof.
  unfold slice_ignores_spans, Samples.doc_slice. intros d d' a b H.
  rewrite H. reflexivity.
Qed.

Lemma coref_set_annotations_writes_clusters_witness :
  exists docs',
    CoreferenceResolver.set_annotations "coref_clusters" Samples.doc_slice
      [Samples.plain_doc] [[[(0%Z, 1%Z); (1%Z, 2%Z)]]] = (docs', None)
    /\ Forall2 (fun dc doc' =>
                  annotated "coref_clusters" Samples.doc_slice (fst dc) (snd dc) doc')
               (combine [Samples.plain_doc] [[[(0%Z, 1%Z); (1%Z, 2%Z)]]]) docs'.
Proof.
  apply (@coref_set_annotations_writes_clusters "coref_clusters"%string
           Samples.doc_slice [Samples.plain_doc] [[[(0%Z, 1%Z); (1%Z, 2%Z)]]]).
  - exact sample_slice_ignores_spans.
  - constructor; [|constructor]. intros i _. reflexivity.
Defined.

Lemma span_set_annotations_writes_clusters_witness :
  snd (SpanPredictor.set_annotations "coref_clusters" Samples.doc_slice
         [Samples.two_tokens; Samples.plain_doc] [[[(1%Z, 2%Z)]]]) = None
  /\ length (fst (SpanPredictor.set_annotations "coref_clusters" Samples.doc_slice
                    [Samples.two_tokens; Samples.plain_doc] [[[(1%Z, 2%Z)]]]))
     = length [Samples.two_tokens; Samples.plain_doc]
  /\ forall j doc, nth_error [Samples.two_tokens; Samples.plain_doc] j = Some doc ->
       match nth_error [[[(1%Z, 2%Z)]]] j with
       | Some clusters =>
           exists doc',
             nth_error (fst (SpanPredictor.set_annotations "coref_clusters"
                               Samples.doc_slice
                               [Samples.two_tokens; Samples.plain_doc]
                               [[[(1%Z, 2%Z)]]])) j = Some doc'
             /\ annotated "coref_clusters" Samples.doc_slice doc clusters doc'
       | None =>
           nth_error (fst (SpanPredictor.set_annotations "coref_clusters"
                             Samples.doc_slice
                             [Samples.two_tokens; Samples.plain_doc]
                             [[[(1%Z, 2%Z)]]])) j = Some doc
       end.
Proof.
  apply (@span_set_annotations_writes_clusters "coref_clusters"%string
           Samples.doc_slice [Samples.two_tokens; Samples.plain_doc]
           [[[(1%Z, 2%Z)]]]).
  exact sample_slice_ignores_spans.
Defined.

Lemma gold_agreement_gathers_witness :
  Forall2 (fun row ix => Forall (in_range (length row)) ix)
          (Samples.one_cluster_gold 2 tt) [[(-1)%Z]; [0%Z]]
  /\ Samples.gold_matrix
     = gold_matrix_spec (Samples.one_cluster_gold 2 tt) [[(-1)%Z]; [0%Z]].
Proof.
  apply (@gold_agreement_gathers (Samples.one_cluster_gold 2 tt)
           [[(-1)%Z]; [0%Z]] Samples.gold_matrix).
  - reflexivity.
  - reflexivity.
Defined.

Lemma get_loss_returns_shaped_gradient_witness :
  CoreferenceResolver.get_loss Samples.gold_clusters Samples.head_span_idxs
    Samples.one_cluster_gold [Samples.example] Samples.score_matrix Samples.mention_idx
  = Ok (sum_squares (gradient_spec Samples.score_matrix
                       (gold_matrix_spec (Samples.one_cluster_gold 2 tt)
                          Samples.mention_idx)),
        gradient_spec Samples.score_matrix
          (gold_matrix_spec (Samples.one_cluster_gold 2 tt) Samples.mention_idx))
  /\ same_shape (gradient_spec Samples.score_matrix
                   (gold_matrix_spec (Samples.one_cluster_gold 2 tt)
                      Samples.mention_idx))
                Samples.score_matrix.
Proof.
  apply (@get_loss_returns_shaped_gradient unit nat Samples.gold_clusters
           Samples.head_span_idxs Samples.one_cluster_gold Samples.example []
           Samples.score_matrix Samples.mention_idx).
  - discriminate.
  - repeat constructor; unfold in_range; simpl; lia.
  - repeat constructor.
Defined.

Lemma coref_get_loss_failures_witness :
  (IndexError = IndexError \/ IndexError = ValueError)
  /\ (@nil Example = [] -> IndexError = IndexError).
Proof.
  apply (@coref_get_loss_failures unit nat Samples.gold_clusters Samples.head_span_idxs
           Samples.one_cluster_gold [] Samples.score_matrix Samples.mention_idx
           IndexError).
  reflexivity.
Defined.

Lemma span_loss_gradient_is_softmax_minus_one_hot_witness :
  SpanPredictor.get_loss "coref_clusters" [Samples.example] [[(0, 1); (1, 0)]]%R
  = Ok (sum_squares3 (span_gradient_spec [[(0, 1); (1, 0)]]%R [0%nat] [1%nat]),
        span_gradient_spec [[(0, 1); (1, 0)]]%R [0%nat] [1%nat])
  /\ Forall (fun row => Np.sum row = 0%R)
            (boundary_gradient (map (map fst) [[(0, 1); (1, 0)]]%R) [0%nat])
  /\ Forall (fun row => Np.sum row = 0%R)
            (boundary_gradient (map (map snd) [[(0, 1); (1, 0)]]%R) [1%nat]).
Proof.
  apply (@span_loss_gradient_is_softmax_minus_one_hot "coref_clusters"%string Samples.example
           [[(0, 1); (1, 0)]]%R [0%nat] [1%nat] 2%nat).
  - reflexivity.
  - discriminate.
  - reflexivity.
  - lia.
  - repeat constructor.
  - repeat constructor.
  - repeat constructor.
Defined.

Lemma span_get_loss_gold_out_of_range_witness :
  SpanPredictor.get_loss "coref_head_clusters" [Samples.example] Samples.span_scores
  = Raise IndexError.
Proof.
  apply (@span_get_loss_gold_out_of_range "coref_head_clusters"%string
           Samples.example Samples.span_scores [0%nat; 1%nat] [1%nat; 2%nat]).
  - reflexivity.
  - discriminate.
  - repeat constructor; discriminate.
  - right. right. apply Exists_cons_tl. apply Exists_cons_hd. simpl. lia.
Defined.

Lemma span_get_loss_failures_witness :
  (AssertionError = AssertionError /\ length (@nil Example) <> 1%nat)
  \/ (length (@nil Example) = 1%nat
      /\ (AssertionError = ValueError \/ AssertionError = IndexError)).
Proof.
  apply (@span_get_loss_failures "coref_clusters"%string [] Samples.span_scores
           AssertionError).
  reflexivity.
Defined.

Lemma sample_coref_update :
  exists losses' model',
    CoreferenceResolver.update "coref" Samples.gold_clusters Samples.head_span_idxs
      Samples.one_cluster_gold Samples.coref_ops [Samples.example] 0%R (Some tt)
      (Some [("ner"%string, 2%R)]) 0%nat
    = Ok (losses', model').
Proof.
  unfold CoreferenceResolver.update.
  cbn [any_tokens map existsb predicted Samples.example Samples.two_tokens n_tokens
       Nat.eqb negb orb CoreferenceResolver.update_loop model_begin_update
       Samples.coref_ops].
  rewrite sample_coref_get_loss. cbn. eexists. eexists. reflexivity.
Qed.

Lemma coref_update_accumulates_witness :
  exists losses' total,
    (0 <= total)%R
    /\ get "coref" losses'
       = Some (match get "coref" (given_losses (Some [("ner"%string, 2%R)])) with
               | Some v => v
               | None => 0
               end + total)%R
    /\ forall k, k <> "coref"%string ->
                 get k losses' = get k (given_losses (Some [("ner"%string, 2%R)])).
Proof.
  destruct sample_coref_update as [losses' [model' H]].
  exists losses'.
  apply (@coref_update_accumulates "coref"%string unit nat Samples.gold_clusters
           Samples.head_span_idxs Samples.one_cluster_gold nat unit Samples.coref_ops
           [Samples.example] 0%R (Some tt) (Some [("ner"%string, 2%R)])
           0%nat model' losses').
  exact H.
Defined.

Lemma sample_span_update :
  exists losses' model',
    SpanPredictor.update "span_predictor" "coref_clusters" Samples.span_ops
      [Samples.example] 0%R None None 0%nat
    = Ok (losses', model').
Proof.
  destruct sample_span_get_loss as [loss [grads H]].
  unfold SpanPredictor.update.
  cbn [any_tokens map existsb reference Samples.example Samples.two_tokens n_tokens
       Nat.eqb negb orb SpanPredictor.update_loop model_begin_update
       Samples.span_ops].
  rewrite H. cbn. eexists. eexists. reflexivity.
Qed.

Lemma span_update_accumulates_witness :
  exists losses' total,
    (0 <= total)%R
    /\ get "span_predictor" losses'
       = Some (match get "span_predictor" (given_losses None) with
               | Some v => v
               | None => 0
               end + total)%R
    /\ forall k, k <> "span_predictor"%string ->
                 get k losses' = get k (given_losses None).
Proof.
  destruct sample_span_update as [losses' [model' H]].
  exists losses'.
  apply (@span_update_accumulates "span_predictor"%string "coref_clusters"%string
           nat unit Samples.span_ops [Samples.example] 0%R None None
           0%nat model' losses').
  exact H.
Defined.

Lemma rehearse_without_rehearsal_model_witness :
  CoreferenceResolver.rehearse "coref" Samples.coref_ops None
    (fun scores _ => Ok scores) (fun _ => Ok 0%R)
    [Samples.example] 0%R (Some tt) None 0%nat
  = Ok (None, 0%nat).
Proof.
  apply (@rehearse_without_rehearsal_model "coref"%string nat unit Samples.coref_ops
           None (fun scores _ => Ok scores) (fun _ => Ok 0%R)
           [Samples.example] 0%R (Some tt) None 0%nat).
  left. reflexivity.
Defined.

Lemma span_initialize_prepares_witness :
  exists seen,
    [mkExample (mkDoc 3 [("coref_head_clusters_0"%string, [mkSpan 0 1; mkSpan 1 2])])
               Samples.three_tokens;
     Samples.example; Samples.empty_example]
    = seen ++ skipn 2 [mkExample Samples.three_tokens Samples.three_tokens;
                       Samples.example; Samples.empty_example]
    /\ Forall2 (prepared "coref_head_clusters" Samples.doc_slice)
         (firstn 2 [mkExample Samples.three_tokens Samples.three_tokens;
                    Samples.example; Samples.empty_example]) seen
    /\ seen <> []
    /\ 1%nat = Samples.count_initialize 0%nat (map predicted seen) (map reference seen).
Proof.
  apply (@span_initialize_prepares "coref_head_clusters"%string Samples.doc_slice nat
           Samples.accept_examples Samples.count_initialize
           [mkExample Samples.three_tokens Samples.three_tokens;
            Samples.example; Samples.empty_example]).
  reflexivity.
Defined.

Lemma span_initialize_asserts_witness :
  snd (SpanPredictor.initialize "coref_head_clusters" Samples.doc_slice
         Samples.accept_examples Samples.count_initialize
         [mkExample Samples.plain_doc Samples.plain_doc] 0%nat)
  = Raise AssertionError.
Proof.
  apply (@span_initialize_asserts "coref_head_clusters"%string Samples.doc_slice nat
           Samples.accept_examples Samples.count_initialize
           [mkExample Samples.plain_doc Samples.plain_doc] 0%nat).
  - reflexivity.
  - apply Exists_cons_hd. simpl. split; [reflexivity | lia].
Defined.

Lemma span_score_keys_miss_default_weights_witness :
  contains "coref_span_f" SpanPredictor.default_score_weights = false.
Proof.
  eapply (@span_score_keys_miss_default_weights "coref_clusters"%string
            Samples.doc2clusters unit (unit -> CorefScorer.Totals)
            (CorefScorer.Evaluator unit) Samples.unit_info
            Samples.unit_metric Samples.unit_metric Samples.unit_metric
            (@CorefScorer.new unit) (@CorefScorer.update unit)
            (@CorefScorer.get_f1 unit) (@CorefScorer.get_precision unit)
            (@CorefScorer.get_recall unit) [Samples.example]).
  - apply span_score_value.
  - reflexivity.
Defined.

Lemma coref_predict_then_set_annotations_witness :
  length [[[(0%Z, 1%Z); (1%Z, 2%Z)]]] = length [Samples.plain_doc]
  /\ exists docs',
       CoreferenceResolver.set_annotations "coref_clusters" Samples.doc_slice
         [Samples.plain_doc] [[[(0%Z, 1%Z); (1%Z, 2%Z)]]] = (docs', None)
       /\ Forall2 (fun dc doc' =>
                     annotated "coref_clusters" Samples.doc_slice (fst dc) (snd dc) doc')
                  (combine [Samples.plain_doc] [[[(0%Z, 1%Z); (1%Z, 2%Z)]]]) docs'.
Proof.
  apply (@coref_predict_then_set_annotations "coref_clusters"%string Samples.doc_slice
           nat unit Samples.coref_ops Samples.first_two_clusters 0%nat
           [Samples.plain_doc] [[[(0%Z, 1%Z); (1%Z, 2%Z)]]]).
  - exact sample_slice_ignores_spans.
  - reflexivity.
  - intros doc i [<-|[]]. reflexivity.
Defined.

Lemma span_predict_then_set_annotations_witness :
  snd (SpanPredictor.set_annotations "coref_clusters" Samples.doc_slice
         [Samples.two_tokens] [[[(1%Z, 0%Z); (1%Z, 0%Z)]]]) = None
  /\ forall j doc, nth_error [Samples.two_tokens] j = Some doc ->
       exists doc',
         nth_error (fst (SpanPredictor.set_annotations "coref_clusters"
                           Samples.doc_slice [Samples.two_tokens]
                           [[[(1%Z, 0%Z); (1%Z, 0%Z)]]])) j = Some doc'
         /\ (size3 (model_predict Samples.span_ops 0%nat [doc]) = 0%nat -> doc' = doc)
         /\ (size3 (model_predict Samples.span_ops 0%nat [doc]) <> 0%nat ->
             forall i cluster,
               nth_error (Samples.doc2clusters doc "coref_head_clusters") i
               = Some cluster ->
               exists group,
                 get (cluster_key "coref_clusters" i) (spans doc') = Some group
                 /\ length group = length cluster).
Proof.
  apply (@span_predict_then_set_annotations "coref_head_clusters"%string
           "coref_clusters"%string Samples.doc_slice Samples.doc2clusters
           nat unit Samples.span_ops 0%nat [Samples.two_tokens]
           [[[(1%Z, 0%Z); (1%Z, 0%Z)]]]).
  - exact sample_slice_ignores_spans.
  - unfold SpanPredictor.predict, SpanPredictor.predict_doc. cbn.
    decide_reals. reflexivity.
Defined.

(** ** The loss of the sample inputs *)

Lemma sample_span_get_loss_value :
  SpanPredictor.get_loss "coref_clusters" [Samples.example] [[(0, 0); (0, 0)]]%R
  = Ok (1%R, [[((- / 2)%R, (/ 2)%R); ((/ 2)%R, (- / 2)%R)]]).
Proof.
  rewrite (@span_get_loss_spec "coref_clusters"%string Samples.example
             [[(0, 0); (0, 0)]]%R [0%nat] [1%nat] 2%nat);
    try reflexivity; try discriminate; try lia; try (repeat constructor).
  assert (Hg : span_gradient_spec [[(0, 0); (0, 0)]]%R [0%nat] [1%nat]
               = [[((- / 2)%R, (/ 2)%R); ((/ 2)%R, (- / 2)%R)]]).
  { unfold span_gradient_spec, boundary_gradient, softmax_spec, Np.one_hot, Np.b2f.
    simpl. rewrite exp_0. repeat f_equal; field. }
  rewrite Hg. do 2 f_equal.
  unfold sum_squares3, Np.sum2, Np.sqr. simpl. field.
Qed.

Lemma loss_is_sum_of_squared_gradient_witness :
  (1%R = sum_of_squares (entries2 [[(- / 2)%R; (/ 2)%R]; [(/ 2)%R; (- / 2)%R]])
   /\ (0 <= 1)%R)
  /\ (1%R = sum_of_squares
              (entries3 [[((- / 2)%R, (/ 2)%R); ((/ 2)%R, (- / 2)%R)]])
      /\ (0 <= 1)%R).
Proof.
  split.
  - apply (proj1 loss_is_sum_of_squared_gradient unit nat Samples.gold_clusters
             Samples.head_span_idxs Samples.one_cluster_gold [Samples.example]
             Samples.score_matrix Samples.mention_idx).
    exact sample_coref_get_loss_value.
  - apply (proj2 loss_is_sum_of_squared_gradient "coref_clusters"%string
             [Samples.example] [[(0, 0); (0, 0)]]%R).
    exact sample_span_get_loss_value.
Defined.

(** A document without tokens has no row of gold scores, and [get_loss]
    ends in the error of [take_along_axis]. *)
Lemma get_loss_without_gold_rows (GoldClusters SpanIdxs : Type)
  (get_clusters_from_doc : Doc -> GoldClusters)
  (create_head_span_idxs : nat -> SpanIdxs)
  (create_gold_scores : SpanIdxs -> GoldClusters -> list (list bool))
  (eg : Example) (rest : list Example) (S : list (list R)) (idx : list (list Z)) :
  create_gold_scores (create_head_span_idxs (n_tokens (predicted eg)))
    (get_clusters_from_doc (reference eg)) = [] ->
  CoreferenceResolver.get_loss get_clusters_from_doc create_head_span_idxs
    create_gold_scores (eg :: rest) S idx = Raise IndexError.
Proof.
  intros H. rewrite get_loss_first. unfold CoreferenceResolver.gold_agreement.
  rewrite H. reflexivity.
Qed.
